(** * DPPVI: setup checks, privacy calibration, data partitioning, metrics

    A shallow embedding of the Python sources
    [notebooks/examples/dp_logistic_regression.py] (function [main]) and
    [notebooks/examples/utils.py] (functions [set_up_clients],
    [get_posneg], [generate_clients_data], [bin_search_sigma]).

    Conventions of the embedding:
    - Python exceptions are values of [exn]; a call that may raise returns
      a [result].
    - Python [None]-able arguments are [option]s.
    - NumPy arrays are lists; an array updated by index is a list updated
      with stdpp's insert.
    - The global NumPy random state is threaded explicitly.
    - The bisection is stated over an arbitrary carrier with its
      arithmetic as parameters.
    - The partitioner is given twice: over exact rationals [Q], the
      arithmetic its formulas are written in, and in [Float64] over IEEE
      doubles, as the code computes them.  The two differ where a product
      of doubles rounds across an integer before it is floored.
    - The predictions and thresholds of the metrics are rationals: finite
      doubles compared exactly, the thresholds being the exact [i/(n-1)]. *)

From Stdlib Require Import ZArith QArith Qround Qabs String Lia Lqa Permutation.
From Stdlib Require Import Floats.
From stdpp Require Import base list strings.

Local Open Scope string_scope.
Local Open Scope list_scope.
Local Open Scope Z_scope.

(** ** Exceptions and results *)

Inductive exn : Type :=
| ValueError (msg : string)
| NotImplementedError (msg : string)
| AssertionError (msg : string)
| ZeroDivisionError
| IndexError
| UnboundLocalError (var : string)
| OverflowError (msg : string).

Inductive result (A : Type) : Type :=
| Ok (a : A)
| Raise (e : exn).

Arguments Ok {A} a.
Arguments Raise {A} e.

#[global] Instance result_ret : MRet result := @Ok.

#[global] Instance result_bind : MBind result :=
  fun A B (k : A -> result B) (r : result A) =>
    match r with
    | Ok a => k a
    | Raise e => Raise e
    end.

Definition is_raise {A} (r : result A) : bool :=
  match r with Ok _ => false | Raise _ => true end.

(** [s in [a; b; ...]] on Python strings. *)
Definition str_in (s : string) (l : list string) : bool :=
  existsb (String.eqb s) l.

(** ** The command-line arguments read by the checks of [main] *)

Record Args : Type := mkArgs {
  dp_mode : string;
  model : string;
  batch_size : option Z;
  sampling_frac_q : option Q
}.

(** The [logger.info] line chosen by the checks of [main]. *)
Inductive sampling_info : Type :=
| UserLevelSWOR
| SWORSamplingFrac
| SWORBatchSize
| SequentialSamplingFrac
| SequentialBatchSize
| NondpBatches
| NondpEpochs.

Definition is_set {A} (o : option A) : bool :=
  match o with Some _ => true | None => false end.

(** [main], lines 60-93: "do some args checks". *)
Definition main_arg_checks (args : Args) : result (option sampling_info) :=
  if negb (str_in (dp_mode args)
             ["nondp_batches"; "nondp_epochs"; "dpsgd"; "param";
              "param_fixed"; "server"; "lfa"; "local_pvi"])
  then Raise (ValueError ("Unknown dp_mode: " +:+ dp_mode args))
  else if negb (str_in (model args) ["pvi"; "bcm_split"; "bcm_same"; "global_vi"])
  then Raise (ValueError ("Unknown model: " +:+ model args))
  else if str_in (dp_mode args) ["dpsgd"; "param_fixed"] then
    if is_set (sampling_frac_q args) && is_set (batch_size args)
    then Ok (Some UserLevelSWOR)
    else if is_set (sampling_frac_q args) then Ok (Some SWORSamplingFrac)
    else if is_set (batch_size args) then Ok (Some SWORBatchSize)
    else Raise (ValueError
                  "Need to set at least one of 'batch_size', 'sampling_frac_q'!")
  else if str_in (dp_mode args) ["lfa"; "local_pvi"; "param"] then
    if is_set (batch_size args) && is_set (sampling_frac_q args)
    then Raise (ValueError
                  "Exactly one of 'batch_size', 'sampling_frac_q' needs to be None")
    else if negb (is_set (batch_size args)) then Ok (Some SequentialSamplingFrac)
    else if negb (is_set (sampling_frac_q args)) then Ok (Some SequentialBatchSize)
    else Ok None
  else
    if str_in (dp_mode args) ["nondp_batches"] then Ok (Some NondpBatches)
    else if str_in (dp_mode args) ["nondp_epochs"] then Ok (Some NondpEpochs)
    else Raise (ValueError ("Unknown dp_mode: " +:+ dp_mode args)).

(** The seven modes documented by the help text of [--dp_mode]. *)
Definition dp_modes : list string :=
  ["nondp_epochs"; "nondp_batches"; "dpsgd"; "param"; "param_fixed"; "lfa";
   "local_pvi"].

(** ** [set_up_clients] *)

(** Modelled from the spec: the client classes of [pvi.clients], whose
    sources are not at hand.  A client is "created once at setup from a
    shard and a neutral initial factor" and owns its data, factor and
    configuration, so a constructor is taken to store its arguments. *)
Inductive client_class : Type :=
| LFA_Client
| Local_PVI_Client
| Param_DP_Client
| DPSGD_Client
| Client.

Section SetUpClients.
(** The model, a raw client shard, its tensor form, the initial natural
    parameters, the factor built from them and the client configuration
    are opaque to [set_up_clients]. *)
Variables Model Shard Data NatParams Factor Config : Type.
Variable to_tensors : Shard -> Data.
Variable MeanFieldGaussianFactor : NatParams -> Factor.

Record client : Type := mkClient {
  client_cls : client_class;
  client_data : Data;
  client_model : Model;
  client_t : Factor;
  client_config : Config
}.

(** One iteration of the loop body of [set_up_clients], lines 50-85. *)
Definition make_client (model : Model) (init_nat_params : NatParams)
    (config : Config) (dp_mode : string) (batch_size : option Z)
    (sampling_frac_q : option Q) (_client_data : Shard) : result client :=
  let data := to_tensors _client_data in
  let t := MeanFieldGaussianFactor init_nat_params in
  if str_in dp_mode ["lfa"] then Ok (mkClient LFA_Client data model t config)
  else if str_in dp_mode ["local_pvi"]
  then Ok (mkClient Local_PVI_Client data model t config)
  else if str_in dp_mode ["param"]
  then Ok (mkClient Param_DP_Client data model t config)
  else if str_in dp_mode ["dpsgd"] then
    if is_set batch_size && is_set sampling_frac_q
    then Raise (NotImplementedError "user level DP not implemented!")
    else Ok (mkClient DPSGD_Client data model t config)
  else if str_in dp_mode ["nondp_epochs"; "nondp_batches"]
  then Ok (mkClient Client data model t config)
  else Raise (ValueError ("Unknown dp_mode: " +:+ dp_mode +:+ "!")).

(** The loop of [set_up_clients]: clients are appended in order, the
    first exception aborts the loop. *)
Fixpoint set_up_clients_from (clients : list client) (model : Model)
    (client_data : list Shard) (init_nat_params : NatParams)
    (config : Config) (dp_mode : string) (batch_size : option Z)
    (sampling_frac_q : option Q) : result (list client) :=
  match client_data with
  | [] => Ok clients
  | _client_data :: rest =>
      c ← make_client model init_nat_params config dp_mode batch_size
            sampling_frac_q _client_data;
      set_up_clients_from (clients ++ [c]) model rest init_nat_params
        config dp_mode batch_size sampling_frac_q
  end.

Definition set_up_clients := set_up_clients_from [].

(** The setup path of [main]: the argument checks, then (the data being
    loaded and split into [client_data]) the call of [set_up_clients] at
    line 183.  Nothing is trained before this point. *)
Definition main_setup (args : Args) (model : Model)
    (client_data : list Shard) (init_nat_params : NatParams)
    (config : Config) : result (list client) :=
  _ ← main_arg_checks args;
  set_up_clients model client_data init_nat_params config
    (dp_mode args) (batch_size args) (sampling_frac_q args).

End SetUpClients.

Arguments mkClient {Model Data Factor Config}.

(** ** [bin_search_sigma] *)

Section BinSearchSigma.
(** The float carrier and the float operations the loop uses.
    [get_epsilon_S] is [fourier_accountant.get_epsilon_S], a black box
    taking [target_delta], [sigma], [q], [ncomp], [nx] and [L]. *)
Variable F : Type.
Variables fadd fsub : F -> F -> F.
Variable fdiv2 : F -> F.
Variable fabs : F -> F.
Variables fleb fltb fgeb : F -> F -> bool.
Variable get_epsilon_S : F -> F -> F -> Z -> Z -> F -> F.

(** The only line logged at the configured level (INFO). *)
Inductive log_line : Type :=
| DidNotConverge (sigma eps : F).

(** What one pass through the loop body (lines 558-570) does: return
    from the function, or go on with new bounds, keeping [cur] and [eps]
    bound for the code after the loop. *)
Inductive iteration : Type :=
| Return (cur : F)
| Continue (lbound ubound cur eps : F).

Definition loop_body (target_eps : F) (ncomp : Z) (target_delta q : F)
    (nx : Z) (L lbound ubound tol : F) : iteration :=
  let cur := fdiv2 (fadd ubound lbound) in
  let eps := get_epsilon_S target_delta cur q ncomp nx L in
  if fleb (fabs (fsub eps target_eps)) tol then Return cur
  else if fltb eps target_eps then Continue lbound cur cur eps
  else Continue cur ubound cur eps.

(** [iters] passes of the loop from the given bounds; [last] holds the
    values of [cur] and [eps] once a pass has bound them.  After the
    loop the message is formatted from [cur] and [eps] and the function
    ends without a return statement, so it returns [None]. *)
Fixpoint bin_search_loop (iters : nat) (target_eps : F) (ncomp : Z)
    (target_delta q : F) (nx : Z) (L lbound ubound tol : F)
    (last : option (F * F)) : result (option F * list log_line) :=
  match iters with
  | O =>
      match last with
      | Some (cur, eps) => Ok (None, [DidNotConverge cur eps])
      | None => Raise (UnboundLocalError "cur")
      end
  | S iters' =>
      match loop_body target_eps ncomp target_delta q nx L lbound ubound tol with
      | Return cur => Ok (Some cur, [])
      | Continue lbound' ubound' cur eps =>
          bin_search_loop iters' target_eps ncomp target_delta q nx L
            lbound' ubound' tol (Some (cur, eps))
      end
  end.

(** [range(max_iters)] is empty for [max_iters <= 0]. *)
Definition bin_search_sigma (target_eps : F) (ncomp : Z)
    (target_delta q : F) (nx : Z) (L lbound ubound tol : F)
    (max_iters : Z) : result (option F * list log_line) :=
  bin_search_loop (Z.to_nat max_iters) target_eps ncomp target_delta q nx L
    lbound ubound tol None.

(** The midpoints the loop visits in [iters] passes when no pass
    returns. *)
Fixpoint candidates (iters : nat) (target_eps : F) (ncomp : Z)
    (target_delta q : F) (nx : Z) (L lbound ubound : F) : list F :=
  match iters with
  | O => []
  | S iters' =>
      let cur := fdiv2 (fadd ubound lbound) in
      let eps := get_epsilon_S target_delta cur q ncomp nx L in
      cur :: (if fltb eps target_eps
              then candidates iters' target_eps ncomp target_delta q nx L
                     lbound cur
              else candidates iters' target_eps ncomp target_delta q nx L
                     cur ubound)
  end.

(** The tolerance test of line 563 at a candidate [sigma]. *)
Definition within_tol (target_eps : F) (ncomp : Z) (target_delta q : F)
    (nx : Z) (L tol sigma : F) : bool :=
  fleb (fabs (fsub (get_epsilon_S target_delta sigma q ncomp nx L) target_eps))
    tol.

End BinSearchSigma.

Arguments DidNotConverge {F}.
Arguments Return {F}.
Arguments Continue {F}.

(** Exact rational arithmetic as an instance of the float operations. *)
Module QFloat.
Definition fdiv2 (a : Q) : Q := (a / 2)%Q.
Definition fleb (a b : Q) : bool := Qle_bool a b.
Definition fltb (a b : Q) : bool := negb (Qle_bool b a).
Definition fgeb (a b : Q) : bool := Qle_bool b a.
(** A stand-in accountant, decreasing in [sigma]: [eps = ncomp * q / sigma]. *)
Definition accountant (target_delta sigma q : Q) (ncomp nx : Z) (L : Q) : Q :=
  (inject_Z ncomp * q / sigma)%Q.
End QFloat.

(** ** NumPy helpers *)

(** [np.sum] of a boolean array. *)
Definition np_sum (l : list bool) : Z := foldr (fun b n => Z.b2z b + n) 0 l.

(** [a[mask]] for a boolean [mask]: the mask must be as long as [a]. *)
Fixpoint select {A} (a : list A) (mask : list bool) : list A :=
  match a, mask with
  | v :: a', b :: mask' => if b then v :: select a' mask' else select a' mask'
  | _, _ => []
  end.

Definition bool_index {A} (a : list A) (mask : list bool) : result (list A) :=
  if Nat.eqb (length a) (length mask) then Ok (select a mask) else Raise IndexError.

(** [a[inds]] for an array of indices: every index must be in range. *)
Fixpoint int_index {A} (a : list A) (inds : list nat) : result (list A) :=
  match inds with
  | [] => Ok []
  | i :: inds' =>
      match a !! i with
      | Some v => vs ← int_index a inds'; Ok (v :: vs)
      | None => Raise IndexError
      end
  end.

(** [np.where(mask)]: the indices at which [mask] holds. *)
Fixpoint np_where_from (i : nat) (mask : list bool) : list nat :=
  match mask with
  | [] => []
  | b :: mask' => if b then i :: np_where_from (S i) mask' else np_where_from (S i) mask'
  end.

Definition np_where := np_where_from 0.

(** [a[:k]] and [a[k:]] with Python's reading of a negative [k]. *)
Definition slice_to {A} (k : Z) (a : list A) : list A :=
  if 0 <=? k then take (Z.to_nat k) a
  else take (Z.to_nat (Z.of_nat (length a) + k)) a.

Definition slice_from {A} (k : Z) (a : list A) : list A :=
  if 0 <=? k then drop (Z.to_nat k) a
  else drop (Z.to_nat (Z.of_nat (length a) + k)) a.

(** [np.mean] of a boolean array; [None] is the [nan] of an empty array. *)
Definition np_mean (l : list bool) : option Q :=
  match l with
  | [] => None
  | _ => Some (inject_Z (np_sum l) / inject_Z (Z.of_nat (length l)))%Q
  end.

(** [np.linspace(0, 1, n)]; a negative [n] is refused by NumPy.  The
    entries are the exact [i/(n-1)]; [Float64.np_linspace01] has the
    doubles that NumPy computes. *)
Definition np_linspace01 (n : Z) : result (list Q) :=
  if n <? 0 then Raise (ValueError "Number of samples must be non-negative.")
  else if n =? 1 then Ok [0%Q]
  else Ok (map (fun i => (inject_Z (Z.of_nat i) / inject_Z (n - 1))%Q)
             (seq 0 (Z.to_nat n))).

(** [len(np.unique(y))]. *)
Definition n_unique (y : list Z) : nat := length (remove_dups y).

(** Elementwise [==] and [!=] of a boolean array with a numeric one:
    [True] compares as 1 and [False] as 0. *)
Definition eq_arrays (bs : list bool) (vs : list Z) : list bool :=
  zip_with (fun b v => Z.b2z b =? v) bs vs.

Definition ne_arrays (bs : list bool) (vs : list Z) : list bool :=
  zip_with (fun b v => negb (Z.b2z b =? v)) bs vs.

(** ** [get_posneg] *)

Section GetPosneg.
(** The three [sklearn.metrics] calls are external; their scores are
    stored in the result and nothing else depends on them. *)
Variable Score : Type.
Variable average_precision_score : list Z -> list Q -> Score.
Variable balanced_accuracy_score : list Z -> list bool -> Score.
Variable f1_score : list Z -> list bool -> Score.

Definition gt_thr (pred_probs : list Q) (thr : Q) : list bool :=
  map (fun p => negb (Qle_bool p thr)) pred_probs.

Definition le_thr (pred_probs : list Q) (thr : Q) : list bool :=
  map (fun p => Qle_bool p thr) pred_probs.

Definition y_is (v : Z) (y : list Z) : list bool := map (fun l => l =? v) y.

(** [np.sum((pred_probs > thr)[y==1] == y[y==1])] *)
Definition count_TP (y : list Z) (pred_probs : list Q) (thr : Q) : result Z :=
  sel ← bool_index (gt_thr pred_probs thr) (y_is 1 y);
  lab ← bool_index y (y_is 1 y);
  Ok (np_sum (eq_arrays sel lab)).

(** [np.sum((pred_probs > thr)[y==0] != y[y==0])] *)
Definition count_FP (y : list Z) (pred_probs : list Q) (thr : Q) : result Z :=
  sel ← bool_index (gt_thr pred_probs thr) (y_is 0 y);
  lab ← bool_index y (y_is 0 y);
  Ok (np_sum (ne_arrays sel lab)).

(** [np.sum((pred_probs <= thr)[y==0] == 1-y[y==0])] *)
Definition count_TN (y : list Z) (pred_probs : list Q) (thr : Q) : result Z :=
  sel ← bool_index (le_thr pred_probs thr) (y_is 0 y);
  lab ← bool_index y (y_is 0 y);
  Ok (np_sum (eq_arrays sel (map (fun v => 1 - v) lab))).

(** [np.sum((pred_probs <= thr)[y==1] != 1-y[y==1])] *)
Definition count_FN (y : list Z) (pred_probs : list Q) (thr : Q) : result Z :=
  sel ← bool_index (le_thr pred_probs thr) (y_is 1 y);
  lab ← bool_index y (y_is 1 y);
  Ok (np_sum (ne_arrays sel (map (fun v => 1 - v) lab))).

(** The four count arrays of the [posneg] dictionary while it is filled. *)
Record counts : Type := mkCounts {
  cTP : list Z;
  cFP : list Z;
  cTN : list Z;
  cFN : list Z
}.

(** The loop of lines 408-412 over [enumerate(tmp)], from index [i_thr]. *)
Fixpoint fill_counts (y : list Z) (pred_probs : list Q) (i_thr : nat)
    (tmp : list Q) (c : counts) : result counts :=
  match tmp with
  | [] => Ok c
  | thr :: tmp' =>
      tp ← count_TP y pred_probs thr;
      let c := mkCounts (<[i_thr := tp]> (cTP c)) (cFP c) (cTN c) (cFN c) in
      fp ← count_FP y pred_probs thr;
      let c := mkCounts (cTP c) (<[i_thr := fp]> (cFP c)) (cTN c) (cFN c) in
      tn ← count_TN y pred_probs thr;
      let c := mkCounts (cTP c) (cFP c) (<[i_thr := tn]> (cTN c)) (cFN c) in
      fn ← count_FN y pred_probs thr;
      let c := mkCounts (cTP c) (cFP c) (cTN c) (<[i_thr := fn]> (cFN c)) in
      fill_counts y pred_probs (S i_thr) tmp' c
  end.

Record posneg : Type := mkPosneg {
  TP : list Z;
  FP : list Z;
  TN : list Z;
  FN : list Z;
  n_points : Z;
  avg_prec_score : Score;
  balanced_acc : Score;
  pn_f1_score : Score
}.

Definition np_zeros (n : Z) : list Z := replicate (Z.to_nat n) 0.

Definition get_posneg (y : list Z) (pred_probs : list Q) (n_points : Z)
    : result posneg :=
  if Nat.eqb (n_unique y) 2 then
    c ← (if n_points =? 1 then
           tp ← count_TP y pred_probs (1 # 2);
           fp ← count_FP y pred_probs (1 # 2);
           tn ← count_TN y pred_probs (1 # 2);
           fn ← count_FN y pred_probs (1 # 2);
           Ok (mkCounts [tp] [fp] [tn] [fn])
         else
           tmp ← np_linspace01 n_points;
           fill_counts y pred_probs 0 tmp
             (mkCounts (np_zeros n_points) (np_zeros n_points)
                (np_zeros n_points) (np_zeros n_points)));
    Ok (mkPosneg (cTP c) (cFP c) (cTN c) (cFN c) n_points
          (average_precision_score y pred_probs)
          (balanced_accuracy_score y (gt_thr pred_probs (1 # 2)))
          (f1_score y (gt_thr pred_probs (1 # 2))))
  else Raise (NotImplementedError "multiclass bal acc etc not implemented!").

End GetPosneg.

(** Index [j] of the count arrays holds a split of the two classes of [y]. *)
Definition split_at (y : list Z) (c : counts) (j : nat) : Prop :=
  forall tp fp tn fn,
    cTP c !! j = Some tp -> cFP c !! j = Some fp ->
    cTN c !! j = Some tn -> cFN c !! j = Some fn ->
    tp + fn = np_sum (y_is 1 y) /\ fp + tn = np_sum (y_is 0 y).

Definition same_lengths (c c' : counts) : Prop :=
  length (cTP c') = length (cTP c) /\ length (cFP c') = length (cFP c) /\
  length (cTN c') = length (cTN c) /\ length (cFN c') = length (cFN c).

(** ** [generate_clients_data] *)

(** A client shard, the dictionary [{'x': ..., 'y': ...}]. *)
Record shard (X : Type) : Type := mkShard {
  shard_x : list X;
  shard_y : list Z
}.

Arguments mkShard {X}.
Arguments shard_x {X}.
Arguments shard_y {X}.

Definition is_pos (y : list Z) : list bool := map (fun v => 0 <? v) y.
Definition is_zero (y : list Z) : list bool := map (fun v => v =? 0) y.

(** The sizes of lines 471-479 in exact arithmetic, as functions of
    [N = x.shape[0]], the labels and the two factors.  [Float64] below
    computes them in doubles. *)
Definition client_size (factor : Q) (N : nat) (M : Z) : Z :=
  Qfloor (factor * inject_Z (Z.of_nat N) / inject_Z M).

Definition small_client_size (N : nat) (M : Z) (client_size_factor : Q) : Z :=
  client_size (1 - client_size_factor) N M.

Definition big_client_size (N : nat) (M : Z) (client_size_factor : Q) : Z :=
  client_size (1 + client_size_factor) N M.

Definition small_client_class_balance (class_balance class_balance_factor : Q) : Q :=
  (class_balance + (1 - class_balance) * class_balance_factor)%Q.

Definition small_client_negative_class_size (N : nat) (M : Z)
    (client_size_factor class_balance class_balance_factor : Q) : Z :=
  Qfloor (inject_Z (small_client_size N M client_size_factor)
          * small_client_class_balance class_balance class_balance_factor).

Definition small_client_positive_class_size (N : nat) (M : Z)
    (client_size_factor class_balance class_balance_factor : Q) : Z :=
  small_client_size N M client_size_factor
  - small_client_negative_class_size N M client_size_factor class_balance
      class_balance_factor.

Section GenerateClientsData.
(** Rows of [x] are opaque.  [rng] is the global state of [np.random];
    [np_random_seed] and [np_random_permutation] are the two calls that
    write it, [np.random.get_state] and [np.random.set_state] read and
    overwrite the threaded state. *)
Variable X : Type.
Variable rng : Type.
Variable np_random_seed : Z -> rng.
Variable np_random_permutation : nat -> rng -> list nat * rng.

(** "Populate small classes", lines 506-525: [n] passes of the loop. *)
Fixpoint populate_small (n : nat) (pos_size neg_size : Z)
    (x_pos : list X) (y_pos : list Z) (x_neg : list X) (y_neg : list Z)
    (client_data : list (shard X)) (g : rng)
    : result (list (shard X) * (list X * list Z * list X * list Z)) * rng :=
  match n with
  | O => (Ok (client_data, (x_pos, y_pos, x_neg, y_neg)), g)
  | S n' =>
      let client_x_pos := slice_to pos_size x_pos in
      let x_pos := slice_from pos_size x_pos in
      let client_y_pos := slice_to pos_size y_pos in
      let y_pos := slice_from pos_size y_pos in
      let client_x_neg := slice_to neg_size x_neg in
      let x_neg := slice_from neg_size x_neg in
      let client_y_neg := slice_to neg_size y_neg in
      let y_neg := slice_from neg_size y_neg in
      let client_x := client_x_pos ++ client_x_neg in
      let client_y := client_y_pos ++ client_y_neg in
      let '(shuffle_inds, g) := np_random_permutation (length client_x) g in
      match int_index client_x shuffle_inds with
      | Raise e => (Raise e, g)
      | Ok client_x =>
          match int_index client_y shuffle_inds with
          | Raise e => (Raise e, g)
          | Ok client_y =>
              populate_small n' pos_size neg_size x_pos y_pos x_neg y_neg
                (client_data ++ [mkShard client_x client_y]) g
          end
      end
  end.

(** "Distribute among large clients", lines 536-543. *)
Fixpoint distribute_big (n : nat) (big_size : Z) (x : list X) (y : list Z)
    (client_data : list (shard X)) : list (shard X) :=
  match n with
  | O => client_data
  | S n' =>
      let client_x := slice_to big_size x in
      let client_y := slice_to big_size y in
      distribute_big n' big_size (slice_from big_size x)
        (slice_from big_size y) (client_data ++ [mkShard client_x client_y])
  end.

(** The returned tuple [(client_data, N_is, props_positive, M)]. *)
Definition clients_data : Type :=
  list (shard X) * list nat * list (option Q) * Z.

(** The function from line 469 on in exact arithmetic, started in
    random state [g]; the state it yields is the one left when it
    returns or raises, before any restoring. *)
Definition partition_even (x : list X) (y : list Z) (M : Z)
    (client_size_factor class_balance_factor : Q) (g : rng)
    : result clients_data * rng :=
  if negb (M mod 2 =? 0)
  then (Raise (ValueError "Num clients should be even for nice maths"), g)
  else
  let N := length x in
  if M =? 0 then (Raise ZeroDivisionError, g) else
  let small_size := small_client_size N M client_size_factor in
  let big_size := big_client_size N M client_size_factor in
  match np_mean (is_zero y) with
  | None => (Raise (ValueError "cannot convert float NaN to integer"), g)
  | Some class_balance =>
  let neg_size := small_client_negative_class_size N M client_size_factor
                    class_balance class_balance_factor in
  let pos_size := small_client_positive_class_size N M client_size_factor
                    class_balance class_balance_factor in
  if neg_size <? 0
  then (Raise (ValueError
          "small_client_negative_class_size is negative, invalid settings."), g)
  else if pos_size <? 0
  then (Raise (ValueError
          "small_client_positive_class_size is negative, invalid settings."), g)
  else if negb (Qle_bool (inject_Z neg_size * inject_Z M / 2)
                  (class_balance * inject_Z (Z.of_nat N)))
  then (Raise (ValueError
          "Not enough negative class instances to fill the small clients."), g)
  else if negb (Qle_bool (inject_Z pos_size * inject_Z M / 2)
                  ((1 - class_balance) * inject_Z (Z.of_nat N)))
  then (Raise (ValueError
          "Not enough positive class instances to fill the small clients."), g)
  else
  let pos_inds := np_where (is_pos y) in
  let zero_inds := np_where (is_zero y) in
  if negb (Nat.eqb (length pos_inds + length zero_inds) (length y))
  then (Raise (AssertionError "Some indeces missed."), g)
  else
  match int_index y pos_inds, int_index y zero_inds,
        int_index x pos_inds, int_index x zero_inds with
  | Ok y_pos, Ok y_neg, Ok x_pos, Ok x_neg =>
      match populate_small (Z.to_nat (M ÷ 2)) pos_size neg_size
              x_pos y_pos x_neg y_neg [] g with
      | (Raise e, g) => (Raise e, g)
      | (Ok (client_data, (x_pos, y_pos, x_neg, y_neg)), g) =>
          let x := x_pos ++ x_neg in
          let y := y_pos ++ y_neg in
          let '(shuffle_inds, g) := np_random_permutation (length x) g in
          match int_index x shuffle_inds, int_index y shuffle_inds with
          | Ok x, Ok y =>
              let client_data :=
                distribute_big (Z.to_nat (M ÷ 2)) big_size x y client_data in
              let N_is := map (fun data => length (shard_x data)) client_data in
              let props_positive :=
                map (fun data => np_mean (is_pos (shard_y data))) client_data in
              (Ok (client_data, N_is, props_positive, M), g)
          | _, _ => (Raise IndexError, g)
          end
      end
  | _, _, _, _ => (Raise IndexError, g)
  end
  end.

(** [generate_clients_data], called in global random state [g]; the
    second component is the global random state it leaves behind. *)
Definition generate_clients_data (x : list X) (y : list Z) (M : Z)
    (client_size_factor class_balance_factor : Q) (dataset_seed : option Z)
    (g : rng) : result clients_data * rng :=
  let random_state := g in
  let g := match dataset_seed with
           | Some s => np_random_seed s
           | None => g
           end in
  if M =? 1 then
    (Ok ([mkShard x y], [length x], [np_mean (is_pos y)], M), g)
  else
    match partition_even x y M client_size_factor class_balance_factor g with
    | (Raise e, g) => (Raise e, g)
    | (Ok r, g) =>
        (Ok r, match dataset_seed with
               | Some _ => random_state
               | None => g
               end)
    end.

End GenerateClientsData.

(** ** A random state for running the partitioner

    The state is shown as the sequence of index orders its coming calls
    of [np.random.permutation] draw; a draw that does not fit the
    requested length is replaced by the identity order. *)
Module TapeRandom.
Definition rng : Type := list (list nat).

Definition covers (n : nat) (p : list nat) : bool :=
  Nat.eqb (length p) n && forallb (fun i => existsb (Nat.eqb i) p) (seq 0 n).

Definition np_random_permutation (n : nat) (g : rng) : list nat * rng :=
  match g with
  | p :: g' => if covers n p then (p, g') else (seq 0 n, g')
  | [] => (seq 0 n, [])
  end.

(** Seeding with [s] yields the draws [draws s]. *)
Definition np_random_seed (draws : Z -> rng) (s : Z) : rng := draws s.
End TapeRandom.


(** ** Predicates on the returned shards *)

(** A shard with [size] examples of which [pos] are positive. *)
Definition shard_of {X} (size pos : Z) (d : shard X) : Prop :=
  Z.of_nat (length (shard_x d)) = size /\ Z.of_nat (length (shard_y d)) = size
  /\ np_sum (is_pos (shard_y d)) = pos.


(** ** A small dataset: sixteen rows, labels alternating 1 and 0 *)
Module Example.
Definition x : list nat := seq 0 16.
Definition y : list Z := [1; 0; 1; 0; 1; 0; 1; 0; 1; 0; 1; 0; 1; 0; 1; 0].

(** Three draws: two orders of four and one order of eight. *)
Definition draws : TapeRandom.rng :=
  [[1; 3; 0; 2]; [2; 0; 3; 1]; [2; 0; 3; 1; 6; 4; 7; 5]]%nat.

(** The partitioner over these rows; seeding always yields [draws]. *)
Definition generate :=
  generate_clients_data nat TapeRandom.rng
    (TapeRandom.np_random_seed (fun _ => draws))
    TapeRandom.np_random_permutation.
End Example.

(** * Further functions of the two files *)

(** ** [acc_and_ll] *)

(** The number of examples with the given label that a threshold puts
    above ([pred_probs > thr]) or not above ([pred_probs <= thr]) it. *)
Definition predicted (above : bool) (label : Z) (thr : Q) (y : list Z)
    (pred_probs : list Q) : Z :=
  np_sum (zip_with (fun v p =>
                      (v =? label)
                      && (if above then negb (Qle_bool p thr)
                          else Qle_bool p thr)) y pred_probs).

(** Index [j] of the count arrays holds the counts at threshold [thr]. *)
Definition counts_at (y : list Z) (pred_probs : list Q) (c : counts)
    (j : nat) (thr : Q) : Prop :=
  cTP c !! j = Some (predicted true 1 thr y pred_probs)
  /\ cFP c !! j = Some (predicted true 0 thr y pred_probs)
  /\ cTN c !! j = Some (predicted false 0 thr y pred_probs)
  /\ cFN c !! j = Some (predicted false 1 thr y pred_probs).

(** Line 335, [np.mean((pred_probs > 0.5) == y.numpy())].  NumPy
    stretches an array of one entry to the length of the other; arrays
    of two other, different lengths cannot be compared (a [ValueError]
    since NumPy 1.25). *)
Definition accuracy (pred_probs : list Q) (y : list Z) : result (option Q) :=
  let above := gt_thr pred_probs (1 # 2) in
  if Nat.eqb (length above) (length y)
  then Ok (np_mean (eq_arrays above y))
  else
    match above, y with
    | [b], _ => Ok (np_mean (eq_arrays (replicate (length y) b) y))
    | _, [v] => Ok (np_mean (eq_arrays above (replicate (length above) v)))
    | _, _ => Raise (ValueError "operands could not be broadcast together")
    end.

Section AccAndLl.
(** The server's predictive mean and the mean Bernoulli log-likelihood of
    the clamped predictions are computed by torch; both are parameters
    and may raise. *)
Variables Server Features LogLik Score : Type.
Variable model_predict_mean : Server -> Features -> result (list Q).
Variable bernoulli_loglik : list Q -> list Z -> result LogLik.
Variable average_precision_score : list Z -> list Q -> Score.
Variable balanced_accuracy_score : list Z -> list bool -> Score.
Variable f1_score : list Z -> list bool -> Score.

(** Lines 342-348: the counts are asked for two-valued labels only, and
    any exception of [get_posneg] is swallowed. *)
Definition posneg_or_none (y : list Z) (pred_probs : list Q) (n_points : Z)
    : option (posneg Score) :=
  if Nat.eqb (n_unique y) 2 then
    match get_posneg Score average_precision_score balanced_accuracy_score
            f1_score y pred_probs n_points with
    | Ok p => Some p
    | Raise _ => None
    end
  else None.

Definition acc_and_ll (server : Server) (x : Features) (y : list Z)
    (n_points : Z) : result (option Q * LogLik * option (posneg Score)) :=
  pred_probs ← model_predict_mean server x;
  acc ← accuracy pred_probs y;
  loglik ← bernoulli_loglik pred_probs y;
  let posneg := posneg_or_none y pred_probs n_points in
  Ok (acc, loglik, posneg).

End AccAndLl.

(** ** Rows and labels of the shards *)

(** The (row, label) pairs of a shard, and of a list of shards. *)
Definition shard_pairs {X} (d : shard X) : list (X * Z) :=
  zip (shard_x d) (shard_y d).

Definition all_pairs {X} (client_data : list (shard X)) : list (X * Z) :=
  concat (map shard_pairs client_data).

(** ** [standard_client_split]: the balanced split of MNIST *)

(** [len(range(start, stop, step))] for [step >= 1]. *)
Definition range_len (start stop step : nat) : nat :=
  ((stop - start + step - 1) / step)%nat.

(** [a[start::step]] for [start >= 0] and [step >= 1]: the entries at
    [start], [start + step], ... below [len(a)]. *)
Definition strided {A} (start step : nat) (a : list A) : list A :=
  omap (fun t => a !! (start + t * step)%nat)
       (seq 0 (range_len start (length a) step)).

Section MnistBalancedSplit.
Variable X : Type.
Variable rng : Type.
Variable np_random_permutation : nat -> rng -> list nat * rng.

(** The loop of lines 266-269 over the client numbers still to come;
    [N] is the array [np.zeros(num_clients)] written at [i_client]. *)
Fixpoint balanced_loop (i_clients : list nat) (perm : list nat)
    (x : list X) (y : list Z) (num_clients : nat)
    (client_data : list (shard X)) (N : list nat)
    : result (list (shard X) * list nat) :=
  match i_clients with
  | [] => Ok (client_data, N)
  | i_client :: rest =>
      let client_idx := strided i_client num_clients perm in
      client_x ← int_index x client_idx;
      client_y ← int_index y client_idx;
      let client_data := client_data ++ [mkShard client_x client_y] in
      if (i_client <? length N)%nat
      then balanced_loop rest perm x y num_clients client_data
             (<[i_client := length client_y]> N)
      else Raise IndexError
  end.

(** Lines 260-269 for the training set [(x, y)]: [np.zeros] refuses a
    negative [num_clients], then one permutation of the row numbers is
    drawn and dealt out in turn. *)
Definition mnist_balanced_split (x : list X) (y : list Z) (num_clients : Z)
    (g : rng) : result (list (shard X) * list nat) * rng :=
  if num_clients <? 0
  then (Raise (ValueError "negative dimensions are not allowed"), g)
  else
    let N := replicate (Z.to_nat num_clients) 0%nat in
    let '(perm, g) := np_random_permutation (length y) g in
    (balanced_loop (seq 0 (Z.to_nat num_clients)) perm x y
       (Z.to_nat num_clients) [] N, g).
End MnistBalancedSplit.

(** ** [main]: learning-rate schedule and server *)

(** The two [logger.debug] calls of lines 133 and 137. *)
Inductive lr_log : Type :=
| UsingMilestones (milestones : list Z)
| DisablingScheduler.

(** [main], lines 127-138.  The result is [args.use_lr_scheduler] as
    left behind, [lr_scheduler_params['milestones']] ([None] for the
    empty dict) and the calls of [logger.debug] made; the logger is set
    to level INFO at line 38, so none of them is printed. *)
Definition lr_scheduler_setup (use_lr_scheduler : bool) (n_global_updates : Z)
    : bool * option (list Z) * list lr_log :=
  if use_lr_scheduler && (5 <? n_global_updates) then
    let milestones := [n_global_updates / 2; n_global_updates - 2] in
    (use_lr_scheduler, Some milestones, [UsingMilestones milestones])
  else
    let use_lr_scheduler := false in
    let log := if use_lr_scheduler then [DisablingScheduler] else [] in
    (use_lr_scheduler, None, log).

Inductive server_class : Type :=
| BayesianCommitteeMachineSame
| BayesianCommitteeMachineSplit
| GlobalVIServer
| SynchronousServer
| SequentialServer.

(** [main], lines 200-231: the class bound to [ChosenServer], with
    [server_config['max_iterations']] and [args.clients] as they stand
    when the server is built at line 233.  With no branch taken
    [ChosenServer] is unbound there. *)
Definition choose_server (lr_model server : string)
    (n_global_updates clients : Z) : result (server_class * Z * Z) :=
  let max_iterations := n_global_updates in
  if str_in lr_model ["bcm_same"; "bcm_split"] then
    let max_iterations := 1 in
    if String.eqb lr_model "bcm_same"
    then Ok (BayesianCommitteeMachineSame, max_iterations, clients)
    else Ok (BayesianCommitteeMachineSplit, max_iterations, clients)
  else if String.eqb lr_model "global_vi" then
    Ok (GlobalVIServer, max_iterations, 1)
  else if String.eqb lr_model "pvi" then
    if String.eqb server "synchronous"
    then Ok (SynchronousServer, max_iterations, clients)
    else if String.eqb server "sequential"
    then Ok (SequentialServer, max_iterations, clients)
    else Raise (ValueError ("Unknown server type: " +:+ server))
  else Raise (UnboundLocalError "ChosenServer").

(** The argument checks of [main] followed by the choice of the
    server.  The steps in between (loading the data, building the
    clients) write neither [args.model] nor [args.server] and are left
    out. *)
Definition main_server (args : Args) (server : string)
    (n_global_updates clients : Z) : result (server_class * Z * Z) :=
  _ ← main_arg_checks args;
  choose_server (model args) server n_global_updates clients.

(** * The partitioner in IEEE doubles

    Python's [float] and NumPy's [float64] are IEEE binary64 numbers:
    Rocq's primitive floats, whose operations round to nearest, ties to
    even.  The sizes and checks of lines 471-489 are computed here as
    the code computes them; the two factors are Python floats. *)
Module Float64.

(** The double nearest to the integer [n * 2 ^ e]. *)
Definition nearest (n e : Z) : float :=
  SF2Prim (binary_normalize prec emax n e false).

(** [float(n)] for a count or a length, which is far below the range of
    doubles. *)
Definition of_Z (n : Z) : float := nearest n 0.

(** [float(n)] for any Python int. *)
Definition of_int (n : Z) : result float :=
  if PrimFloat.is_infinity (nearest n 0)
  then Raise (OverflowError "int too large to convert to float")
  else Ok (nearest n 0).

(** [n / 2] for a Python int [n]: true division rounds the exact
    quotient. *)
Definition half_of_int (n : Z) : result float :=
  if PrimFloat.is_infinity (nearest n (-1))
  then Raise (OverflowError "integer division result too large for a float")
  else Ok (nearest n (-1)).

(** [int(np.floor(v))]. *)
Definition int_floor (v : float) : result Z :=
  match Prim2SF v with
  | S754_zero _ => Ok 0
  | S754_finite s m e => Ok (Z.shiftl (if s then Z.neg m else Z.pos m) e)
  | S754_infinity _ =>
      Raise (OverflowError "cannot convert float infinity to integer")
  | S754_nan => Raise (ValueError "cannot convert float NaN to integer")
  end.

(** [np.mean] of a boolean array: the number of [True], summed exactly,
    over the length; [nan] for an empty array. *)
Definition np_mean (mask : list bool) : float :=
  (of_Z (np_sum mask) / of_Z (Z.of_nat (length mask)))%float.

(** Lines 472-473, [int(np.floor(factor * N/M))] for [M <> 0]. *)
Definition client_size (factor : float) (N : nat) (M : Z) : result Z :=
  m ← of_int M;
  int_floor (factor * of_Z (Z.of_nat N) / m)%float.

Definition small_client_size (N : nat) (M : Z) (client_size_factor : float)
    : result Z :=
  client_size (1 - client_size_factor)%float N M.

Definition big_client_size (N : nat) (M : Z) (client_size_factor : float)
    : result Z :=
  client_size (1 + client_size_factor)%float N M.

(** Line 475. *)
Definition class_balance (y : list Z) : float := np_mean (is_zero y).

(** Line 477. *)
Definition small_client_class_balance (class_balance class_balance_factor : float)
    : float :=
  (class_balance + (1 - class_balance) * class_balance_factor)%float.

(** Line 478. *)
Definition small_client_negative_class_size (small_client_size : Z)
    (class_balance class_balance_factor : float) : result Z :=
  int_floor (of_Z small_client_size
             * small_client_class_balance class_balance class_balance_factor)%float.

(** Line 479. *)
Definition small_client_positive_class_size
    (small_client_size small_client_negative_class_size : Z) : Z :=
  small_client_size - small_client_negative_class_size.

Section GenerateClientsData.
Variable X : Type.
Variable rng : Type.
Variable np_random_seed : Z -> rng.
Variable np_random_permutation : nat -> rng -> list nat * rng.

(** Lines 492-546: the rows are split by class, dealt to the small
    clients, and the rest is shuffled and dealt to the large ones. *)
Definition deal (x : list X) (y : list Z) (M : Z)
    (small_client_positive_class_size small_client_negative_class_size
       big_client_size : Z) (g : rng)
    : result (list (shard X)) * rng :=
  let pos_inds := np_where (is_pos y) in
  let zero_inds := np_where (is_zero y) in
  if negb (Nat.eqb (length pos_inds + length zero_inds) (length y))
  then (Raise (AssertionError "Some indeces missed."), g)
  else
  match int_index y pos_inds, int_index y zero_inds,
        int_index x pos_inds, int_index x zero_inds with
  | Ok y_pos, Ok y_neg, Ok x_pos, Ok x_neg =>
      match populate_small X rng np_random_permutation (Z.to_nat (M ÷ 2))
              small_client_positive_class_size
              small_client_negative_class_size x_pos y_pos x_neg y_neg [] g
      with
      | (Raise e, g) => (Raise e, g)
      | (Ok (client_data, (x_pos, y_pos, x_neg, y_neg)), g) =>
          let x := x_pos ++ x_neg in
          let y := y_pos ++ y_neg in
          let '(shuffle_inds, g) := np_random_permutation (length x) g in
          match int_index x shuffle_inds, int_index y shuffle_inds with
          | Ok x, Ok y =>
              (Ok (distribute_big X (Z.to_nat (M ÷ 2)) big_client_size x y
                     client_data), g)
          | _, _ => (Raise IndexError, g)
          end
      end
  | _, _, _, _ => (Raise IndexError, g)
  end.

(** The returned tuple [(client_data, N_is, props_positive, M)]. *)
Definition clients_data : Type :=
  list (shard X) * list nat * list float * Z.

(** Lines 471-489: the sizes, or the error that refuses the settings. *)
Definition sizes (N : nat) (y : list Z) (M : Z)
    (client_size_factor class_balance_factor : float)
    : result (Z * Z * Z) :=
  if M =? 0 then Raise ZeroDivisionError else
  small_client_size ← small_client_size N M client_size_factor;
  big_client_size ← big_client_size N M client_size_factor;
  let class_balance := class_balance y in
  small_client_negative_class_size ←
    small_client_negative_class_size small_client_size class_balance
      class_balance_factor;
  let small_client_positive_class_size :=
    small_client_positive_class_size small_client_size
      small_client_negative_class_size in
  if small_client_negative_class_size <? 0
  then Raise (ValueError
          "small_client_negative_class_size is negative, invalid settings.")
  else if small_client_positive_class_size <? 0
  then Raise (ValueError
          "small_client_positive_class_size is negative, invalid settings.")
  else
  needed ← half_of_int (small_client_negative_class_size * M);
  if (class_balance * of_Z (Z.of_nat N) <? needed)%float
  then Raise (ValueError
          "Not enough negative class instances to fill the small clients.")
  else
  needed ← half_of_int (small_client_positive_class_size * M);
  if ((1 - class_balance) * of_Z (Z.of_nat N) <? needed)%float
  then Raise (ValueError
          "Not enough positive class instances to fill the small clients.")
  else Ok (small_client_positive_class_size, small_client_negative_class_size,
           big_client_size).

(** The function from line 469 on, started in random state [g]. *)
Definition partition_even (x : list X) (y : list Z) (M : Z)
    (client_size_factor class_balance_factor : float) (g : rng)
    : result clients_data * rng :=
  if negb (M mod 2 =? 0)
  then (Raise (ValueError "Num clients should be even for nice maths"), g)
  else
  match sizes (length x) y M client_size_factor class_balance_factor with
  | Raise e => (Raise e, g)
  | Ok (small_client_positive_class_size, small_client_negative_class_size,
        big_client_size) =>
      match deal x y M small_client_positive_class_size
              small_client_negative_class_size big_client_size g with
      | (Raise e, g) => (Raise e, g)
      | (Ok client_data, g) =>
          let N_is := map (fun data => length (shard_x data)) client_data in
          let props_positive :=
            map (fun data => np_mean (is_pos (shard_y data))) client_data in
          (Ok (client_data, N_is, props_positive, M), g)
      end
  end.

(** [generate_clients_data], called in global random state [g]; the
    second component is the global random state it leaves behind. *)
Definition generate_clients_data (x : list X) (y : list Z) (M : Z)
    (client_size_factor class_balance_factor : float)
    (dataset_seed : option Z) (g : rng) : result clients_data * rng :=
  let random_state := g in
  let g := match dataset_seed with
           | Some s => np_random_seed s
           | None => g
           end in
  if M =? 1 then
    (Ok ([mkShard x y], [length x], [np_mean (is_pos y)], M), g)
  else
    match partition_even x y M client_size_factor class_balance_factor g with
    | (Raise e, g) => (Raise e, g)
    | (Ok r, g) =>
        (Ok r, match dataset_seed with
               | Some _ => random_state
               | None => g
               end)
    end.
End GenerateClientsData.

(** [np.linspace(0, 1, num)] for [num >= 0]: entry [i] is
    [i * step + start] with [step = 1 / (num - 1)], and the last entry is
    set to [stop = 1]; a single entry is [0 * 1 + 0]. *)
Definition np_linspace01 (num : Z) : list float :=
  let div := num - 1 in
  let step := (1 / of_Z div)%float in
  map (fun i : nat =>
         if (0 <? div) && (Z.of_nat i =? div) then 1%float
         else if 0 <? div then (of_Z (Z.of_nat i) * step + 0)%float
         else (of_Z (Z.of_nat i) * 1 + 0)%float)
      (seq 0 (Z.to_nat num)).
End Float64.

(** * Properties *)

(** ** The setup path: [main]'s checks and [set_up_clients] *)

Lemma str_in_In (s : string) (l : list string) : str_in s l = true <-> In s l.
Proof.
  unfold str_in. rewrite existsb_exists. split.
  - intros [t [Hin Heq]]. apply String.eqb_eq in Heq. now subst.
  - intros Hin. exists s. split; [assumption | apply String.eqb_refl].
Qed.

Section SetupProperties.
Variables Model Shard Data NatParams Factor Config : Type.
Variable to_tensors : Shard -> Data.
Variable MeanFieldGaussianFactor : NatParams -> Factor.
Variables (lr_model : Model) (init_nat_params : NatParams) (config : Config).

Local Abbreviation new_client cls :=
  (fun d : Shard =>
     mkClient cls (to_tensors d) lr_model
       (MeanFieldGaussianFactor init_nat_params) config).

Local Abbreviation make :=
  (make_client Model Shard Data NatParams Factor Config to_tensors
     MeanFieldGaussianFactor lr_model init_nat_params config).

Local Abbreviation set_up :=
  (set_up_clients Model Shard Data NatParams Factor Config to_tensors
     MeanFieldGaussianFactor).

Local Abbreviation setup args client_data :=
  (main_setup Model Shard Data NatParams Factor Config to_tensors
     MeanFieldGaussianFactor args lr_model client_data init_nat_params
     config).

(** When every shard yields a client, the clients come back in order. *)
Lemma set_up_clients_from_ok dpm bs q cls (client_data : list Shard) :
  (forall d, make dpm bs q d = Ok (new_client cls d)) ->
  forall clients,
    set_up_clients_from Model Shard Data NatParams Factor Config to_tensors
      MeanFieldGaussianFactor clients lr_model client_data init_nat_params
      config dpm bs q
    = Ok (clients ++ map (new_client cls) client_data).
Proof.
  intros Hmake. induction client_data as [|d rest IH]; intros clients; simpl.
  - now rewrite app_nil_r.
  - rewrite Hmake. simpl. rewrite IH, <- app_assoc. reflexivity.
Qed.

Lemma set_up_clients_ok dpm bs q cls (client_data : list Shard) :
  (forall d, make dpm bs q d = Ok (new_client cls d)) ->
  set_up lr_model client_data init_nat_params config dpm bs q
  = Ok (map (new_client cls) client_data).
Proof.
  intros Hmake. unfold set_up_clients.
  now rewrite (set_up_clients_from_ok dpm bs q cls client_data Hmake []).
Qed.

(** When the first shard raises, no client is returned. *)
Lemma set_up_clients_raise dpm bs q e d (rest : list Shard) :
  make dpm bs q d = Raise e ->
  set_up lr_model (d :: rest) init_nat_params config dpm bs q = Raise e.
Proof.
  intros Hmake. unfold set_up_clients. simpl. now rewrite Hmake.
Qed.

(** With both [batch_size] and [sampling_frac_q] set, each of the five
    DP modes raises on the setup path once there is a client to build. *)
Lemma main_setup_both_set_raises dpm m b q d (rest : list Shard) :
  In dpm ["dpsgd"; "param"; "param_fixed"; "lfa"; "local_pvi"] ->
  is_raise (setup (mkArgs dpm m (Some b) (Some q)) (d :: rest)) = true.
Proof.
  intros Hin. unfold main_setup, main_arg_checks.
  simpl dp_mode. simpl model. simpl batch_size. simpl sampling_frac_q.
  simpl in Hin.
  destruct Hin as [<-|[<-|[<-|[<-|[<-|[]]]]]];
    destruct (str_in m _); try reflexivity.
Qed.

(** With neither set, [dpsgd] and [param_fixed] are refused by [main]. *)
Lemma main_setup_neither_set_raises dpm m (client_data : list Shard) :
  In dpm ["dpsgd"; "param_fixed"] ->
  is_raise (setup (mkArgs dpm m None None) client_data) = true.
Proof.
  intros Hin. unfold main_setup, main_arg_checks.
  simpl dp_mode. simpl model. simpl batch_size. simpl sampling_frac_q.
  simpl in Hin.
  destruct Hin as [<-|[<-|[]]]; destruct (str_in m _); reflexivity.
Qed.

(** With exactly one of the two set, the modes that [set_up_clients]
    knows are set up without an error. *)
Lemma main_setup_one_set_ok dpm m bs q (client_data : list Shard) :
  In dpm ["dpsgd"; "param"; "lfa"; "local_pvi"] ->
  In m ["pvi"; "bcm_split"; "bcm_same"; "global_vi"] ->
  is_set bs = negb (is_set q) ->
  is_raise (setup (mkArgs dpm m bs q) client_data) = false.
Proof.
  intros Hin Hm Hone. unfold main_setup.
  apply str_in_In in Hm.
  assert (Hargs : is_raise (main_arg_checks (mkArgs dpm m bs q)) = false).
  { unfold main_arg_checks. simpl dp_mode. simpl model.
    simpl batch_size. simpl sampling_frac_q. rewrite Hm. simpl in Hin.
    destruct Hin as [<-|[<-|[<-|[<-|[]]]]]; destruct bs, q; simpl in *;
      try discriminate; reflexivity. }
  destruct (main_arg_checks (mkArgs dpm m bs q)) as [i|e]; [|discriminate].
  simpl. simpl in Hin.
  destruct Hin as [<-|[<-|[<-|[<-|[]]]]].
  - rewrite (set_up_clients_ok "dpsgd" bs q DPSGD_Client); [reflexivity|].
    intros d. unfold make_client. simpl.
    destruct bs, q; simpl in *; try discriminate; reflexivity.
  - now rewrite (set_up_clients_ok "param" bs q Param_DP_Client).
  - now rewrite (set_up_clients_ok "lfa" bs q LFA_Client).
  - now rewrite (set_up_clients_ok "local_pvi" bs q Local_PVI_Client).
Qed.

(** C1.  The claim asks for a configuration error whenever neither
    [batch_size] nor [sampling_frac_q] is set in a DP mode.  For [lfa],
    [local_pvi] and [param] the setup path raises nothing in that case:
    the check in [main] only refuses both being set, although its
    message reads "Exactly one ... needs to be None", and
    [set_up_clients] builds every client. *)
Theorem main_setup_neither_set_accepted (client_data : list Shard) :
  main_setup Model Shard Data NatParams Factor Config to_tensors
    MeanFieldGaussianFactor (mkArgs "lfa" "pvi" None None) lr_model
    client_data init_nat_params config
  = Ok (map (new_client LFA_Client) client_data)
  /\ main_setup Model Shard Data NatParams Factor Config to_tensors
       MeanFieldGaussianFactor (mkArgs "local_pvi" "pvi" None None) lr_model
       client_data init_nat_params config
     = Ok (map (new_client Local_PVI_Client) client_data)
  /\ main_setup Model Shard Data NatParams Factor Config to_tensors
       MeanFieldGaussianFactor (mkArgs "param" "pvi" None None) lr_model
       client_data init_nat_params config
     = Ok (map (new_client Param_DP_Client) client_data).
Proof.
  unfold main_setup. simpl. repeat split.
  - now apply set_up_clients_ok.
  - now apply set_up_clients_ok.
  - now apply set_up_clients_ok.
Qed.

(** A [dp_mode] outside the seven documented ones is refused by the
    checks of [main], whatever the other arguments are. *)
Lemma main_arg_checks_unknown_dp_mode dpm m bs q :
  ~ In dpm dp_modes ->
  is_raise (main_arg_checks (mkArgs dpm m bs q)) = true.
Proof.
  intros Hout. unfold main_arg_checks. simpl dp_mode. simpl model.
  destruct (str_in dpm ["nondp_batches"; "nondp_epochs"; "dpsgd"; "param";
                        "param_fixed"; "server"; "lfa"; "local_pvi"])
    eqn:Hknown; [|reflexivity].
  apply str_in_In in Hknown. simpl in Hknown, Hout.
  assert (dpm = "server") as -> by intuition congruence.
  destruct (str_in m _); reflexivity.
Qed.

(** For each of the seven documented modes the checks of [main] do not
    report the mode as unknown. *)
Lemma main_arg_checks_known_dp_mode dpm m bs q :
  In dpm dp_modes ->
  main_arg_checks (mkArgs dpm m bs q)
    <> Raise (ValueError ("Unknown dp_mode: " +:+ dpm)).
Proof.
  intros Hin. simpl in Hin.
  unfold main_arg_checks.
  simpl dp_mode. simpl model. simpl batch_size. simpl sampling_frac_q.
  destruct Hin as [<-|[<-|[<-|[<-|[<-|[<-|[<-|[]]]]]]]];
    destruct (str_in m _); destruct bs, q; simpl; try discriminate;
    intros Heq; injection Heq as Heq; discriminate.
Qed.

(** C6.  The claim lists [param_fixed] among the accepted modes, as the
    help text of [--dp_mode] and the checks of [main] do.  The checks
    pass, but [set_up_clients] has no branch for [param_fixed] and
    raises for the first client, so the run is refused. *)
Theorem main_setup_param_fixed_refused b d (rest : list Shard) :
  main_arg_checks (mkArgs "param_fixed" "pvi" (Some b) None)
    = Ok (Some SWORBatchSize)
  /\ main_setup Model Shard Data NatParams Factor Config to_tensors
       MeanFieldGaussianFactor (mkArgs "param_fixed" "pvi" (Some b) None)
       lr_model (d :: rest) init_nat_params config
     = Raise (ValueError "Unknown dp_mode: param_fixed!").
Proof.
  split; [reflexivity|].
  unfold main_setup. simpl.
  now apply set_up_clients_raise.
Qed.

End SetupProperties.

(** ** [bin_search_sigma] *)

Section BinSearchProperties.
Variable F : Type.
Variables fadd fsub : F -> F -> F.
Variable fdiv2 : F -> F.
Variable fabs : F -> F.
Variables fleb fltb fgeb : F -> F -> bool.
Variable get_epsilon_S : F -> F -> F -> Z -> Z -> F -> F.
Variables (target_eps : F) (ncomp : Z) (target_delta q : F) (nx : Z) (L tol : F).

Local Abbreviation loop iters lbound ubound last :=
  (bin_search_loop F fadd fsub fdiv2 fabs fleb fltb get_epsilon_S iters
     target_eps ncomp target_delta q nx L lbound ubound tol last).

Local Abbreviation search lbound ubound max_iters :=
  (bin_search_sigma F fadd fsub fdiv2 fabs fleb fltb get_epsilon_S
     target_eps ncomp target_delta q nx L lbound ubound tol max_iters).

Local Abbreviation midpoints iters lbound ubound :=
  (candidates F fadd fdiv2 fltb get_epsilon_S iters target_eps ncomp
     target_delta q nx L lbound ubound).

Local Abbreviation accepted sigma :=
  (within_tol F fsub fabs fleb get_epsilon_S target_eps ncomp target_delta q
     nx L tol sigma).

(** A returned sigma passed the tolerance test, from any loop state. *)
Lemma bin_search_loop_returns_accepted iters :
  forall lbound ubound last sigma log,
    loop iters lbound ubound last = Ok (Some sigma, log) ->
    accepted sigma = true.
Proof.
  induction iters as [|iters IH]; intros lbound ubound last sigma log Hret.
  - simpl in Hret. destruct last as [[cur eps]|]; discriminate.
  - simpl in Hret. unfold loop_body in Hret.
    destruct (fleb _ tol) eqn:Htol.
    + injection Hret as <- _. exact Htol.
    + destruct (fltb _ target_eps); eapply IH; exact Hret.
Qed.

(** When no visited midpoint passes the test, the loop runs out: it
    logs the last midpoint and returns [None]. *)
Lemma bin_search_loop_exhausted iters :
  forall lbound ubound cur eps,
    (forall sigma, In sigma (midpoints iters lbound ubound) ->
                   accepted sigma = false) ->
    exists cur' eps',
      loop iters lbound ubound (Some (cur, eps))
      = Ok (None, [DidNotConverge cur' eps']).
Proof.
  induction iters as [|iters IH]; intros lbound ubound cur eps Hfail.
  - exists cur, eps. reflexivity.
  - simpl. unfold loop_body.
    assert (Hcur : accepted (fdiv2 (fadd ubound lbound)) = false)
      by (apply Hfail; left; reflexivity).
    unfold within_tol in Hcur. rewrite Hcur.
    destruct (fltb _ target_eps) eqn:Hlt; apply IH; intros sigma Hin;
      apply Hfail; right; simpl; rewrite Hlt; exact Hin.
Qed.

(** C2.  The report of non-convergence fails for [max_iters <= 0]: the
    loop makes no pass, [cur] and [eps] are never bound, and formatting
    the "Did not converge!" line raises [UnboundLocalError] where the
    function is to log that line and return [None].  For
    [max_iters >= 1] it does what it attempts: when the tolerance test
    fails at every midpoint visited it logs the line and returns
    [None], and a sigma it returns has passed the tolerance test. *)
Theorem bin_search_sigma_no_sigma_without_convergence
    (lbound ubound : F) (max_iters : Z) :
  ((forall sigma,
       In sigma (candidates F fadd fdiv2 fltb get_epsilon_S
                   (Z.to_nat max_iters) target_eps ncomp target_delta q nx L
                   lbound ubound) ->
       within_tol F fsub fabs fleb get_epsilon_S target_eps ncomp
         target_delta q nx L tol sigma = false) ->
   (0 < max_iters ->
      exists cur eps,
        bin_search_sigma F fadd fsub fdiv2 fabs fleb fltb get_epsilon_S
          target_eps ncomp target_delta q nx L lbound ubound tol max_iters
        = Ok (None, [DidNotConverge cur eps]))
   /\ (max_iters <= 0 ->
         bin_search_sigma F fadd fsub fdiv2 fabs fleb fltb get_epsilon_S
           target_eps ncomp target_delta q nx L lbound ubound tol max_iters
         = Raise (UnboundLocalError "cur")))
  /\ (forall sigma log,
        bin_search_sigma F fadd fsub fdiv2 fabs fleb fltb get_epsilon_S
          target_eps ncomp target_delta q nx L lbound ubound tol max_iters
        = Ok (Some sigma, log) ->
        within_tol F fsub fabs fleb get_epsilon_S target_eps ncomp
          target_delta q nx L tol sigma = true).
Proof.
  split.
  - intros Hfail. split.
    + intros Hpos. unfold bin_search_sigma.
      destruct (Z.to_nat max_iters) as [|iters] eqn:Hn; [lia|].
      simpl. unfold loop_body.
      assert (Hcur : accepted (fdiv2 (fadd ubound lbound)) = false)
        by (apply Hfail; left; reflexivity).
      unfold within_tol in Hcur. rewrite Hcur.
      destruct (fltb _ target_eps) eqn:Hlt;
        apply bin_search_loop_exhausted; intros sigma Hin; apply Hfail;
        right; simpl; rewrite Hlt; exact Hin.
    + intros Hle. unfold bin_search_sigma.
      replace (Z.to_nat max_iters) with O by lia. reflexivity.
  - intros sigma log Hret.
    exact (bin_search_loop_returns_accepted _ _ _ _ _ _ Hret).
Qed.

Hypothesis fadd_comm : forall a b, fadd a b = fadd b a.
Hypothesis fgeb_not_fltb : forall a b, fgeb a b = true -> fltb a b = false.

(** C3.  One pass of the loop from bounds [lbound], [ubound]: the
    candidate is the midpoint, [eps] the accountant's value there; the
    pass returns the candidate when it is within tolerance, and else
    goes on with the upper bound moved to it when [eps < target_eps] and
    with the lower bound moved to it when [eps >= target_eps]. *)
Theorem bin_search_loop_iteration (iters : nat) (lbound ubound : F)
    (last : option (F * F)) :
  let cur := fdiv2 (fadd lbound ubound) in
  let eps := get_epsilon_S target_delta cur q ncomp nx L in
  (fleb (fabs (fsub eps target_eps)) tol = true ->
     bin_search_loop F fadd fsub fdiv2 fabs fleb fltb get_epsilon_S (S iters)
       target_eps ncomp target_delta q nx L lbound ubound tol last
     = Ok (Some cur, []))
  /\ (fleb (fabs (fsub eps target_eps)) tol = false ->
      fltb eps target_eps = true ->
      bin_search_loop F fadd fsub fdiv2 fabs fleb fltb get_epsilon_S (S iters)
        target_eps ncomp target_delta q nx L lbound ubound tol last
      = bin_search_loop F fadd fsub fdiv2 fabs fleb fltb get_epsilon_S iters
          target_eps ncomp target_delta q nx L lbound cur tol
          (Some (cur, eps)))
  /\ (fleb (fabs (fsub eps target_eps)) tol = false ->
      fgeb eps target_eps = true ->
      bin_search_loop F fadd fsub fdiv2 fabs fleb fltb get_epsilon_S (S iters)
        target_eps ncomp target_delta q nx L lbound ubound tol last
      = bin_search_loop F fadd fsub fdiv2 fabs fleb fltb get_epsilon_S iters
          target_eps ncomp target_delta q nx L cur ubound tol
          (Some (cur, eps))).
Proof.
  intros cur eps. simpl. unfold loop_body.
  rewrite (fadd_comm ubound lbound). fold cur. fold eps.
  repeat split.
  - intros ->. reflexivity.
  - intros -> ->. reflexivity.
  - intros -> Hge. rewrite (fgeb_not_fltb _ _ Hge). reflexivity.
Qed.

End BinSearchProperties.

(** The rational instance satisfies the two laws used above. *)
Lemma Qplus_comm_eq (a b : Q) : Qplus a b = Qplus b a.
Proof.
  destruct a as [an ad], b as [bn bd]. unfold Qplus. simpl.
  f_equal; [ring | apply Pos.mul_comm].
Qed.

Lemma QFloat_fgeb_not_fltb (a b : Q) :
  QFloat.fgeb a b = true -> QFloat.fltb a b = false.
Proof. unfold QFloat.fgeb, QFloat.fltb. intros ->. reflexivity. Qed.

(** The search of the script's main block with the stand-in accountant,
    cut to three passes: no midpoint is within tolerance. *)
Lemma bin_search_sigma_no_sigma_without_convergence_witness :
  (0 < 3 ->
   exists cur eps,
     bin_search_sigma Q Qplus Qminus QFloat.fdiv2 Qabs QFloat.fleb QFloat.fltb
       QFloat.accountant 2%Q 20 (1 # 100000) (1 # 10) 1000000 35%Q
       (7 # 10) 300%Q (1 # 1000) 3
     = Ok (None, [DidNotConverge cur eps]))
  /\ (3 <= 0 ->
      bin_search_sigma Q Qplus Qminus QFloat.fdiv2 Qabs QFloat.fleb QFloat.fltb
        QFloat.accountant 2%Q 20 (1 # 100000) (1 # 10) 1000000 35%Q
        (7 # 10) 300%Q (1 # 1000) 3
      = Raise (UnboundLocalError "cur")).
Proof.
  apply (proj1 (bin_search_sigma_no_sigma_without_convergence Q Qplus Qminus
                  QFloat.fdiv2 Qabs QFloat.fleb QFloat.fltb QFloat.accountant
                  2%Q 20 (1 # 100000) (1 # 10) 1000000 35%Q (1 # 1000)
                  (7 # 10) 300%Q 3)).
  intros sigma Hin. vm_compute in Hin.
  destruct Hin as [<-|[<-|[<-|[]]]]; vm_compute; reflexivity.
Defined.

Lemma bin_search_loop_iteration_witness :
  let cur := QFloat.fdiv2 (Qplus (7 # 10) 300%Q) in
  let eps := QFloat.accountant (1 # 100000) cur (1 # 10) 20 1000000 35%Q in
  QFloat.fleb (Qabs (Qminus eps 2%Q)) (1 # 1000) = false /\
  QFloat.fltb eps 2%Q = true /\
  bin_search_loop Q Qplus Qminus QFloat.fdiv2 Qabs QFloat.fleb QFloat.fltb
    QFloat.accountant 3 2%Q 20 (1 # 100000) (1 # 10) 1000000 35%Q
    (7 # 10) 300%Q (1 # 1000) None
  = bin_search_loop Q Qplus Qminus QFloat.fdiv2 Qabs QFloat.fleb QFloat.fltb
      QFloat.accountant 2 2%Q 20 (1 # 100000) (1 # 10) 1000000 35%Q
      (7 # 10) cur (1 # 1000) (Some (cur, eps)).
Proof.
  intros cur eps.
  split; [vm_compute; reflexivity|]. split; [vm_compute; reflexivity|].
  apply (proj1 (proj2 (bin_search_loop_iteration Q Qplus Qminus QFloat.fdiv2
                         Qabs QFloat.fleb QFloat.fltb QFloat.fgeb
                         QFloat.accountant 2%Q 20 (1 # 100000) (1 # 10)
                         1000000 35%Q (1 # 1000) Qplus_comm_eq
                         QFloat_fgeb_not_fltb 2 (7 # 10) 300%Q None))).
  - vm_compute; reflexivity.
  - vm_compute; reflexivity.
Defined.

(** ** [get_posneg] *)

Lemma n_unique_binary (y : list Z) :
  (forall v, In v y -> v = 0 \/ v = 1) -> In 0 y -> In 1 y -> n_unique y = 2%nat.
Proof.
  intros Hbin H0 H1. unfold n_unique.
  assert (Hperm : remove_dups y ≡ₚ [0; 1]).
  { apply NoDup_Permutation.
    - apply NoDup_remove_dups.
    - apply NoDup_cons. split.
      + rewrite list_elem_of_In. simpl. lia.
      + apply NoDup_singleton.
    - intros v. rewrite elem_of_remove_dups, !list_elem_of_In. simpl. split.
      + intros Hv. destruct (Hbin v Hv) as [->| ->]; auto.
      + intros [<-|[<-|[]]]; assumption. }
  now rewrite Hperm.
Qed.

Lemma np_sum_nonneg l : 0 <= np_sum l.
Proof. induction l as [|[] l IH]; simpl; lia. Qed.

Lemma TP_FN_total (y : list Z) : forall (pred_probs : list Q) thr,
  length pred_probs = length y ->
  np_sum (eq_arrays (select (gt_thr pred_probs thr) (y_is 1 y)) (select y (y_is 1 y)))
  + np_sum (ne_arrays (select (le_thr pred_probs thr) (y_is 1 y))
              (map (fun v => 1 - v) (select y (y_is 1 y))))
  = np_sum (y_is 1 y).
Proof.
  induction y as [|v y IH]; intros [|p pred_probs] thr Hlen; try discriminate.
  - reflexivity.
  - simpl in Hlen. injection Hlen as Hlen. specialize (IH pred_probs thr Hlen).
    simpl. destruct (v =? 1) eqn:Hv.
    + apply Z.eqb_eq in Hv. subst v. simpl.
      unfold eq_arrays, ne_arrays in *. simpl.
      destruct (Qle_bool p thr); simpl; lia.
    + simpl. exact IH.
Qed.

Lemma FP_TN_total (y : list Z) : forall (pred_probs : list Q) thr,
  length pred_probs = length y ->
  np_sum (ne_arrays (select (gt_thr pred_probs thr) (y_is 0 y)) (select y (y_is 0 y)))
  + np_sum (eq_arrays (select (le_thr pred_probs thr) (y_is 0 y))
              (map (fun v => 1 - v) (select y (y_is 0 y))))
  = np_sum (y_is 0 y).
Proof.
  induction y as [|v y IH]; intros [|p pred_probs] thr Hlen; try discriminate.
  - reflexivity.
  - simpl in Hlen. injection Hlen as Hlen. specialize (IH pred_probs thr Hlen).
    simpl. destruct (v =? 0) eqn:Hv.
    + apply Z.eqb_eq in Hv. subst v. simpl.
      unfold eq_arrays, ne_arrays in *. simpl.
      destruct (Qle_bool p thr); simpl; lia.
    + simpl. exact IH.
Qed.

Lemma bool_index_same_length {A} (a : list A) (mask : list bool) :
  length a = length mask -> bool_index a mask = Ok (select a mask).
Proof. intros Hlen. unfold bool_index. now rewrite Hlen, Nat.eqb_refl. Qed.

Section GetPosnegProperties.
Variable Score : Type.
Variable average_precision_score : list Z -> list Q -> Score.
Variable balanced_accuracy_score : list Z -> list bool -> Score.
Variable f1_score : list Z -> list bool -> Score.
Variables (y : list Z) (pred_probs : list Q).
Hypothesis same_length : length pred_probs = length y.

(** The four counts at one threshold. *)
Lemma counts_at_threshold thr :
  exists tp fp tn fn,
    count_TP y pred_probs thr = Ok tp /\ count_FP y pred_probs thr = Ok fp /\
    count_TN y pred_probs thr = Ok tn /\ count_FN y pred_probs thr = Ok fn /\
    tp + fn = np_sum (y_is 1 y) /\ fp + tn = np_sum (y_is 0 y).
Proof.
  unfold count_TP, count_FP, count_TN, count_FN.
  rewrite !bool_index_same_length
    by (unfold gt_thr, le_thr, y_is; rewrite ?length_map; congruence).
  simpl. do 4 eexists. repeat split; try reflexivity.
  - apply TP_FN_total, same_length.
  - apply FP_TN_total, same_length.
Qed.

Lemma fill_counts_spec (tmp : list Q) :
  forall i_thr c,
    (forall j, (j < i_thr)%nat -> split_at y c j) ->
    exists c',
      fill_counts y pred_probs i_thr tmp c = Ok c' /\ same_lengths c c' /\
      forall j, (j < i_thr + length tmp)%nat -> split_at y c' j.
Proof.
  induction tmp as [|thr tmp IH]; intros i_thr c Hdone.
  - exists c. split; [reflexivity|]. split; [repeat split|].
    intros j Hj. apply Hdone. simpl in Hj. lia.
  - destruct (counts_at_threshold thr)
      as (tp & fp & tn & fn & Htp & Hfp & Htn & Hfn & Hpos & Hneg).
    simpl. rewrite Htp. simpl. rewrite Hfp. simpl. rewrite Htn. simpl.
    rewrite Hfn. simpl.
    edestruct (IH (S i_thr)) as (c' & Hrun & Hlen & Hsplit);
      [|exists c'; split; [exact Hrun|split]].
    + intros j Hj tp' fp' tn' fn'. simpl.
      destruct (decide (j = i_thr)) as [->|Hne].
      * intros H1 H2 H3 H4.
        apply list_lookup_insert_Some in H1, H2, H3, H4.
        destruct H1 as [(_ & <- & _)|(? & _)]; [|congruence].
        destruct H2 as [(_ & <- & _)|(? & _)]; [|congruence].
        destruct H3 as [(_ & <- & _)|(? & _)]; [|congruence].
        destruct H4 as [(_ & <- & _)|(? & _)]; [|congruence].
        split; assumption.
      * rewrite !list_lookup_insert_ne by congruence.
        apply Hdone. lia.
    + destruct Hlen as (H1 & H2 & H3 & H4). simpl in H1, H2, H3, H4.
      rewrite length_insert in H1, H2, H3, H4. repeat split; assumption.
    + intros j Hj. apply Hsplit. simpl in Hj. lia.
Qed.

Hypothesis binary : forall v, In v y -> v = 0 \/ v = 1.
Hypothesis has_zero : In 0 y.
Hypothesis has_one : In 1 y.

(** C10.  For labels that are exactly 0 and 1, predictions of the same
    length and [n_points > 1], [get_posneg] returns; its arrays TP, FP,
    TN and FN have [n_points] entries, and at every index TP + FN is the
    number of labels equal to 1 and FP + TN the number equal to 0. *)
Theorem get_posneg_class_totals (n_points : Z) :
  1 < n_points ->
  exists p,
    get_posneg Score average_precision_score balanced_accuracy_score
      f1_score y pred_probs n_points = Ok p
    /\ length (TP Score p) = Z.to_nat n_points
    /\ length (FP Score p) = Z.to_nat n_points
    /\ length (TN Score p) = Z.to_nat n_points
    /\ length (FN Score p) = Z.to_nat n_points
    /\ forall i, (i < Z.to_nat n_points)%nat ->
         exists tp fp tn fn,
           TP Score p !! i = Some tp /\ FP Score p !! i = Some fp /\
           TN Score p !! i = Some tn /\ FN Score p !! i = Some fn /\
           tp + fn = np_sum (y_is 1 y) /\ fp + tn = np_sum (y_is 0 y).
Proof.
  intros Hn. unfold get_posneg.
  rewrite (n_unique_binary y binary has_zero has_one). simpl.
  replace (n_points =? 1) with false by lia.
  unfold np_linspace01.
  replace (n_points <? 0) with false by lia.
  replace (n_points =? 1) with false by lia. simpl.
  set (tmp := map _ (seq 0 (Z.to_nat n_points))).
  set (zeros := mkCounts _ _ _ _).
  destruct (fill_counts_spec tmp 0%nat zeros) as (c & Hrun & Hlen & Hsplit);
    [intros j Hj; lia|].
  rewrite Hrun. simpl. eexists. split; [reflexivity|]. simpl.
  destruct Hlen as (H1 & H2 & H3 & H4). subst zeros. simpl in H1, H2, H3, H4.
  unfold np_zeros in H1, H2, H3, H4. rewrite length_replicate in H1, H2, H3, H4.
  repeat (split; [assumption|]).
  intros i Hi.
  destruct (lookup_lt_is_Some_2 (cTP c) i) as [tp Htp]; [lia|].
  destruct (lookup_lt_is_Some_2 (cFP c) i) as [fp Hfp]; [lia|].
  destruct (lookup_lt_is_Some_2 (cTN c) i) as [tn Htn]; [lia|].
  destruct (lookup_lt_is_Some_2 (cFN c) i) as [fn Hfn]; [lia|].
  exists tp, fp, tn, fn. repeat (split; [assumption|]).
  apply (Hsplit i); try assumption.
  subst tmp. rewrite length_map, length_seq. lia.
Qed.
End GetPosnegProperties.

Example get_posneg_three_thresholds :
  match get_posneg unit (fun _ _ => tt) (fun _ _ => tt) (fun _ _ => tt)
          [1; 0; 1; 0; 1] [9 # 10; 2 # 10; 4 # 10; 6 # 10; 1 # 2]%Q 3 with
  | Ok p => (TP _ p, FP _ p, TN _ p, FN _ p)
            = ([3; 1; 0], [2; 1; 0], [0; 1; 2], [0; 2; 3])
  | Raise _ => False
  end.
Proof. vm_compute. reflexivity. Qed.

Lemma get_posneg_class_totals_witness :
  exists p,
    get_posneg unit (fun _ _ => tt) (fun _ _ => tt) (fun _ _ => tt)
      [1; 0; 1; 0; 1] [9 # 10; 2 # 10; 4 # 10; 6 # 10; 1 # 2]%Q 3 = Ok p
    /\ length (TP unit p) = Z.to_nat 3
    /\ length (FP unit p) = Z.to_nat 3
    /\ length (TN unit p) = Z.to_nat 3
    /\ length (FN unit p) = Z.to_nat 3
    /\ forall i, (i < Z.to_nat 3)%nat ->
         exists tp fp tn fn,
           TP unit p !! i = Some tp /\ FP unit p !! i = Some fp /\
           TN unit p !! i = Some tn /\ FN unit p !! i = Some fn /\
           tp + fn = np_sum (y_is 1 [1; 0; 1; 0; 1]) /\
           fp + tn = np_sum (y_is 0 [1; 0; 1; 0; 1]).
Proof.
  apply (get_posneg_class_totals unit (fun _ _ => tt) (fun _ _ => tt)
           (fun _ _ => tt) [1; 0; 1; 0; 1]
           [9 # 10; 2 # 10; 4 # 10; 6 # 10; 1 # 2]%Q).
  - reflexivity.
  - intros v Hin. simpl in Hin. lia.
  - simpl. lia.
  - simpl. lia.
  - lia.
Defined.

(** ** [generate_clients_data] *)

(** *** Indexing *)

Lemma int_index_in_range {A} (a : list A) (inds : list nat) :
  Forall (fun i => (i < length a)%nat) inds ->
  int_index a inds = Ok (omap (fun i => a !! i) inds).
Proof.
  induction 1 as [|i inds Hi _ IH]; [reflexivity|].
  simpl. destruct (lookup_lt_is_Some_2 a i Hi) as [v Hv]. rewrite Hv, IH.
  reflexivity.
Qed.

Lemma omap_lookup_cons {A} (v : A) (a : list A) (l : list nat) :
  omap (fun i => (v :: a) !! i) (S <$> l) = omap (fun i => a !! i) l.
Proof.
  induction l as [|i l IH]; [reflexivity|].
  csimpl. rewrite IH. reflexivity.
Qed.

Lemma omap_lookup_seq {A} (a : list A) :
  omap (fun i => a !! i) (seq 0 (length a)) = a.
Proof.
  induction a as [|v a IH]; [reflexivity|].
  cbn [length seq]. rewrite <- fmap_S_seq. csimpl.
  rewrite omap_lookup_cons, IH. reflexivity.
Qed.

Lemma int_index_permutation {A} (a : list A) (inds : list nat) :
  inds ≡ₚ seq 0 (length a) ->
  exists a', int_index a inds = Ok a' /\ a' ≡ₚ a.
Proof.
  intros Hperm. exists (omap (fun i => a !! i) inds). split.
  - apply int_index_in_range. rewrite Hperm.
    apply Forall_forall. intros i Hi. apply elem_of_seq in Hi. lia.
  - rewrite Hperm. now rewrite omap_lookup_seq.
Qed.

Lemma int_index_where {A} (mask : list bool) :
  forall (pre a : list A),
    length a = length mask ->
    int_index (pre ++ a) (np_where_from (length pre) mask) = Ok (select a mask).
Proof.
  induction mask as [|b mask IH]; intros pre [|v a] Hlen; try discriminate.
  - reflexivity.
  - simpl in Hlen. injection Hlen as Hlen.
    specialize (IH (pre ++ [v]) a Hlen).
    rewrite <- app_assoc, length_app, Nat.add_1_r in IH. simpl in IH.
    simpl. destruct b; [|exact IH].
    simpl. rewrite lookup_app_r, Nat.sub_diag by lia. simpl.
    now rewrite IH.
Qed.

Lemma int_index_np_where {A} (a : list A) (mask : list bool) :
  length a = length mask -> int_index a (np_where mask) = Ok (select a mask).
Proof. intros Hlen. exact (int_index_where mask [] a Hlen). Qed.

Lemma length_np_where_from (mask : list bool) :
  forall i, Z.of_nat (length (np_where_from i mask)) = np_sum mask.
Proof.
  induction mask as [|[] mask IH]; intros i; simpl; [reflexivity| |apply IH].
  rewrite Nat2Z.inj_succ, IH. lia.
Qed.

Lemma length_select {A} (mask : list bool) :
  forall a : list A,
    length a = length mask -> Z.of_nat (length (select a mask)) = np_sum mask.
Proof.
  induction mask as [|b mask IH]; intros [|v a] Hlen; try discriminate.
  - reflexivity.
  - simpl in Hlen. injection Hlen as Hlen. specialize (IH a Hlen).
    destruct b; simpl; [rewrite Nat2Z.inj_succ|]; lia.
Qed.

Lemma select_is_pos (y : list Z) : Forall (fun v => 0 < v) (select y (is_pos y)).
Proof.
  induction y as [|v y IH]; simpl; [constructor|].
  destruct (0 <? v) eqn:Hv; [|exact IH].
  constructor; [lia|exact IH].
Qed.

Lemma select_is_zero (y : list Z) : Forall (fun v => v = 0) (select y (is_zero y)).
Proof.
  induction y as [|v y IH]; simpl; [constructor|].
  destruct (v =? 0) eqn:Hv; [|exact IH].
  constructor; [lia|exact IH].
Qed.

Lemma np_sum_app l k : np_sum (l ++ k) = np_sum l + np_sum k.
Proof. induction l as [|b l IH]; simpl; lia. Qed.

Lemma np_sum_permutation (l k : list bool) : l ≡ₚ k -> np_sum l = np_sum k.
Proof. induction 1; simpl; lia. Qed.

Lemma np_sum_is_pos_all (y : list Z) :
  Forall (fun v => 0 < v) y -> np_sum (is_pos y) = Z.of_nat (length y).
Proof.
  induction 1 as [|v y Hv _ IH]; [reflexivity|].
  simpl. replace (0 <? v) with true by lia. simpl Z.b2z. lia.
Qed.

Lemma np_sum_is_pos_none (y : list Z) :
  Forall (fun v => v = 0) y -> np_sum (is_pos y) = 0.
Proof.
  induction 1 as [|v y Hv _ IH]; [reflexivity|].
  simpl. subst v. simpl. exact IH.
Qed.

Lemma slice_to_nonneg {A} (k : Z) (a : list A) :
  0 <= k -> slice_to k a = take (Z.to_nat k) a.
Proof. intros Hk. unfold slice_to. now replace (0 <=? k) with true by lia. Qed.

Lemma slice_from_nonneg {A} (k : Z) (a : list A) :
  0 <= k -> slice_from k a = drop (Z.to_nat k) a.
Proof. intros Hk. unfold slice_from. now replace (0 <=? k) with true by lia. Qed.

Section PartitionLoops.
Variable X : Type.
Variable rng : Type.
Variable np_random_permutation : nat -> rng -> list nat * rng.
Hypothesis permutation_spec :
  forall n g, (np_random_permutation n g).1 ≡ₚ seq 0 n.

Lemma populate_small_spec (pos_size neg_size : Z) (n : nat) :
  0 <= pos_size -> 0 <= neg_size ->
  forall x_pos y_pos x_neg y_neg client_data g,
    length x_pos = length y_pos -> length x_neg = length y_neg ->
    Z.of_nat n * pos_size <= Z.of_nat (length y_pos) ->
    Z.of_nat n * neg_size <= Z.of_nat (length y_neg) ->
    Forall (fun v => 0 < v) y_pos -> Forall (fun v => v = 0) y_neg ->
    exists new x_pos' y_pos' x_neg' y_neg' g',
      populate_small X rng np_random_permutation n pos_size neg_size
        x_pos y_pos x_neg y_neg client_data g
      = (Ok (client_data ++ new, (x_pos', y_pos', x_neg', y_neg')), g')
      /\ length new = n
      /\ Forall (shard_of (pos_size + neg_size) pos_size) new
      /\ length x_pos' = length y_pos' /\ length x_neg' = length y_neg'
      /\ Z.of_nat (length y_pos')
         = Z.of_nat (length y_pos) - Z.of_nat n * pos_size
      /\ Z.of_nat (length y_neg')
         = Z.of_nat (length y_neg) - Z.of_nat n * neg_size.
Proof.
  intros Hpos Hneg. induction n as [|n IH];
    intros x_pos y_pos x_neg y_neg client_data g Hxp Hxn Hp Hn Hallp Halln.
  - exists [], x_pos, y_pos, x_neg, y_neg, g. simpl.
    rewrite app_nil_r. repeat split; try assumption; try lia. constructor.
  - cbn [populate_small].
    rewrite !slice_to_nonneg, !slice_from_nonneg by assumption.
    assert (Hpl : (Z.to_nat pos_size <= length y_pos)%nat) by nia.
    assert (Hml : (Z.to_nat neg_size <= length y_neg)%nat) by nia.
    assert (Hp' : Z.of_nat n * pos_size
                  <= Z.of_nat (length y_pos) - pos_size) by nia.
    assert (Hn' : Z.of_nat n * neg_size
                  <= Z.of_nat (length y_neg) - neg_size) by nia.
    set (p := Z.to_nat pos_size) in *. set (m := Z.to_nat neg_size) in *.
    assert (Hpz : Z.of_nat p = pos_size) by (subst p; lia).
    assert (Hmz : Z.of_nat m = neg_size) by (subst m; lia).
    pose proof (permutation_spec (length (take p x_pos ++ take m x_neg)) g)
      as Hperm.
    destruct (np_random_permutation (length (take p x_pos ++ take m x_neg)) g)
      as [shuffle_inds g1]. simpl in Hperm.
    destruct (int_index_permutation (take p x_pos ++ take m x_neg)
                shuffle_inds Hperm) as (cx & -> & Hcx).
    assert (Hperm' : shuffle_inds
                     ≡ₚ seq 0 (length (take p y_pos ++ take m y_neg))).
    { rewrite Hperm, !length_app, !length_take, Hxp, Hxn. reflexivity. }
    destruct (int_index_permutation (take p y_pos ++ take m y_neg)
                shuffle_inds Hperm') as (cy & -> & Hcy).
    destruct (IH (drop p x_pos) (drop p y_pos) (drop m x_neg) (drop m y_neg)
                (client_data ++ [mkShard cx cy]) g1)
      as (new & xp' & yp' & xn' & yn' & g' & Hrun & Hlen & Hall & H1 & H2
          & H3 & H4).
    + rewrite !length_drop. lia.
    + rewrite !length_drop. lia.
    + rewrite length_drop. lia.
    + rewrite length_drop. lia.
    + now apply Forall_drop.
    + now apply Forall_drop.
    + exists (mkShard cx cy :: new), xp', yp', xn', yn', g'.
      rewrite Hrun, <- app_assoc. simpl.
      rewrite length_drop in H3, H4.
      repeat split; try assumption; try lia.
      constructor; [|exact Hall].
      unfold shard_of, is_pos. simpl.
      rewrite (Permutation_length Hcx), (Permutation_length Hcy).
      rewrite (np_sum_permutation _ _ (Permutation_map (fun v => 0 <? v) Hcy)).
      rewrite !length_app, !length_take.
      repeat split; try lia.
      rewrite map_app, np_sum_app.
      fold (is_pos (take p y_pos)). fold (is_pos (take m y_neg)).
      rewrite np_sum_is_pos_all by now apply Forall_take.
      rewrite np_sum_is_pos_none by now apply Forall_take.
      rewrite length_take. lia.
Qed.

Lemma distribute_big_spec (big_size : Z) (n : nat) :
  0 <= big_size ->
  forall (x : list X) (y : list Z) client_data,
    length x = length y ->
    Z.of_nat n * big_size <= Z.of_nat (length y) ->
    exists new,
      distribute_big X n big_size x y client_data = client_data ++ new
      /\ length new = n
      /\ Forall (fun d => Z.of_nat (length (shard_x d)) = big_size
                          /\ Z.of_nat (length (shard_y d)) = big_size) new.
Proof.
  intros Hbig. induction n as [|n IH]; intros x y client_data Hxy Hlen.
  - exists []. simpl. rewrite app_nil_r. repeat split. constructor.
  - cbn [distribute_big].
    rewrite !slice_to_nonneg, !slice_from_nonneg by assumption.
    assert (Hb : (Z.to_nat big_size <= length y)%nat) by nia.
    assert (Hlen' : Z.of_nat n * big_size
                    <= Z.of_nat (length y) - big_size) by nia.
    set (b := Z.to_nat big_size) in *.
    assert (Hbz : Z.of_nat b = big_size) by (subst b; lia).
    destruct (IH (drop b x) (drop b y)
                (client_data ++ [mkShard (take b x) (take b y)]))
      as (new & Hrun & Hn & Hall).
    + rewrite !length_drop. lia.
    + rewrite length_drop. lia.
    + exists (mkShard (take b x) (take b y) :: new).
      rewrite Hrun, <- app_assoc. simpl. repeat split; [lia|].
      constructor; [|exact Hall]. simpl. rewrite !length_take. lia.
Qed.
End PartitionLoops.

(** *** The checks in integers *)

Lemma inject_Z_nonzero (n : Z) : n <> 0 -> ~ (inject_Z n == 0)%Q.
Proof. intros Hn Heq. unfold Qeq in Heq. simpl in Heq. lia. Qed.

(** The check of line 485 in integers: [cb = z / n], [N = n]. *)
Lemma enough_negative_iff (a M z n : Z) :
  0 < n ->
  Qle_bool (inject_Z a * inject_Z M / 2) (inject_Z z / inject_Z n * inject_Z n)
  = true <-> a * M <= 2 * z.
Proof.
  intros Hn. rewrite Qle_bool_iff.
  assert (E : (inject_Z z / inject_Z n * inject_Z n == inject_Z z)%Q)
    by (field; apply inject_Z_nonzero; lia).
  rewrite E, <- inject_Z_mult. unfold Qle, Qdiv, Qmult, Qinv, inject_Z. simpl.
  lia.
Qed.

(** The check of line 488 in integers. *)
Lemma enough_positive_iff (a M z n : Z) :
  0 < n ->
  Qle_bool (inject_Z a * inject_Z M / 2)
    ((1 - inject_Z z / inject_Z n) * inject_Z n)
  = true <-> a * M <= 2 * (n - z).
Proof.
  intros Hn. rewrite Qle_bool_iff.
  assert (E : ((1 - inject_Z z / inject_Z n) * inject_Z n
               == inject_Z (n - z))%Q).
  { unfold Z.sub. rewrite inject_Z_plus, inject_Z_opp.
    field. apply inject_Z_nonzero. lia. }
  rewrite E, <- inject_Z_mult. unfold Qle, Qdiv, Qmult, Qinv, inject_Z. simpl.
  lia.
Qed.




(** *** The even-client path *)

Lemma np_mean_Some (l : list bool) :
  l <> [] ->
  np_mean l = Some (inject_Z (np_sum l) / inject_Z (Z.of_nat (length l)))%Q.
Proof. destruct l; [congruence|reflexivity]. Qed.

Lemma np_mean_is_zero (y : list Z) :
  y <> [] ->
  np_mean (is_zero y)
  = Some (inject_Z (np_sum (is_zero y)) / inject_Z (Z.of_nat (length y)))%Q.
Proof.
  intros Hy. rewrite np_mean_Some by (destruct y; [congruence|discriminate]).
  unfold is_zero. now rewrite length_map.
Qed.

Section PartitionProperties.
Variable X : Type.
Variable rng : Type.
Variable np_random_seed : Z -> rng.
Variable np_random_permutation : nat -> rng -> list nat * rng.
Hypothesis permutation_spec :
  forall n g, (np_random_permutation n g).1 ≡ₚ seq 0 n.

Local Abbreviation partition :=
  (partition_even X rng np_random_permutation).

End PartitionProperties.

(** *** The random state of the examples draws index orders *)

Lemma TapeRandom_covers_permutation (n : nat) (p : list nat) :
  TapeRandom.covers n p = true -> p ≡ₚ seq 0 n.
Proof.
  unfold TapeRandom.covers. intros Hc.
  apply andb_true_iff in Hc as [Hlen Hall].
  apply Nat.eqb_eq in Hlen. symmetry.
  apply NoDup_Permutation_bis.
  - apply List.seq_NoDup.
  - rewrite length_seq. lia.
  - intros i Hi. rewrite forallb_forall in Hall.
    specialize (Hall i Hi). apply existsb_exists in Hall as [j [Hj Hij]].
    apply Nat.eqb_eq in Hij. now subst.
Qed.

Lemma TapeRandom_permutation_spec (n : nat) (g : TapeRandom.rng) :
  (TapeRandom.np_random_permutation n g).1 ≡ₚ seq 0 n.
Proof.
  destruct g as [|p g]; simpl; [reflexivity|].
  destruct (TapeRandom.covers n p) eqn:Hc; simpl; [|reflexivity].
  now apply TapeRandom_covers_permutation.
Qed.

Lemma shard_sizes_replicate {X} (size : Z) (l : list (shard X)) :
  Forall (fun d => Z.of_nat (length (shard_x d)) = size
                   /\ Z.of_nat (length (shard_y d)) = size) l ->
  map (fun d => length (shard_x d)) l = replicate (length l) (Z.to_nat size).
Proof.
  induction 1 as [|d l [Hd _] _ IH]; [reflexivity|].
  simpl. f_equal; [lia|exact IH].
Qed.

Section GenerateProperties.
Variable X : Type.
Variable rng : Type.
Variable np_random_seed : Z -> rng.
Variable np_random_permutation : nat -> rng -> list nat * rng.

Local Abbreviation generate :=
  (generate_clients_data X rng np_random_seed np_random_permutation).

(** The random state in which the body runs. *)
Local Abbreviation seeded dataset_seed g :=
  (match dataset_seed with
   | Some s => np_random_seed s
   | None => g
   end).

(** C5, amended.  For an odd [M] other than 1 the call raises before
    any shard is built; for [M = 1] it returns the whole dataset as the
    one shard. *)
Theorem generate_clients_data_odd_clients (x : list X) (y : list Z) (M : Z)
    (client_size_factor class_balance_factor : Q) (dataset_seed : option Z)
    (g : rng) :
  M mod 2 <> 0 ->
  (M <> 1 ->
   generate_clients_data X rng np_random_seed np_random_permutation
       x y M client_size_factor class_balance_factor dataset_seed g
   = (Raise (ValueError "Num clients should be even for nice maths"),
      seeded dataset_seed g))
  /\ (M = 1 ->
      generate_clients_data X rng np_random_seed np_random_permutation
       x y M client_size_factor class_balance_factor dataset_seed g
      = (Ok ([mkShard x y], [length x], [np_mean (is_pos y)], 1),
         seeded dataset_seed g)).
Proof.
  intros Hodd. unfold generate_clients_data. split.
  - intros Hne. replace (M =? 1) with false by lia.
    unfold partition_even. replace (M mod 2 =? 0) with false by lia.
    reflexivity.
  - intros ->. reflexivity.
Qed.

(** C8.  With a seed given, what the call returns or raises (shards,
    sizes, positive shares) does not depend on the global random state
    it is called in. *)
Theorem generate_clients_data_seeded_deterministic (x : list X) (y : list Z)
    (M : Z) (client_size_factor class_balance_factor : Q) (s : Z)
    (g1 g2 : rng) :
  (generate_clients_data X rng np_random_seed np_random_permutation
       x y M client_size_factor class_balance_factor (Some s) g1).1
  = (generate_clients_data X rng np_random_seed np_random_permutation
       x y M client_size_factor class_balance_factor (Some s) g2).1.
Proof.
  unfold generate_clients_data.
  destruct (M =? 1); [reflexivity|].
  destruct (partition_even _ _ _ _ _ _ _ _ (np_random_seed s))
    as [[r|e] g]; reflexivity.
Qed.

(** C9.  With a seed given, a successful return of the shuffling path
    ([M] other than 1) leaves the global random state as it was on
    entry. *)
Theorem generate_clients_data_restores_random_state (x : list X)
    (y : list Z) (M : Z) (client_size_factor class_balance_factor : Q)
    (s : Z) (g g' : rng) (r : clients_data X) :
  M <> 1 ->
  generate_clients_data X rng np_random_seed np_random_permutation
       x y M client_size_factor class_balance_factor (Some s) g
  = (Ok r, g') ->
  g' = g.
Proof.
  intros Hne. unfold generate_clients_data.
  replace (M =? 1) with false by lia.
  destruct (partition_even _ _ _ _ _ _ _ _ (np_random_seed s))
    as [[r0|e] g0]; [|discriminate].
  intros Heq. now injection Heq as _ <-.
Qed.

(** The single-client path returns before the state is restored. *)
Lemma generate_clients_data_one_client_reseeds (x : list X) (y : list Z)
    (client_size_factor class_balance_factor : Q) (s : Z) (g : rng) :
  (generate x y 1 client_size_factor class_balance_factor (Some s) g).2
  = np_random_seed s.
Proof. reflexivity. Qed.

(** In exact arithmetic, for even [M >= 2]: when the [M/2] small clients
    together need more zero-labelled or more positive examples than the
    dataset has, the call raises, in the random state the body started
    in: no shuffle has been drawn and no shard built. *)
Lemma generate_clients_data_not_enough_instances (x : list X)
    (y : list Z) (M : Z) (client_size_factor class_balance_factor : Q)
    (dataset_seed : option Z) (g : rng) :
  length x = length y -> M mod 2 = 0 -> 2 <= M ->
  let N := length x in
  let class_balance :=
    (inject_Z (np_sum (is_zero y)) / inject_Z (Z.of_nat N))%Q in
  let neg_size := small_client_negative_class_size N M client_size_factor
                    class_balance class_balance_factor in
  let pos_size := small_client_positive_class_size N M client_size_factor
                    class_balance class_balance_factor in
  np_sum (is_zero y) < neg_size * (M / 2)
  \/ np_sum (is_pos y) < pos_size * (M / 2) ->
  exists e,
    generate_clients_data X rng np_random_seed np_random_permutation
       x y M client_size_factor class_balance_factor dataset_seed g
    = (Raise e, seeded dataset_seed g).
Proof.
  intros Hxy Heven HM N class_balance neg_size pos_size Hshort.
  unfold generate_clients_data.
  replace (M =? 1) with false by lia.
  unfold partition_even.
  replace (M mod 2 =? 0) with true by lia. simpl negb. cbv iota.
  replace (M =? 0) with false by lia.
  destruct (np_mean (is_zero y)) as [cb|] eqn:Hmean; [|eauto].
  assert (Hy : y <> []) by (intros ->; discriminate).
  rewrite (np_mean_is_zero y Hy) in Hmean. injection Hmean as <-.
  rewrite <- Hxy. fold N class_balance neg_size pos_size.
  assert (HN : 0 < Z.of_nat N)
    by (subst N; rewrite Hxy; destruct y; simpl; [congruence|lia]).
  destruct (neg_size <? 0); [eauto|].
  destruct (pos_size <? 0); [eauto|].
  destruct (Qle_bool (inject_Z neg_size * inject_Z M / 2) _) eqn:Hneg;
    [|simpl; eauto].
  destruct (Qle_bool (inject_Z pos_size * inject_Z M / 2) _) eqn:Hpos;
    [|simpl; eauto].
  simpl negb. cbv iota.
  apply enough_negative_iff in Hneg; [|exact HN].
  apply enough_positive_iff in Hpos; [|exact HN].
  destruct (negb _) eqn:Hassert; [eauto|]. exfalso.
  apply negb_false_iff, Nat.eqb_eq in Hassert. unfold np_where in Hassert.
  assert (Hcount : np_sum (is_pos y) + np_sum (is_zero y) = Z.of_nat N).
  { rewrite <- (length_np_where_from (is_pos y) 0),
      <- (length_np_where_from (is_zero y) 0). subst N. lia. }
  pose proof (Z.div_mod M 2 ltac:(lia)) as Hdiv. rewrite Heven in Hdiv.
  destruct Hshort; nia.
Qed.

Hypothesis permutation_spec :
  forall n g, (np_random_permutation n g).1 ≡ₚ seq 0 n.

End GenerateProperties.

(** *** Runs on the small dataset *)

(** C5, counterexample.  [M = 1] is odd and the call returns: not every
    odd [M] is refused. *)
Lemma generate_clients_data_one_client_no_error :
  ~ (forall M : Z,
        M mod 2 <> 0 ->
        is_raise (Example.generate Example.x Example.y M 0%Q 0%Q None
                    Example.draws).1 = true).
Proof.
  intros Hall. specialize (Hall 1 ltac:(discriminate)).
  vm_compute in Hall. discriminate.
Qed.

Lemma generate_clients_data_odd_clients_witness :
  (3 <> 1 ->
   Example.generate Example.x Example.y 3 0%Q 0%Q (Some 2303) Example.draws
   = (Raise (ValueError "Num clients should be even for nice maths"),
      Example.draws))
  /\ (3 = 1 ->
      Example.generate Example.x Example.y 3 0%Q 0%Q (Some 2303) Example.draws
      = (Ok ([mkShard Example.x Example.y], [length Example.x],
             [np_mean (is_pos Example.y)], 1),
         Example.draws)).
Proof.
  apply (generate_clients_data_odd_clients nat TapeRandom.rng
           (TapeRandom.np_random_seed (fun _ => Example.draws))
           TapeRandom.np_random_permutation Example.x Example.y 3 0%Q 0%Q
           (Some 2303) Example.draws).
  vm_compute. discriminate.
Defined.



Lemma generate_clients_data_restores_random_state_witness :
  (Example.generate Example.x Example.y 4 0%Q 0%Q (Some 2303) [[3; 1; 2; 0]]%nat).2
  = [[3; 1; 2; 0]]%nat.
Proof.
  eapply (generate_clients_data_restores_random_state nat TapeRandom.rng
            (TapeRandom.np_random_seed (fun _ => Example.draws))
            TapeRandom.np_random_permutation Example.x Example.y 4 0%Q 0%Q
            2303 [[3; 1; 2; 0]]%nat).
  - discriminate.
  - vm_compute. reflexivity.
Defined.

(** Fourteen positives and two zeros: two small clients with
    [class_balance_factor = 1/2] would need four zeros. *)
Lemma generate_clients_data_not_enough_instances_witness :
  exists e,
    Example.generate Example.x [1; 1; 1; 1; 1; 1; 1; 1; 1; 1; 1; 1; 1; 1; 0; 0]
      4 0%Q (1 # 2)%Q None Example.draws
    = (Raise e, Example.draws).
Proof.
  apply (generate_clients_data_not_enough_instances nat TapeRandom.rng
           (TapeRandom.np_random_seed (fun _ => Example.draws))
           TapeRandom.np_random_permutation Example.x
           [1; 1; 1; 1; 1; 1; 1; 1; 1; 1; 1; 1; 1; 1; 0; 0] 4 0%Q (1 # 2)%Q
           None Example.draws).
  - reflexivity.
  - reflexivity.
  - lia.
  - left. vm_compute. reflexivity.
Defined.

(** ** Further runs *)

(** [dpsgd] with both options set passes the checks of [main] and is
    refused while the first client is built. *)
Example main_setup_dpsgd_user_level :
  main_arg_checks (mkArgs "dpsgd" "pvi" (Some 32) (Some (1 # 10)))
  = Ok (Some UserLevelSWOR)
  /\ main_setup unit nat nat unit unit unit (fun n => n) (fun _ => tt)
       (mkArgs "dpsgd" "pvi" (Some 32) (Some (1 # 10))) tt [0%nat; 1%nat] tt tt
     = Raise (NotImplementedError "user level DP not implemented!").
Proof. split; reflexivity. Qed.

(** [server] passes the first membership test of [main] and is refused by
    the last branch of the checks. *)
Example main_arg_checks_server :
  main_arg_checks (mkArgs "server" "pvi" (Some 32) None)
  = Raise (ValueError "Unknown dp_mode: server").
Proof. reflexivity. Qed.

(** With the stand-in accountant [eps = 2 / sigma], target 2 and bounds
    1/2 and 3/2, the first midpoint is accepted. *)
Example bin_search_sigma_first_midpoint :
  match bin_search_sigma Q Qplus Qminus QFloat.fdiv2 Qabs QFloat.fleb
          QFloat.fltb QFloat.accountant 2%Q 20 (1 # 100000) (1 # 10) 1000000
          35%Q (1 # 2) (3 # 2) (1 # 1000) 10 with
  | Ok (Some sigma, []) => (sigma == 1)%Q
  | _ => False
  end.
Proof. vm_compute. reflexivity. Qed.

(** From the bounds of the script's main block the search narrows to the
    target within thirty passes. *)
Example bin_search_sigma_thirty_passes :
  match bin_search_sigma Q Qplus Qminus QFloat.fdiv2 Qabs QFloat.fleb
          QFloat.fltb QFloat.accountant 2%Q 20 (1 # 100000) (1 # 10) 1000000
          35%Q (7 # 10) 300%Q (1 # 1000) 30 with
  | Ok (Some sigma, []) => (Qabs (2 / sigma - 2) <= 1 # 1000)%Q
  | _ => False
  end.
Proof. vm_compute. discriminate. Qed.

Example bin_search_sigma_no_pass :
  bin_search_sigma Q Qplus Qminus QFloat.fdiv2 Qabs QFloat.fleb QFloat.fltb
    QFloat.accountant 2%Q 20 (1 # 100000) (1 # 10) 1000000 35%Q
    (7 # 10) 300%Q (1 # 1000) 0
  = Raise (UnboundLocalError "cur").
Proof. reflexivity. Qed.

(** With another last draw the same call hands every client two positives
    out of four: the shares of the large clients follow the shuffle. *)
Example generate_clients_data_even_draw :
  (Example.generate Example.x Example.y 4 0%Q 0%Q None
     [[3; 2; 1; 0]; [1; 0; 3; 2]; [0; 4; 1; 5; 2; 6; 3; 7]]%nat).1
  = Ok ([mkShard [3; 1; 2; 0]%nat [0; 0; 1; 1];
         mkShard [6; 4; 7; 5]%nat [1; 1; 0; 0];
         mkShard [8; 9; 10; 11]%nat [1; 0; 1; 0];
         mkShard [12; 13; 14; 15]%nat [1; 0; 1; 0]],
        [4; 4; 4; 4]%nat,
        [Some (2 # 4); Some (2 # 4); Some (2 # 4); Some (2 # 4)]%Q, 4).
Proof. vm_compute. reflexivity. Qed.

(** Unequal client sizes: [client_size_factor = -1/2] makes the first
    client the large one. *)
Example generate_clients_data_two_clients :
  (Example.generate Example.x Example.y 2 (-1 # 2)%Q (1 # 3)%Q None []).1
  = Ok ([mkShard [0; 2; 4; 6; 1; 3; 5; 7; 9; 11; 13; 15]%nat
           [1; 1; 1; 1; 0; 0; 0; 0; 0; 0; 0; 0];
         mkShard [8; 10; 12; 14]%nat [1; 1; 1; 1]],
        [12; 4]%nat, [Some (4 # 12); Some (4 # 4)]%Q, 2).
Proof. vm_compute. reflexivity. Qed.

Example generate_clients_data_no_clients :
  (Example.generate Example.x Example.y 0 0%Q 0%Q None []).1
  = Raise ZeroDivisionError.
Proof. reflexivity. Qed.

(** * Further properties *)

(** ** Setting up the clients *)

Lemma str_in_not_In (s : string) (l : list string) :
  str_in s l = false <-> ~ In s l.
Proof.
  rewrite <- str_in_In. destruct (str_in s l); split; congruence.
Qed.

(** Which arguments the checks of [main] let through. *)
Lemma main_arg_checks_passes_iff (args : Args) :
  is_raise (main_arg_checks args) = false <->
  In (model args) ["pvi"; "bcm_split"; "bcm_same"; "global_vi"]
  /\ ((In (dp_mode args) ["dpsgd"; "param_fixed"]
       /\ is_set (batch_size args) || is_set (sampling_frac_q args) = true)
      \/ (In (dp_mode args) ["lfa"; "local_pvi"; "param"]
          /\ is_set (batch_size args) && is_set (sampling_frac_q args) = false)
      \/ In (dp_mode args) ["nondp_batches"; "nondp_epochs"]).
Proof.
  destruct args as [dpm m bs q]. unfold main_arg_checks.
  simpl dp_mode. simpl model. simpl batch_size. simpl sampling_frac_q.
  destruct (str_in dpm ["nondp_batches"; "nondp_epochs"; "dpsgd"; "param";
                        "param_fixed"; "server"; "lfa"; "local_pvi"]) eqn:H8.
  - apply str_in_In in H8. simpl in H8.
    destruct (str_in m ["pvi"; "bcm_split"; "bcm_same"; "global_vi"]) eqn:H4;
      [apply str_in_In in H4|apply str_in_not_In in H4];
      destruct H8 as [<-|[<-|[<-|[<-|[<-|[<-|[<-|[<-|[]]]]]]]]];
      destruct bs, q; cbn;
      (split; [try discriminate; intros _|]);
      try (split; [exact H4|]); try reflexivity;
      try (intros (Hm & _); contradiction);
      try (left; split; [simpl; tauto|reflexivity]);
      try (right; left; split; [simpl; tauto|reflexivity]);
      try (right; right; simpl; tauto);
      try (intros (_ & [[_ Hf]|[[Hf _]|Hf]]); simpl in Hf;
           intuition discriminate);
      try (intros (_ & [[Hf _]|[[_ Hf]|Hf]]); simpl in Hf;
           intuition discriminate);
      try (intros (_ & [[Hf _]|[[Hf _]|Hf]]); simpl in Hf;
           intuition discriminate).
  - apply str_in_not_In in H8. cbn. split; [discriminate|].
    intros (_ & [[Hf _]|[[Hf _]|Hf]]); exfalso; apply H8; simpl in *; tauto.
Qed.

Lemma is_raise_then {A B} (c : result A) (r : result B) :
  is_raise (_ ← c; r) = is_raise c || is_raise r.
Proof. destruct c; reflexivity. Qed.

Section SetupCoverage.
Variables Model Shard Data NatParams Factor Config : Type.
Variable to_tensors : Shard -> Data.
Variable MeanFieldGaussianFactor : NatParams -> Factor.
Variables (lr_model : Model) (init_nat_params : NatParams) (config : Config).

Local Abbreviation new_client cls :=
  (fun d : Shard =>
     mkClient cls (to_tensors d) lr_model
       (MeanFieldGaussianFactor init_nat_params) config).

Local Abbreviation make :=
  (make_client Model Shard Data NatParams Factor Config to_tensors
     MeanFieldGaussianFactor lr_model init_nat_params config).

(** What [make_client] does depends on the mode and the two options only,
    not on the shard. *)
Lemma make_client_cases dpm bs q :
  (exists cls, forall d, make dpm bs q d = Ok (new_client cls d))
  \/ (exists e, forall d, make dpm bs q d = Raise e).
Proof.
  unfold make_client.
  destruct (str_in dpm ["lfa"]); [left; eexists; reflexivity|].
  destruct (str_in dpm ["local_pvi"]); [left; eexists; reflexivity|].
  destruct (str_in dpm ["param"]); [left; eexists; reflexivity|].
  destruct (str_in dpm ["dpsgd"]).
  - destruct (is_set bs && is_set q);
      [right; eexists; reflexivity|left; eexists; reflexivity].
  - destruct (str_in dpm ["nondp_epochs"; "nondp_batches"]);
      [left; eexists; reflexivity|right; eexists; reflexivity].
Qed.

Lemma make_client_raises_iff dpm bs q d :
  is_raise (make dpm bs q d) = true <->
  ~ In dpm ["lfa"; "local_pvi"; "param"; "dpsgd"; "nondp_epochs";
            "nondp_batches"]
  \/ (dpm = "dpsgd" /\ is_set bs = true /\ is_set q = true).
Proof.
  assert (Hknown : forall s,
             In s ["lfa"; "local_pvi"; "param"; "nondp_epochs";
                   "nondp_batches"] ->
             dpm = s ->
             ~ (~ In dpm ["lfa"; "local_pvi"; "param"; "dpsgd";
                          "nondp_epochs"; "nondp_batches"]
                \/ (dpm = "dpsgd" /\ is_set bs = true /\ is_set q = true))).
  { intros s Hs -> [Hn|(Heq & _)].
    - apply Hn. simpl in *. tauto.
    - subst s. simpl in Hs. intuition discriminate. }
  unfold make_client.
  destruct (str_in dpm ["lfa"]) eqn:H1.
  { apply str_in_In in H1. simpl in H1. destruct H1 as [<-|[]].
    split; [discriminate|]. intros H. exfalso.
    apply (Hknown "lfa"); [simpl; tauto|reflexivity|exact H]. }
  destruct (str_in dpm ["local_pvi"]) eqn:H2.
  { apply str_in_In in H2. simpl in H2. destruct H2 as [<-|[]].
    split; [discriminate|]. intros H. exfalso.
    apply (Hknown "local_pvi"); [simpl; tauto|reflexivity|exact H]. }
  destruct (str_in dpm ["param"]) eqn:H3.
  { apply str_in_In in H3. simpl in H3. destruct H3 as [<-|[]].
    split; [discriminate|]. intros H. exfalso.
    apply (Hknown "param"); [simpl; tauto|reflexivity|exact H]. }
  destruct (str_in dpm ["dpsgd"]) eqn:H4.
  { apply str_in_In in H4. simpl in H4. destruct H4 as [<-|[]].
    assert (Hin : In "dpsgd" ["lfa"; "local_pvi"; "param"; "dpsgd";
                              "nondp_epochs"; "nondp_batches"])
      by (simpl; tauto).
    destruct (is_set bs), (is_set q); simpl; split;
      solve [ reflexivity | discriminate
            | intros _; right; repeat split; reflexivity
            | intros [Hn|(_ & Hb & Hq)];
              [exfalso; exact (Hn Hin)|discriminate] ]. }
  destruct (str_in dpm ["nondp_epochs"; "nondp_batches"]) eqn:H5.
  { apply str_in_In in H5. split; [discriminate|]. intros H. exfalso.
    apply (Hknown dpm); [simpl in *; tauto|reflexivity|exact H]. }
  simpl. split; [|reflexivity]. intros _. left. intros Hin.
  simpl in Hin.
  destruct Hin as [<-|[<-|[<-|[<-|[<-|[<-|[]]]]]]]; discriminate.
Qed.

(** With a first shard [d], [set_up_clients] raises exactly when building
    its client does. *)
Lemma set_up_clients_cons_is_raise d (rest : list Shard) dpm bs q :
  is_raise (set_up_clients Model Shard Data NatParams Factor Config to_tensors
              MeanFieldGaussianFactor lr_model (d :: rest) init_nat_params
              config dpm bs q) = true
  <-> ~ In dpm ["lfa"; "local_pvi"; "param"; "dpsgd"; "nondp_epochs";
                "nondp_batches"]
      \/ (dpm = "dpsgd" /\ is_set bs = true /\ is_set q = true).
Proof.
  rewrite <- (make_client_raises_iff dpm bs q d).
  destruct (make_client_cases dpm bs q) as [[cls Hok]|[e Hraise]].
  - rewrite (set_up_clients_ok _ _ _ _ _ _ _ _ _ _ _ dpm bs q cls _ Hok).
    rewrite Hok. simpl. split; discriminate.
  - rewrite (set_up_clients_raise _ _ _ _ _ _ _ _ _ _ _ dpm bs q e d rest
               (Hraise d)).
    rewrite Hraise. simpl. split; reflexivity.
Qed.

(** X2.  [set_up_clients] raises exactly when there is a client to
    build and [dp_mode] is none of the six modes it has a branch for, or
    is ['dpsgd'] with both [batch_size] and [sampling_frac_q] set.  With
    no shard the loop body never runs and any mode is accepted. *)
Theorem set_up_clients_raises_iff (client_data : list Shard) dpm bs q :
  is_raise (set_up_clients Model Shard Data NatParams Factor Config to_tensors
              MeanFieldGaussianFactor lr_model client_data init_nat_params
              config dpm bs q) = true
  <-> client_data <> []
      /\ (~ In dpm ["lfa"; "local_pvi"; "param"; "dpsgd"; "nondp_epochs";
                    "nondp_batches"]
          \/ (dpm = "dpsgd" /\ is_set bs = true /\ is_set q = true)).
Proof.
  destruct client_data as [|d rest].
  - simpl. split; [discriminate|]. intros [Hne _]. congruence.
  - rewrite (set_up_clients_cons_is_raise d rest dpm bs q).
    split; [intros H; split; [discriminate|exact H]|intros [_ H]; exact H].
Qed.

(** X3.  A successful [set_up_clients] returns one client per shard, in
    the order of the shards and all of one class, each built from its
    own shard, the shared model, a factor from [init_nat_params] and the
    shared config. *)
Theorem set_up_clients_returns (client_data : list Shard) dpm bs q cs :
  set_up_clients Model Shard Data NatParams Factor Config to_tensors
    MeanFieldGaussianFactor lr_model client_data init_nat_params config
    dpm bs q = Ok cs ->
  exists cls, cs = map (new_client cls) client_data.
Proof.
  intros Hrun.
  destruct (make_client_cases dpm bs q) as [[cls Hok]|[e Hraise]].
  - rewrite (set_up_clients_ok _ _ _ _ _ _ _ _ _ _ _ dpm bs q cls _ Hok)
      in Hrun.
    injection Hrun as <-. now exists cls.
  - destruct client_data as [|d rest].
    + injection Hrun as <-. now exists Client.
    + rewrite (set_up_clients_raise _ _ _ _ _ _ _ _ _ _ _ dpm bs q e d rest
                 (Hraise d)) in Hrun.
      discriminate.
Qed.

(** X1.  With at least one shard, the setup path of [main] (its argument
    checks, then [set_up_clients]) goes through exactly when the model
    is one of the four known ones and the mode is ['dpsgd'] with exactly
    one of [batch_size], [sampling_frac_q] set, or ['lfa'],
    ['local_pvi'] or ['param'] with not both set, or one of the two
    non-DP modes.  ['param_fixed'] and ['server'] never go through. *)
Theorem main_setup_passes_iff (args : Args) d (rest : list Shard) :
  is_raise (main_setup Model Shard Data NatParams Factor Config to_tensors
              MeanFieldGaussianFactor args lr_model (d :: rest)
              init_nat_params config) = false
  <-> In (model args) ["pvi"; "bcm_split"; "bcm_same"; "global_vi"]
      /\ ((dp_mode args = "dpsgd"
           /\ xorb (is_set (batch_size args)) (is_set (sampling_frac_q args))
              = true)
          \/ (In (dp_mode args) ["lfa"; "local_pvi"; "param"]
              /\ is_set (batch_size args) && is_set (sampling_frac_q args)
                 = false)
          \/ In (dp_mode args) ["nondp_batches"; "nondp_epochs"]).
Proof.
  unfold main_setup.
  rewrite (is_raise_then (main_arg_checks args)), orb_false_iff.
  rewrite (main_arg_checks_passes_iff args).
  rewrite <- (not_true_iff_false (is_raise (set_up_clients _ _ _ _ _ _ _ _ _
                                              _ _ _ _ _ _))).
  rewrite (set_up_clients_cons_is_raise d rest (dp_mode args)
             (batch_size args) (sampling_frac_q args)).
  rewrite <- !str_in_In, <- String.eqb_eq.
  set (pm := str_in (model args) _).
  generalize (dp_mode args). intros dpm. unfold str_in. cbn [existsb].
  destruct (string_dec dpm "dpsgd") as [->|N1];
    [|destruct (string_dec dpm "param_fixed") as [->|N2];
      [|destruct (string_dec dpm "lfa") as [->|N3];
        [|destruct (string_dec dpm "local_pvi") as [->|N4];
          [|destruct (string_dec dpm "param") as [->|N5];
            [|destruct (string_dec dpm "nondp_batches") as [->|N6];
              [|destruct (string_dec dpm "nondp_epochs") as [->|N7]]]]]]].
  8: { apply String.eqb_neq in N1, N2, N3, N4, N5, N6, N7.
       rewrite N1, N2, N3, N4, N5, N6, N7. cbn [orb].
       intuition discriminate. }
  all: cbn;
    destruct (is_set (batch_size args)), (is_set (sampling_frac_q args));
    cbn; destruct pm; intuition (try discriminate).
Qed.

End SetupCoverage.

(** ** The bisection for sigma *)

Lemma QFloat_fdiv2_mid (l u : Q) :
  (l <= u -> l <= QFloat.fdiv2 (u + l) /\ QFloat.fdiv2 (u + l) <= u)%Q.
Proof.
  intros Hlu. unfold QFloat.fdiv2.
  assert (E : ((u + l) / 2 == (1 # 2) * u + (1 # 2) * l)%Q) by field.
  rewrite E. split; lra.
Qed.

Lemma QFloat_fdiv2_width_l (l u : Q) :
  (QFloat.fdiv2 (u + l) - l == (u - l) / 2)%Q.
Proof. unfold QFloat.fdiv2. field. Qed.

Lemma QFloat_fdiv2_width_u (l u : Q) :
  (u - QFloat.fdiv2 (u + l) == (u - l) / 2)%Q.
Proof. unfold QFloat.fdiv2. field. Qed.

Lemma QFloat_fltb_lt (a b : Q) : QFloat.fltb a b = true <-> (a < b)%Q.
Proof.
  unfold QFloat.fltb. rewrite negb_true_iff, <- not_true_iff_false,
    Qle_bool_iff. split; [apply Qnot_le_lt|apply Qlt_not_le].
Qed.

Lemma QFloat_fltb_ge (a b : Q) : QFloat.fltb a b = false <-> (b <= a)%Q.
Proof.
  unfold QFloat.fltb. rewrite negb_false_iff. apply Qle_bool_iff.
Qed.

Section BisectionOverQ.
Variable get_epsilon_S : Q -> Q -> Q -> Z -> Z -> Q -> Q.
Variables (target_eps : Q) (ncomp : Z) (target_delta q : Q) (nx : Z) (L tol : Q).

Local Abbreviation loop iters lbound ubound last :=
  (bin_search_loop Q Qplus Qminus QFloat.fdiv2 Qabs QFloat.fleb QFloat.fltb
     get_epsilon_S iters target_eps ncomp target_delta q nx L lbound ubound
     tol last).

Local Abbreviation eps_of sigma :=
  (get_epsilon_S target_delta sigma q ncomp nx L).

(** Whatever the loop hands back, a sigma or the midpoint of its report,
    lies between the bounds it started from. *)
Lemma bin_search_loop_in_bracket iters :
  forall lbound ubound last,
    (lbound <= ubound)%Q ->
    match loop iters lbound ubound last with
    | Ok (Some sigma, _) => (lbound <= sigma <= ubound)%Q
    | Ok (None, log) =>
        forall cur eps, In (DidNotConverge cur eps) log ->
          last = Some (cur, eps) \/ (lbound <= cur <= ubound)%Q
    | Raise _ => True
    end.
Proof.
  induction iters as [|iters IH]; intros lbound ubound last Hlu.
  - simpl. destruct last as [[c e]|]; [|exact I].
    intros cur eps [Heq|[]]. left. now injection Heq as -> ->.
  - simpl. unfold loop_body.
    destruct (QFloat_fdiv2_mid lbound ubound Hlu) as [Hl Hu].
    set (cur := QFloat.fdiv2 (ubound + lbound)) in *.
    destruct (QFloat.fleb _ tol); [split; assumption|].
    destruct (QFloat.fltb _ target_eps).
    + specialize (IH lbound cur (Some (cur, eps_of cur)) Hl).
      destruct (loop iters lbound cur _) as [[[sigma|] log]|e];
        [split; [apply IH|eapply Qle_trans; [apply IH|exact Hu]]| |exact I].
      intros c e Hin. right. destruct (IH c e Hin) as [Heq|[H1 H2]].
      * injection Heq as <- _. split; assumption.
      * split; [exact H1|eapply Qle_trans; [exact H2|exact Hu]].
    + specialize (IH cur ubound (Some (cur, eps_of cur)) Hu).
      destruct (loop iters cur ubound _) as [[[sigma|] log]|e];
        [split; [eapply Qle_trans; [exact Hl|apply IH]|apply IH]| |exact I].
      intros c e Hin. right. destruct (IH c e Hin) as [Heq|[H1 H2]].
      * injection Heq as <- _. split; assumption.
      * split; [eapply Qle_trans; [exact Hl|exact H1]|exact H2].
Qed.

(** X4.  Over the rationals and for any accountant: started on a
    bracket with [lbound <= ubound], [bin_search_sigma] only ever hands
    back a point of the bracket, be it the sigma it returns or the
    midpoint of its 'Did not converge!' report. *)
Theorem bin_search_sigma_in_bracket (lbound ubound : Q) (max_iters : Z) :
  (lbound <= ubound)%Q ->
  (forall sigma log,
      bin_search_sigma Q Qplus Qminus QFloat.fdiv2 Qabs QFloat.fleb
        QFloat.fltb get_epsilon_S target_eps ncomp target_delta q nx L
        lbound ubound tol max_iters = Ok (Some sigma, log) ->
      (lbound <= sigma <= ubound)%Q)
  /\ (forall cur eps,
        bin_search_sigma Q Qplus Qminus QFloat.fdiv2 Qabs QFloat.fleb
          QFloat.fltb get_epsilon_S target_eps ncomp target_delta q nx L
          lbound ubound tol max_iters = Ok (None, [DidNotConverge cur eps]) ->
        (lbound <= cur <= ubound)%Q).
Proof.
  intros Hlu. unfold bin_search_sigma.
  pose proof (bin_search_loop_in_bracket (Z.to_nat max_iters) lbound ubound
                None Hlu) as H.
  split.
  - intros sigma log Hrun. rewrite Hrun in H. exact H.
  - intros cur eps Hrun. rewrite Hrun in H.
    destruct (H cur eps ltac:(left; reflexivity)) as [Heq|Hin];
      [discriminate|exact Hin].
Qed.
Variables lo hi : Q.
Hypothesis antitone :
  forall a b, (lo <= a -> a <= b -> b <= hi -> eps_of b <= eps_of a)%Q.
Hypothesis tol_nonneg : (0 <= tol)%Q.
Variable root : Q.
Hypothesis root_hits : (eps_of root == target_eps)%Q.

(** A pass that does not return keeps the root between the bounds. *)
Lemma loop_body_keeps_root (lbound ubound : Q) :
  (lo <= lbound)%Q -> (ubound <= hi)%Q ->
  (lbound <= root <= ubound)%Q ->
  match loop_body Q Qplus Qminus QFloat.fdiv2 Qabs QFloat.fleb QFloat.fltb
          get_epsilon_S target_eps ncomp target_delta q nx L lbound ubound
          tol with
  | Return _ => True
  | Continue lbound' ubound' cur eps =>
      (lbound' <= root <= ubound')%Q
      /\ (ubound' - lbound' == (ubound - lbound) / 2)%Q
      /\ (lbound' <= cur <= ubound')%Q
      /\ (lbound <= lbound' /\ ubound' <= ubound)%Q
  end.
Proof.
  intros Hlo Hhi [Hl Hu]. unfold loop_body.
  destruct (QFloat_fdiv2_mid lbound ubound) as [Hml Hmu];
    [eapply Qle_trans; eassumption|].
  pose proof (QFloat_fdiv2_width_l lbound ubound) as Hwl.
  pose proof (QFloat_fdiv2_width_u lbound ubound) as Hwu.
  set (cur := QFloat.fdiv2 (ubound + lbound)) in *.
  destruct (QFloat.fleb _ tol) eqn:Htol; [exact I|].
  destruct (QFloat.fltb _ target_eps) eqn:Hlt.
  - apply QFloat_fltb_lt in Hlt.
    repeat split; try assumption; try apply Qle_refl.
    destruct (Qlt_le_dec cur root) as [Hcr|Hrc]; [|exact Hrc].
    exfalso.
    assert (Ha : (eps_of root <= eps_of cur)%Q) by (apply antitone; lra).
    rewrite root_hits in Ha. lra.
  - apply QFloat_fltb_ge in Hlt.
    repeat split; try assumption; try apply Qle_refl.
    destruct (Qlt_le_dec root cur) as [Hrc|Hcr]; [|exact Hcr].
    exfalso.
    assert (Ha : (eps_of cur <= eps_of root)%Q) by (apply antitone; lra).
    rewrite root_hits in Ha.
    assert (E : (eps_of cur - target_eps == 0)%Q) by lra.
    unfold QFloat.fleb in Htol. apply not_true_iff_false in Htol.
    apply Htol, Qle_bool_iff. rewrite E. exact tol_nonneg.
Qed.

Lemma bin_search_loop_error_bound iters :
  forall lbound ubound last cur eps,
    (lo <= lbound)%Q -> (ubound <= hi)%Q ->
    (lbound <= root <= ubound)%Q ->
    loop iters lbound ubound last = Ok (None, [DidNotConverge cur eps]) ->
    (iters = 0%nat /\ last = Some (cur, eps))
    \/ (lbound <= cur <= ubound
        /\ Qabs (cur - root)
           <= (ubound - lbound) / inject_Z (2 ^ Z.of_nat iters))%Q.
Proof.
  induction iters as [|iters IH];
    intros lbound ubound last cur eps Hlo Hhi Hroot Hrun.
  - left. split; [reflexivity|]. simpl in Hrun.
    destruct last as [[c e]|]; [|discriminate]. now injection Hrun as -> ->.
  - right. simpl in Hrun.
    pose proof (loop_body_keeps_root lbound ubound Hlo Hhi Hroot) as Hbody.
    destruct (loop_body _ _ _ _ _ _ _ _ _ _ _ _ _ _ _ _ _)
      as [c|l' u' c e]; [discriminate|].
    destruct Hbody as (Hroot' & Hwidth & Hc & Hsub).
    rewrite Nat2Z.inj_succ, Z.pow_succ_r, inject_Z_mult by lia.
    assert (Hpow : (0 < inject_Z (2 ^ Z.of_nat iters))%Q).
    { rewrite <- (Zlt_Qlt 0). apply Z.pow_pos_nonneg; lia. }
    destruct (IH l' u' (Some (c, e)) cur eps ltac:(lra) ltac:(lra) Hroot' Hrun)
      as [(-> & Heq)|(Hin & Hb)].
    + injection Heq as <- <-. split; [lra|].
      change (inject_Z (2 ^ Z.of_nat 0)) with 1%Q.
      apply Qabs_Qle_condition.
      assert (E : ((ubound - lbound) / (inject_Z 2 * 1)
                   == (ubound - lbound) / 2)%Q) by field.
      rewrite E. lra.
    + split; [lra|].
      eapply Qle_trans; [exact Hb|]. rewrite Hwidth.
      assert (E : ((ubound - lbound) / 2 / inject_Z (2 ^ Z.of_nat iters)
                   == (ubound - lbound)
                      / (inject_Z 2 * inject_Z (2 ^ Z.of_nat iters)))%Q)
        by (field; lra).
      rewrite E. apply Qle_refl.
Qed.

(** X5.  Over the rationals, for an accountant that does not increase
    in sigma on [[lo, hi]] and meets [target_eps] at [root] in that
    bracket: when the search gives up after [max_iters] passes, the
    midpoint it reports is within [(hi - lo) / 2 ^ max_iters] of
    [root]. *)
Theorem bin_search_sigma_error_bound (max_iters : Z) (cur eps : Q) :
  (lo <= root <= hi)%Q ->
  bin_search_sigma Q Qplus Qminus QFloat.fdiv2 Qabs QFloat.fleb QFloat.fltb
    get_epsilon_S target_eps ncomp target_delta q nx L lo hi tol
    max_iters = Ok (None, [DidNotConverge cur eps]) ->
  (Qabs (cur - root) <= (hi - lo) / inject_Z (2 ^ max_iters))%Q.
Proof.
  intros Hroot Hrun. unfold bin_search_sigma in Hrun.
  destruct (bin_search_loop_error_bound _ _ _ _ _ _ (Qle_refl lo)
              (Qle_refl hi) Hroot Hrun)
    as [(_ & Heq)|(_ & Hb)]; [discriminate|].
  destruct (Z.le_gt_cases max_iters 0) as [Hle|Hgt].
  - replace (Z.to_nat max_iters) with 0%nat in Hrun by lia. discriminate.
  - now rewrite Z2Nat.id in Hb by lia.
Qed.
End BisectionOverQ.

(** ** Classification counts and accuracy *)

Lemma count_TP_value (y : list Z) : forall (pred_probs : list Q) thr,
  length pred_probs = length y ->
  count_TP y pred_probs thr = Ok (predicted true 1 thr y pred_probs).
Proof.
  intros pred_probs thr Hlen. unfold count_TP.
  rewrite !bool_index_same_length
    by (unfold gt_thr, y_is; rewrite ?length_map; congruence).
  simpl. f_equal. unfold predicted. revert pred_probs Hlen.
  induction y as [|v y IH]; intros [|p pred_probs] Hlen; try discriminate;
    [reflexivity|].
  simpl in Hlen. injection Hlen as Hlen. specialize (IH pred_probs Hlen).
  simpl. destruct (v =? 1) eqn:Hv; simpl; [|exact IH].
  apply Z.eqb_eq in Hv. subst v. unfold eq_arrays in *. simpl. rewrite IH.
  destruct (Qle_bool p thr); reflexivity.
Qed.

Lemma count_FP_value (y : list Z) : forall (pred_probs : list Q) thr,
  length pred_probs = length y ->
  count_FP y pred_probs thr = Ok (predicted true 0 thr y pred_probs).
Proof.
  intros pred_probs thr Hlen. unfold count_FP.
  rewrite !bool_index_same_length
    by (unfold gt_thr, y_is; rewrite ?length_map; congruence).
  simpl. f_equal. unfold predicted. revert pred_probs Hlen.
  induction y as [|v y IH]; intros [|p pred_probs] Hlen; try discriminate;
    [reflexivity|].
  simpl in Hlen. injection Hlen as Hlen. specialize (IH pred_probs Hlen).
  simpl. destruct (v =? 0) eqn:Hv; simpl; [|exact IH].
  apply Z.eqb_eq in Hv. subst v. unfold ne_arrays in *. simpl. rewrite IH.
  destruct (Qle_bool p thr); reflexivity.
Qed.

Lemma count_TN_value (y : list Z) : forall (pred_probs : list Q) thr,
  length pred_probs = length y ->
  count_TN y pred_probs thr = Ok (predicted false 0 thr y pred_probs).
Proof.
  intros pred_probs thr Hlen. unfold count_TN.
  rewrite !bool_index_same_length
    by (unfold le_thr, y_is; rewrite ?length_map; congruence).
  simpl. f_equal. unfold predicted. revert pred_probs Hlen.
  induction y as [|v y IH]; intros [|p pred_probs] Hlen; try discriminate;
    [reflexivity|].
  simpl in Hlen. injection Hlen as Hlen. specialize (IH pred_probs Hlen).
  simpl. destruct (v =? 0) eqn:Hv; simpl; [|exact IH].
  apply Z.eqb_eq in Hv. subst v. unfold eq_arrays in *. simpl. rewrite IH.
  destruct (Qle_bool p thr); reflexivity.
Qed.

Lemma count_FN_value (y : list Z) : forall (pred_probs : list Q) thr,
  length pred_probs = length y ->
  count_FN y pred_probs thr = Ok (predicted false 1 thr y pred_probs).
Proof.
  intros pred_probs thr Hlen. unfold count_FN.
  rewrite !bool_index_same_length
    by (unfold le_thr, y_is; rewrite ?length_map; congruence).
  simpl. f_equal. unfold predicted. revert pred_probs Hlen.
  induction y as [|v y IH]; intros [|p pred_probs] Hlen; try discriminate;
    [reflexivity|].
  simpl in Hlen. injection Hlen as Hlen. specialize (IH pred_probs Hlen).
  simpl. destruct (v =? 1) eqn:Hv; simpl; [|exact IH].
  apply Z.eqb_eq in Hv. subst v. unfold ne_arrays in *. simpl. rewrite IH.
  destruct (Qle_bool p thr); reflexivity.
Qed.

Lemma fill_counts_values (y : list Z) (pred_probs : list Q) (tmp : list Q) :
  length pred_probs = length y ->
  forall i_thr c,
    (i_thr + length tmp <= length (cTP c))%nat ->
    (i_thr + length tmp <= length (cFP c))%nat ->
    (i_thr + length tmp <= length (cTN c))%nat ->
    (i_thr + length tmp <= length (cFN c))%nat ->
    exists c',
      fill_counts y pred_probs i_thr tmp c = Ok c' /\ same_lengths c c'
      /\ (forall j thr, tmp !! j = Some thr ->
            counts_at y pred_probs c' (i_thr + j) thr)
      /\ (forall j, (j < i_thr)%nat ->
            cTP c' !! j = cTP c !! j /\ cFP c' !! j = cFP c !! j
            /\ cTN c' !! j = cTN c !! j /\ cFN c' !! j = cFN c !! j).
Proof.
  intros Hlen. induction tmp as [|thr tmp IH]; intros i_thr c H1 H2 H3 H4.
  - exists c. split; [reflexivity|]. split; [repeat split|].
    split; [intros j t Hj; discriminate|]. intros; repeat split.
  - simpl in H1, H2, H3, H4. cbn [fill_counts].
    rewrite (count_TP_value y pred_probs thr Hlen),
      (count_FP_value y pred_probs thr Hlen),
      (count_TN_value y pred_probs thr Hlen),
      (count_FN_value y pred_probs thr Hlen). simpl.
    edestruct (IH (S i_thr)) as (c' & Hrun & Hsame & Hvals & Hkeep);
      [| | | |exists c'; split; [exact Hrun|]].
    1-4: simpl; rewrite length_insert; lia.
    destruct Hsame as (L1 & L2 & L3 & L4). simpl in L1, L2, L3, L4.
    rewrite length_insert in L1, L2, L3, L4.
    split; [repeat split; assumption|]. split.
    + intros [|j] t Hj.
      * injection Hj as <-. rewrite Nat.add_0_r.
        destruct (Hkeep i_thr ltac:(lia)) as (K1 & K2 & K3 & K4).
        simpl in K1, K2, K3, K4. unfold counts_at.
        rewrite K1, K2, K3, K4, !list_lookup_insert_eq by lia.
        repeat split.
      * simpl in Hj. replace (i_thr + S j)%nat with (S i_thr + j)%nat by lia.
        now apply Hvals.
    + intros j Hj. destruct (Hkeep j ltac:(lia)) as (K1 & K2 & K3 & K4).
      simpl in K1, K2, K3, K4.
      rewrite K1, K2, K3, K4, !list_lookup_insert_ne by lia. repeat split.
Qed.

Lemma np_sum_zip_with_le {A B} (f g : A -> B -> bool) (l : list A) :
  forall k : list B,
    (forall a b, f a b = true -> g a b = true) ->
    np_sum (zip_with f l k) <= np_sum (zip_with g l k).
Proof.
  induction l as [|a l IH]; intros [|b k] Hfg; simpl; try lia.
  specialize (IH k Hfg). specialize (Hfg a b).
  destruct (f a b), (g a b); simpl; try lia.
Qed.

(** Raising the threshold never adds a predicted positive and never
    removes a predicted negative. *)
Lemma predicted_monotone (label : Z) (thr thr' : Q) (y : list Z)
    (pred_probs : list Q) :
  (thr <= thr')%Q ->
  predicted true label thr' y pred_probs <= predicted true label thr y pred_probs
  /\ predicted false label thr y pred_probs
     <= predicted false label thr' y pred_probs.
Proof.
  intros Hthr. unfold predicted. split; apply np_sum_zip_with_le; intros v p H;
    apply andb_true_iff in H as [Hv Hp]; rewrite Hv; simpl.
  - apply negb_true_iff in Hp. apply negb_true_iff.
    apply not_true_iff_false. intros Hle. apply not_true_iff_false in Hp.
    apply Hp. apply Qle_bool_iff in Hle. apply Qle_bool_iff.
    eapply Qle_trans; eassumption.
  - apply Qle_bool_iff in Hp. apply Qle_bool_iff.
    eapply Qle_trans; eassumption.
Qed.

Lemma predicted_compat (above : bool) (label : Z) (thr thr' : Q) (y : list Z)
    (pred_probs : list Q) :
  (thr == thr')%Q ->
  predicted above label thr y pred_probs
  = predicted above label thr' y pred_probs.
Proof.
  intros Heq.
  assert (H1 : (thr <= thr')%Q) by (rewrite Heq; apply Qle_refl).
  assert (H2 : (thr' <= thr)%Q) by (rewrite Heq; apply Qle_refl).
  destruct (predicted_monotone label thr thr' y pred_probs H1).
  destruct (predicted_monotone label thr' thr y pred_probs H2).
  destruct above; lia.
Qed.

Lemma np_linspace01_lookup (n : Z) (tmp : list Q) (i : nat) :
  1 < n -> np_linspace01 n = Ok tmp -> (i < Z.to_nat n)%nat ->
  tmp !! i = Some (inject_Z (Z.of_nat i) / inject_Z (n - 1))%Q.
Proof.
  intros Hn Hrun Hi. unfold np_linspace01 in Hrun.
  replace (n <? 0) with false in Hrun by lia.
  replace (n =? 1) with false in Hrun by lia.
  injection Hrun as <-.
  rewrite list_lookup_fmap, lookup_seq_lt by exact Hi. reflexivity.
Qed.

Section GetPosnegCoverage.
Variable Score : Type.
Variable average_precision_score : list Z -> list Q -> Score.
Variable balanced_accuracy_score : list Z -> list bool -> Score.
Variable f1_score : list Z -> list bool -> Score.
Variables (y : list Z) (pred_probs : list Q).

Local Abbreviation posneg_of n_points :=
  (get_posneg Score average_precision_score balanced_accuracy_score f1_score
     y pred_probs n_points).

(** The arrays in closed form: entry [i] counts at threshold
    [i / (n_points - 1)]. *)
Lemma get_posneg_entries (n_points : Z) (p : posneg Score) (i : nat) :
  length pred_probs = length y -> 1 < n_points ->
  posneg_of n_points = Ok p -> (i < Z.to_nat n_points)%nat ->
  let thr := (inject_Z (Z.of_nat i) / inject_Z (n_points - 1))%Q in
  TP Score p !! i = Some (predicted true 1 thr y pred_probs)
  /\ FP Score p !! i = Some (predicted true 0 thr y pred_probs)
  /\ TN Score p !! i = Some (predicted false 0 thr y pred_probs)
  /\ FN Score p !! i = Some (predicted false 1 thr y pred_probs).
Proof.
  intros Hlen Hn Hrun Hi thr. unfold get_posneg in Hrun.
  destruct (Nat.eqb (n_unique y) 2); [|discriminate].
  replace (n_points =? 1) with false in Hrun by lia.
  destruct (np_linspace01 n_points) as [tmp|e] eqn:Htmp; [|discriminate].
  simpl in Hrun.
  assert (Hltmp : length tmp = Z.to_nat n_points).
  { unfold np_linspace01 in Htmp.
    replace (n_points <? 0) with false in Htmp by lia.
    replace (n_points =? 1) with false in Htmp by lia.
    injection Htmp as <-. now rewrite length_map, length_seq. }
  destruct (fill_counts_values y pred_probs tmp Hlen 0%nat
              (mkCounts (np_zeros n_points) (np_zeros n_points)
                 (np_zeros n_points) (np_zeros n_points)))
    as (c & Hfill & _ & Hvals & _);
    try (simpl; unfold np_zeros; rewrite length_replicate; lia).
  rewrite Hfill in Hrun. simpl in Hrun. injection Hrun as <-. simpl.
  apply (Hvals i thr). exact (np_linspace01_lookup n_points tmp i Hn Htmp Hi).
Qed.

(** X6.  Along the thresholds of [get_posneg] the counts of true and of
    false positives never grow, and the counts of true and of false
    negatives never shrink. *)
Theorem get_posneg_monotone (n_points : Z) (p : posneg Score) (i j : nat) :
  length pred_probs = length y -> 1 < n_points ->
  get_posneg Score average_precision_score balanced_accuracy_score f1_score
    y pred_probs n_points = Ok p ->
  (i <= j)%nat -> (j < Z.to_nat n_points)%nat ->
  exists tp_i fp_i tn_i fn_i tp_j fp_j tn_j fn_j,
    TP Score p !! i = Some tp_i /\ TP Score p !! j = Some tp_j
    /\ FP Score p !! i = Some fp_i /\ FP Score p !! j = Some fp_j
    /\ TN Score p !! i = Some tn_i /\ TN Score p !! j = Some tn_j
    /\ FN Score p !! i = Some fn_i /\ FN Score p !! j = Some fn_j
    /\ tp_j <= tp_i /\ fp_j <= fp_i /\ tn_i <= tn_j /\ fn_i <= fn_j.
Proof.
  intros Hlen Hn Hrun Hij Hj.
  destruct (get_posneg_entries n_points p i Hlen Hn Hrun ltac:(lia))
    as (A1 & A2 & A3 & A4).
  destruct (get_posneg_entries n_points p j Hlen Hn Hrun Hj)
    as (B1 & B2 & B3 & B4).
  do 8 eexists. repeat (split; [eassumption|]).
  assert (Hthr : (inject_Z (Z.of_nat i) / inject_Z (n_points - 1)
                  <= inject_Z (Z.of_nat j) / inject_Z (n_points - 1))%Q).
  { apply Qmult_le_compat_r.
    - rewrite <- Zle_Qle. lia.
    - apply Qinv_le_0_compat. rewrite <- (Zle_Qle 0). lia. }
  destruct (predicted_monotone 1 _ _ y pred_probs Hthr).
  destruct (predicted_monotone 0 _ _ y pred_probs Hthr).
  repeat split; assumption.
Qed.
(** With a single threshold the four lists hold the counts at 1/2. *)
Lemma get_posneg_single (p : posneg Score) :
  length pred_probs = length y ->
  posneg_of 1 = Ok p ->
  TP Score p = [predicted true 1 (1 # 2) y pred_probs]
  /\ FP Score p = [predicted true 0 (1 # 2) y pred_probs]
  /\ TN Score p = [predicted false 0 (1 # 2) y pred_probs]
  /\ FN Score p = [predicted false 1 (1 # 2) y pred_probs].
Proof.
  intros Hlen Hrun. unfold get_posneg in Hrun.
  destruct (Nat.eqb (n_unique y) 2); [|discriminate].
  change (1 =? 1) with true in Hrun. cbv iota in Hrun.
  rewrite (count_TP_value y pred_probs _ Hlen),
    (count_FP_value y pred_probs _ Hlen),
    (count_TN_value y pred_probs _ Hlen),
    (count_FN_value y pred_probs _ Hlen) in Hrun.
  simpl in Hrun. injection Hrun as <-. simpl. repeat split.
Qed.

(** For two-valued labels, predictions of the same length and a
    non-negative number of points, nothing before the scores raises. *)
Lemma get_posneg_returns (n_points : Z) :
  n_unique y = 2%nat -> length pred_probs = length y -> 0 <= n_points ->
  exists p, posneg_of n_points = Ok p.
Proof.
  intros Hu Hlen Hn. unfold get_posneg. rewrite Hu. simpl.
  destruct (n_points =? 1) eqn:H1.
  - rewrite (count_TP_value y pred_probs _ Hlen),
      (count_FP_value y pred_probs _ Hlen),
      (count_TN_value y pred_probs _ Hlen),
      (count_FN_value y pred_probs _ Hlen). simpl. eexists. reflexivity.
  - unfold np_linspace01. replace (n_points <? 0) with false by lia.
    rewrite H1. simpl.
    edestruct (fill_counts_values y pred_probs) as (c & Hfill & _);
      [exact Hlen| | | | |rewrite Hfill; simpl; eexists; reflexivity];
      simpl; unfold np_zeros; rewrite length_replicate, length_map, length_seq;
      lia.
Qed.

(** X7.  For two-valued labels and at least one threshold, predictions
    whose length differs from that of the labels make [get_posneg] raise
    [IndexError] at its first masked count, before any score is
    computed. *)
Theorem get_posneg_length_mismatch (n_points : Z) :
  n_unique y = 2%nat -> 1 <= n_points -> length pred_probs <> length y ->
  get_posneg Score average_precision_score balanced_accuracy_score f1_score
    y pred_probs n_points = Raise IndexError.
Proof.
  intros Hu Hn Hlen. unfold get_posneg. rewrite Hu. simpl.
  assert (Htp : forall thr, count_TP y pred_probs thr = Raise IndexError).
  { intros thr. unfold count_TP, bool_index, gt_thr, y_is.
    rewrite !length_map. apply Nat.eqb_neq in Hlen. now rewrite Hlen. }
  destruct (n_points =? 1) eqn:H1.
  - now rewrite Htp.
  - unfold np_linspace01. replace (n_points <? 0) with false by lia.
    rewrite H1. simpl.
    destruct (Z.to_nat n_points) as [|n] eqn:Hz; [lia|].
    simpl. now rewrite Htp.
Qed.
End GetPosnegCoverage.

Lemma correct_predictions (y : list Z) : forall pred_probs : list Q,
  (forall v, In v y -> v = 0 \/ v = 1) ->
  np_sum (eq_arrays (gt_thr pred_probs (1 # 2)) y)
  = predicted true 1 (1 # 2) y pred_probs
    + predicted false 0 (1 # 2) y pred_probs.
Proof.
  unfold predicted, eq_arrays, gt_thr.
  induction y as [|v y IH]; intros [|p pred_probs] Hbin; try reflexivity.
  specialize (IH pred_probs (fun w Hw => Hbin w (or_intror Hw))).
  simpl. simpl in IH. rewrite IH.
  destruct (Hbin v (or_introl eq_refl)) as [->| ->];
    destruct (Qle_bool p (1 # 2)); simpl; lia.
Qed.

Section AccAndLlCoverage.
Variables Server Features LogLik Score : Type.
Variable model_predict_mean : Server -> Features -> result (list Q).
Variable bernoulli_loglik : list Q -> list Z -> result LogLik.
Variable average_precision_score : list Z -> list Q -> Score.
Variable balanced_accuracy_score : list Z -> list bool -> Score.
Variable f1_score : list Z -> list bool -> Score.

(** X8.  For labels 0 and 1, both present, and an odd number
    [2 * k + 1] of thresholds whose middle one, as [np.linspace]
    computes it in doubles, is exactly 0.5 (or the single threshold 0.5
    of [n_points = 1]): the accuracy that [acc_and_ll] reports is the
    share of true positives and true negatives that its counts hold at
    that threshold, index [k].  So for the default [n_points = 101],
    and not for 99. *)
Theorem acc_and_ll_accuracy_matches_counts (server : Server) (x : Features)
    (y : list Z) (k : nat) (pred_probs : list Q) (acc : option Q)
    (loglik : LogLik) (pn : option (posneg Score)) :
  (forall v, In v y -> v = 0 \/ v = 1) -> In 0 y -> In 1 y ->
  model_predict_mean server x = Ok pred_probs ->
  length pred_probs = length y ->
  k = 0%nat
  \/ Float64.np_linspace01 (2 * Z.of_nat k + 1) !! k = Some 0.5%float ->
  acc_and_ll Server Features LogLik Score model_predict_mean bernoulli_loglik
    average_precision_score balanced_accuracy_score f1_score server x y
    (2 * Z.of_nat k + 1) = Ok (acc, loglik, pn) ->
  exists p tp tn,
    pn = Some p /\ TP Score p !! k = Some tp /\ TN Score p !! k = Some tn
    /\ acc = Some (inject_Z (tp + tn) / inject_Z (Z.of_nat (length y)))%Q.
Proof.
  intros Hbin H0 H1 Hpred Hlen _ Hrun. unfold acc_and_ll in Hrun.
  rewrite Hpred in Hrun. csimpl in Hrun.
  assert (Hacc : accuracy pred_probs y
                 = Ok (Some (inject_Z (predicted true 1 (1 # 2) y pred_probs
                                       + predicted false 0 (1 # 2) y
                                           pred_probs)
                             / inject_Z (Z.of_nat (length y)))%Q)).
  { unfold accuracy, gt_thr. rewrite length_map, Hlen, Nat.eqb_refl.
    f_equal. rewrite np_mean_Some.
    - fold (gt_thr pred_probs (1 # 2)).
      rewrite (correct_predictions y pred_probs Hbin).
      unfold eq_arrays, gt_thr.
      rewrite length_zip_with, length_map, Hlen, Nat.min_id. reflexivity.
    - destruct y as [|v y]; [contradiction|].
      destruct pred_probs; discriminate. }
  rewrite Hacc in Hrun. csimpl in Hrun.
  destruct (bernoulli_loglik pred_probs y) as [ll|e]; [|discriminate].
  csimpl in Hrun. injection Hrun as <- <- <-.
  pose proof (n_unique_binary y Hbin H0 H1) as Hu.
  destruct (get_posneg_returns Score average_precision_score
              balanced_accuracy_score f1_score y pred_probs
              (2 * Z.of_nat k + 1) Hu Hlen ltac:(lia)) as [p Hp].
  unfold posneg_or_none. rewrite Hu, Hp. simpl.
  exists p. destruct k as [|k].
  - destruct (get_posneg_single Score average_precision_score
                balanced_accuracy_score f1_score y pred_probs p Hlen Hp)
      as (E1 & _ & E3 & _).
    rewrite E1, E3. do 2 eexists. repeat split.
  - destruct (get_posneg_entries Score average_precision_score
                balanced_accuracy_score f1_score y pred_probs
                (2 * Z.of_nat (S k) + 1) p (S k) Hlen ltac:(lia) Hp
                ltac:(lia)) as (E1 & _ & E3 & _).
    assert (Hhalf : (inject_Z (Z.of_nat (S k))
                     / inject_Z (2 * Z.of_nat (S k) + 1 - 1) == 1 # 2)%Q).
    { replace (2 * Z.of_nat (S k) + 1 - 1) with (2 * Z.of_nat (S k)) by lia.
      rewrite inject_Z_mult. field. apply inject_Z_nonzero. lia. }
    rewrite (predicted_compat true 1 _ _ y pred_probs Hhalf) in E1.
    rewrite (predicted_compat false 0 _ _ y pred_probs Hhalf) in E3.
    do 2 eexists. repeat split; [exact E1|exact E3].
Qed.
End AccAndLlCoverage.

(** ** The partition of the examples *)

(** *** Rows keep their labels *)

Lemma zip_omap_lookup {A B} (a : list A) (b : list B) (inds : list nat) :
  Forall (fun i => (i < length a)%nat) inds -> length a = length b ->
  zip (omap (fun i => a !! i) inds) (omap (fun i => b !! i) inds)
  = omap (fun i => zip a b !! i) inds.
Proof.
  intros Hin Hlen. induction Hin as [|i inds Hi _ IH]; [reflexivity|].
  destruct (lookup_lt_is_Some_2 a i Hi) as [va Hva].
  destruct (lookup_lt_is_Some_2 b i ltac:(lia)) as [vb Hvb].
  assert (Hz : zip a b !! i = Some (va, vb)).
  { apply lookup_zip_with_Some. eauto. }
  csimpl. rewrite Hva, Hvb, Hz. simpl. now rewrite IH.
Qed.

Lemma int_index_zip {A B} (a a' : list A) (b b' : list B) (inds : list nat) :
  inds ≡ₚ seq 0 (length a) -> length a = length b ->
  int_index a inds = Ok a' -> int_index b inds = Ok b' ->
  zip a' b' ≡ₚ zip a b.
Proof.
  intros Hperm Hlen Ha Hb.
  assert (Hin : Forall (fun i => (i < length a)%nat) inds).
  { rewrite Hperm. apply Forall_forall. intros i Hi.
    apply elem_of_seq in Hi. lia. }
  rewrite int_index_in_range in Ha by exact Hin.
  rewrite int_index_in_range in Hb by (now rewrite <- Hlen).
  injection Ha as <-. injection Hb as <-.
  rewrite (zip_omap_lookup a b inds Hin Hlen), Hperm.
  replace (length a) with (length (zip a b))
    by (rewrite length_zip_with; lia).
  now rewrite omap_lookup_seq.
Qed.

Lemma int_index_length {A} (a a' : list A) (inds : list nat) :
  int_index a inds = Ok a' -> length a' = length inds.
Proof.
  revert a'. induction inds as [|i inds IH]; intros a' Hrun.
  - now injection Hrun as <-.
  - simpl in Hrun. destruct (a !! i); [|discriminate].
    destruct (int_index a inds) as [vs|e]; [|discriminate].
    injection Hrun as <-. simpl. now rewrite (IH vs).
Qed.

Lemma zip_slices {A B} (k : Z) (a : list A) (b : list B) :
  length a = length b ->
  zip (slice_to k a) (slice_to k b) ++ zip (slice_from k a) (slice_from k b)
  = zip a b.
Proof.
  intros Hlen. unfold slice_to, slice_from. rewrite Hlen.
  destruct (0 <=? k); rewrite <- zip_with_take, <- zip_with_drop;
    apply take_drop.
Qed.

Lemma length_slices {A B} (k : Z) (a : list A) (b : list B) :
  length a = length b ->
  length (slice_to k a) = length (slice_to k b)
  /\ length (slice_from k a) = length (slice_from k b).
Proof.
  intros Hlen. unfold slice_to, slice_from. rewrite Hlen.
  destruct (0 <=? k); rewrite !length_take, !length_drop; lia.
Qed.

Lemma zip_select {A B} (mask : list bool) :
  forall (a : list A) (b : list B),
    length a = length b ->
    zip (select a mask) (select b mask) = select (zip a b) mask.
Proof.
  induction mask as [|m mask IH]; intros [|va a] [|vb b] Hlen;
    try discriminate; try reflexivity.
  simpl in Hlen. injection Hlen as Hlen.
  simpl. destruct m; simpl; now rewrite IH.
Qed.

Lemma select_pos_zero_submseteq {A} (y : list Z) :
  forall l : list A,
    length l = length y ->
    select l (is_pos y) ++ select l (is_zero y) ⊆+ l.
Proof.
  induction y as [|v y IH]; intros [|a l] Hlen; try discriminate.
  - reflexivity.
  - simpl in Hlen. injection Hlen as Hlen. specialize (IH l Hlen). simpl.
    destruct (0 <? v) eqn:Hp, (v =? 0) eqn:Hz; try lia.
    + simpl. now apply submseteq_skip.
    + rewrite <- Permutation_middle. now apply submseteq_skip.
    + now apply submseteq_cons.
Qed.

Lemma all_pairs_app {X} (l k : list (shard X)) :
  all_pairs (l ++ k) = all_pairs l ++ all_pairs k.
Proof. unfold all_pairs. now rewrite map_app, concat_app. Qed.

Section PartitionPairs.
Variable X : Type.
Variable rng : Type.
Variable np_random_seed : Z -> rng.
Variable np_random_permutation : nat -> rng -> list nat * rng.
Hypothesis permutation_spec :
  forall n g, (np_random_permutation n g).1 ≡ₚ seq 0 n.

Lemma populate_small_pairs (pos_size neg_size : Z) (n : nat) :
  forall x_pos y_pos x_neg y_neg client_data g client_data' x_pos' y_pos'
         x_neg' y_neg' g',
    length x_pos = length y_pos -> length x_neg = length y_neg ->
    populate_small X rng np_random_permutation n pos_size neg_size
      x_pos y_pos x_neg y_neg client_data g
    = (Ok (client_data', (x_pos', y_pos', x_neg', y_neg')), g') ->
    exists new,
      client_data' = client_data ++ new
      /\ length x_pos' = length y_pos' /\ length x_neg' = length y_neg'
      /\ all_pairs new ++ zip x_pos' y_pos' ++ zip x_neg' y_neg'
         ≡ₚ zip x_pos y_pos ++ zip x_neg y_neg.
Proof.
  induction n as [|n IH];
    intros x_pos y_pos x_neg y_neg client_data g client_data' x_pos' y_pos'
      x_neg' y_neg' g' Hp Hn Hrun.
  - simpl in Hrun. injection Hrun as <- <- <- <- <- _.
    exists []. rewrite app_nil_r. repeat split; assumption || reflexivity.
  - cbn [populate_small] in Hrun.
    destruct (length_slices pos_size x_pos y_pos Hp) as [Lpt Lpf].
    destruct (length_slices neg_size x_neg y_neg Hn) as [Lnt Lnf].
    pose proof (permutation_spec
                  (length (slice_to pos_size x_pos ++ slice_to neg_size x_neg))
                  g) as Hperm.
    destruct (np_random_permutation _ g) as [shuffle_inds g1].
    simpl in Hperm.
    destruct (int_index (slice_to pos_size x_pos ++ slice_to neg_size x_neg)
                shuffle_inds) as [cx|e] eqn:Hcx;
      [|discriminate].
    destruct (int_index (slice_to pos_size y_pos ++ slice_to neg_size y_neg)
                shuffle_inds) as [cy|e] eqn:Hcy;
      [|discriminate].
    destruct (IH _ _ _ _ _ _ _ _ _ _ _ _ Lpf Lnf Hrun)
      as (new & -> & Hp' & Hn' & Hpairs).
    exists (mkShard cx cy :: new). rewrite <- app_assoc.
    repeat split; try assumption.
    change (all_pairs (mkShard cx cy :: new))
      with (zip cx cy ++ all_pairs new).
    rewrite <- app_assoc, Hpairs.
    assert (Hlen : length (slice_to pos_size x_pos ++ slice_to neg_size x_neg)
                   = length (slice_to pos_size y_pos
                             ++ slice_to neg_size y_neg))
      by (rewrite !length_app; lia).
    rewrite (int_index_zip _ cx _ cy shuffle_inds Hperm Hlen Hcx Hcy).
    rewrite zip_with_app by exact Lpt.
    rewrite <- (zip_slices pos_size x_pos y_pos Hp),
      <- (zip_slices neg_size x_neg y_neg Hn).
    rewrite <- !app_assoc. apply Permutation_app_head.
    rewrite !app_assoc. apply Permutation_app_tail, Permutation_app_comm.
Qed.

Lemma distribute_big_pairs (big_size : Z) (n : nat) :
  forall (x : list X) (y : list Z) client_data,
    length x = length y ->
    exists new x' y',
      distribute_big X n big_size x y client_data = client_data ++ new
      /\ all_pairs new ++ zip x' y' = zip x y.
Proof.
  induction n as [|n IH]; intros x y client_data Hlen.
  - exists [], x, y. simpl. now rewrite app_nil_r.
  - cbn [distribute_big].
    destruct (length_slices big_size x y Hlen) as [Lt Lf].
    destruct (IH (slice_from big_size x) (slice_from big_size y)
                (client_data
                 ++ [mkShard (slice_to big_size x) (slice_to big_size y)]) Lf)
      as (new & x' & y' & -> & Hpairs).
    exists (mkShard (slice_to big_size x) (slice_to big_size y) :: new), x', y'.
    rewrite <- app_assoc. split; [reflexivity|].
    change (all_pairs (mkShard (slice_to big_size x) (slice_to big_size y)
                       :: new))
      with (zip (slice_to big_size x) (slice_to big_size y) ++ all_pairs new).
    rewrite <- app_assoc, Hpairs. now apply zip_slices.
Qed.

(** X9.  Whatever [generate_clients_data] returns, the rows of its
    shards, each with its label, are rows of [(x, y)] with their own
    labels, and no row is handed out more often than the dataset holds
    it. *)
Theorem generate_clients_data_pairs (x : list X) (y : list Z) (M : Z)
    (client_size_factor class_balance_factor : Q) (dataset_seed : option Z)
    (g g' : rng) (client_data : list (shard X)) (N_is : list nat)
    (props_positive : list (option Q)) (M' : Z) :
  length x = length y ->
  generate_clients_data X rng np_random_seed np_random_permutation
    x y M client_size_factor class_balance_factor dataset_seed g
  = (Ok (client_data, N_is, props_positive, M'), g') ->
  all_pairs client_data ⊆+ zip x y.
Proof.
  intros Hxy Hrun. unfold generate_clients_data in Hrun.
  destruct (M =? 1).
  { injection Hrun as <- _ _ _ _. unfold all_pairs. simpl.
    now rewrite app_nil_r. }
  destruct (partition_even _ _ _ _ _ _ _ _ _) as [[r|e] g0] eqn:Hpart;
    [|discriminate].
  injection Hrun as -> _. clear g'. revert Hpart.
  generalize (match dataset_seed with
              | Some s => np_random_seed s
              | None => g
              end). clear g. intros g Hpart.
  unfold partition_even in Hpart.
  destruct (negb (M mod 2 =? 0)); [discriminate|].
  destruct (M =? 0); [discriminate|].
  destruct (np_mean (is_zero y)) as [cb|]; [|discriminate].
  destruct (_ <? 0); [discriminate|].
  destruct (_ <? 0); [discriminate|].
  destruct (negb (Qle_bool _ _)); [discriminate|].
  destruct (negb (Qle_bool _ _)); [discriminate|].
  destruct (negb (Nat.eqb _ _)); [discriminate|].
  assert (Hlp : length y = length (is_pos y))
    by (unfold is_pos; now rewrite length_map).
  assert (Hlz : length y = length (is_zero y))
    by (unfold is_zero; now rewrite length_map).
  rewrite !int_index_np_where in Hpart by congruence.
  destruct (populate_small _ _ _ _ _ _ _ _ _ _ _ _)
    as [[[small [[[xp yp] xn] yn]]|e] g1] eqn:Hsmall; [|discriminate].
  apply populate_small_pairs in Hsmall
    as (new & -> & Hp & Hn & Hpairs);
    [|apply Nat2Z.inj; rewrite !length_select; congruence
     |apply Nat2Z.inj; rewrite !length_select; congruence].
  rewrite app_nil_l in *.
  pose proof (permutation_spec (length (xp ++ xn)) g1) as Hperm.
  destruct (np_random_permutation (length (xp ++ xn)) g1)
    as [shuffle_inds g2]. simpl in Hperm.
  destruct (int_index (xp ++ xn) shuffle_inds) as [x'|e] eqn:Hx';
    [|discriminate].
  destruct (int_index (yp ++ yn) shuffle_inds) as [y'|e] eqn:Hy';
    [|discriminate].
  injection Hpart as <- _ _ _.
  assert (Hlen : length (xp ++ xn) = length (yp ++ yn))
    by (rewrite !length_app; lia).
  pose proof (int_index_zip _ x' _ y' shuffle_inds Hperm Hlen Hx' Hy')
    as Hzip.
  destruct (distribute_big_pairs
              (big_client_size (length x) M client_size_factor)
              (Z.to_nat (M ÷ 2)) x' y' new) as (big & rx & ry & -> & Hbig).
  { rewrite (int_index_length _ _ _ Hx'), (int_index_length _ _ _ Hy').
    reflexivity. }
  rewrite all_pairs_app.
  transitivity (all_pairs new ++ zip x' y').
  { apply submseteq_app; [reflexivity|]. rewrite <- Hbig.
    apply submseteq_inserts_r. reflexivity. }
  rewrite Hzip, zip_with_app by exact Hp. rewrite Hpairs.
  rewrite !zip_select by exact Hxy.
  apply select_pos_zero_submseteq. rewrite length_zip_with. lia.
Qed.
End PartitionPairs.

Section PartitionSizes.
Variable X : Type.
Variable rng : Type.
Variable np_random_seed : Z -> rng.
Variable np_random_permutation : nat -> rng -> list nat * rng.
Hypothesis permutation_spec :
  forall n g, (np_random_permutation n g).1 ≡ₚ seq 0 n.

(** *** The random state on the error path *)

Lemma partition_even_raise_state (x : list X) (y : list Z) (M : Z)
    (client_size_factor class_balance_factor : Q) (g g' : rng) (e : exn) :
  length x = length y ->
  partition_even X rng np_random_permutation x y M client_size_factor
    class_balance_factor g = (Raise e, g') ->
  g' = g.
Proof.
  intros Hxy Hrun. unfold partition_even in Hrun.
  destruct (M mod 2 =? 0) eqn:Heven; [|now injection Hrun]. simpl in Hrun.
  destruct (M =? 0) eqn:HM0; [now injection Hrun|].
  destruct (np_mean (is_zero y)) as [cb|] eqn:Hmean; [|now injection Hrun].
  assert (Hy : y <> []) by (intros ->; discriminate).
  rewrite (np_mean_is_zero y Hy) in Hmean. injection Hmean as <-.
  rewrite <- Hxy in Hrun.
  set (N := length x) in Hrun.
  set (cb := (inject_Z (np_sum (is_zero y)) / inject_Z (Z.of_nat N))%Q) in Hrun.
  set (pos_size := small_client_positive_class_size N M client_size_factor
                     cb class_balance_factor) in Hrun.
  set (neg_size := small_client_negative_class_size N M client_size_factor
                     cb class_balance_factor) in Hrun.
  destruct (neg_size <? 0) eqn:Hneg0; [now injection Hrun|].
  destruct (pos_size <? 0) eqn:Hpos0; [now injection Hrun|].
  assert (HN : (0 < N)%nat)
    by (subst N; rewrite Hxy; destruct y; simpl; [congruence|lia]).
  destruct (Qle_bool (inject_Z neg_size * inject_Z M / 2) _) eqn:Hneg;
    [|now injection Hrun].
  destruct (Qle_bool (inject_Z pos_size * inject_Z M / 2) _) eqn:Hpos;
    [|now injection Hrun].
  simpl in Hrun.
  apply enough_negative_iff in Hneg; [|lia].
  apply enough_positive_iff in Hpos; [|lia].
  destruct (negb _) eqn:Hassert in Hrun; [now injection Hrun|].
  exfalso.
  apply negb_false_iff, Nat.eqb_eq in Hassert. unfold np_where in Hassert.
  assert (Hcount : np_sum (is_pos y) + np_sum (is_zero y) = Z.of_nat N).
  { rewrite <- (length_np_where_from (is_pos y) 0),
      <- (length_np_where_from (is_zero y) 0). subst N. lia. }
  rewrite !int_index_np_where in Hrun
    by (unfold is_pos, is_zero; rewrite length_map; congruence).
  set (n := Z.to_nat (M ÷ 2)) in *.
  assert (Hzn : Z.of_nat n * neg_size <= np_sum (is_zero y)
                /\ Z.of_nat n * pos_size <= np_sum (is_pos y)).
  { subst n. destruct (Z.le_gt_cases M 0) as [Hle|Hgt].
    - replace (Z.to_nat (M ÷ 2)) with 0%nat.
      + pose proof (np_sum_nonneg (is_zero y)).
        pose proof (np_sum_nonneg (is_pos y)). lia.
      + pose proof (Z.quot_le_mono M 0 2). change (0 ÷ 2) with 0 in *. lia.
    - apply Z.eqb_eq in Heven.
      rewrite Z.quot_div_nonneg, Z2Nat.id by (try apply Z.div_pos; lia).
      pose proof (Z.div_mod M 2). nia. }
  destruct Hzn as [Hzn Hpn].
  destruct (populate_small_spec X rng np_random_permutation permutation_spec
              pos_size neg_size n ltac:(lia) ltac:(lia)
              (select x (is_pos y)) (select y (is_pos y))
              (select x (is_zero y)) (select y (is_zero y)) [] g)
    as (small & xp & yp & xn & yn & g1 & Hsmall & _ & _ & Hxp & Hxn & _).
  - apply Nat2Z.inj.
    rewrite !length_select; unfold is_pos; rewrite ?length_map; congruence.
  - apply Nat2Z.inj.
    rewrite !length_select; unfold is_zero; rewrite ?length_map; congruence.
  - rewrite length_select by (unfold is_pos; now rewrite length_map).
    exact Hpn.
  - rewrite length_select by (unfold is_zero; now rewrite length_map).
    exact Hzn.
  - apply select_is_pos.
  - apply select_is_zero.
  - rewrite Hsmall in Hrun. simpl in Hrun.
    pose proof (permutation_spec (length (xp ++ xn)) g1) as Hperm.
    destruct (np_random_permutation (length (xp ++ xn)) g1)
      as [shuffle_inds g2]. simpl in Hperm.
    destruct (int_index_permutation (xp ++ xn) shuffle_inds Hperm)
      as (x' & Hx' & _).
    assert (Hperm' : shuffle_inds ≡ₚ seq 0 (length (yp ++ yn)))
      by (rewrite Hperm, !length_app, Hxp, Hxn; reflexivity).
    destruct (int_index_permutation (yp ++ yn) shuffle_inds Hperm')
      as (y' & Hy' & _).
    rewrite Hx', Hy' in Hrun. discriminate.
Qed.

(** X11.  When [generate_clients_data] raises, for [x] and [y] of equal
    length, no shuffle has been drawn and the state saved on entry has
    not been put back: with a seed given the global random state is left
    as [np.random.seed(dataset_seed)] set it, without one it is
    untouched. *)
Theorem generate_clients_data_raise_state (x : list X) (y : list Z) (M : Z)
    (client_size_factor class_balance_factor : Q) (dataset_seed : option Z)
    (g g' : rng) (e : exn) :
  length x = length y ->
  generate_clients_data X rng np_random_seed np_random_permutation
    x y M client_size_factor class_balance_factor dataset_seed g
  = (Raise e, g') ->
  g' = match dataset_seed with
       | Some s => np_random_seed s
       | None => g
       end.
Proof.
  intros Hxy Hrun. unfold generate_clients_data in Hrun.
  destruct (M =? 1); [discriminate|].
  destruct (partition_even _ _ _ _ _ _ _ _ _) as [[r|e0] g0] eqn:Hpart;
    [discriminate|].
  injection Hrun as _ <-.
  exact (partition_even_raise_state _ _ _ _ _ _ _ _ Hxy Hpart).
Qed.
End PartitionSizes.

(** ** The partitioner in IEEE doubles *)

Lemma Float64_sizes_nonneg (N : nat) (y : list Z) (M : Z)
    (client_size_factor class_balance_factor : float) (pos neg big : Z) :
  Float64.sizes N y M client_size_factor class_balance_factor
  = Ok (pos, neg, big) ->
  0 <= pos /\ 0 <= neg.
Proof.
  unfold Float64.sizes. intros Hsizes.
  destruct (M =? 0); [discriminate|].
  destruct (Float64.small_client_size N M client_size_factor) as [s|e];
    [|discriminate].
  destruct (Float64.big_client_size N M client_size_factor) as [b|e];
    [|discriminate].
  csimpl in Hsizes.
  destruct (Float64.small_client_negative_class_size s _ _) as [n|e];
    [|discriminate].
  csimpl in Hsizes.
  destruct (n <? 0) eqn:Hn; [discriminate|].
  destruct (Float64.small_client_positive_class_size s n <? 0) eqn:Hp;
    [discriminate|].
  destruct (Float64.half_of_int (n * M)) as [needed|e]; [|discriminate].
  csimpl in Hsizes.
  destruct (PrimFloat.ltb _ needed); [discriminate|].
  destruct (Float64.half_of_int _) as [needed'|e]; [|discriminate].
  csimpl in Hsizes.
  destruct (PrimFloat.ltb _ needed'); [discriminate|].
  injection Hsizes as <- <- <-. lia.
Qed.

Section Float64Partition.
Variable X : Type.
Variable rng : Type.
Variable np_random_seed : Z -> rng.
Variable np_random_permutation : nat -> rng -> list nat * rng.
Hypothesis permutation_spec :
  forall n g, (np_random_permutation n g).1 ≡ₚ seq 0 n.

(** With room for every slice, the rows are dealt out in full. *)
Lemma Float64_deal_ok (x : list X) (y : list Z) (M pos neg big : Z)
    (g g' : rng) (client_data : list (shard X)) :
  length x = length y ->
  let n := Z.to_nat (M ÷ 2) in
  0 <= pos -> 0 <= neg -> 0 <= big ->
  Z.of_nat n * pos <= np_sum (is_pos y) ->
  Z.of_nat n * neg <= np_sum (is_zero y) ->
  Z.of_nat n * (pos + neg + big) <= Z.of_nat (length y) ->
  Float64.deal X rng np_random_permutation x y M pos neg big g
  = (Ok client_data, g') ->
  exists small large,
    client_data = small ++ large
    /\ length small = n /\ length large = n
    /\ Forall (shard_of (pos + neg) pos) small
    /\ Forall (fun d => Z.of_nat (length (shard_x d)) = big
                        /\ Z.of_nat (length (shard_y d)) = big) large.
Proof.
  intros Hxy n Hpos Hneg Hbig Hpn Hzn Hroom Hrun.
  unfold Float64.deal in Hrun.
  destruct (negb _) eqn:Hassert in Hrun; [discriminate|].
  apply negb_false_iff, Nat.eqb_eq in Hassert. unfold np_where in Hassert.
  assert (Hcount : np_sum (is_pos y) + np_sum (is_zero y)
                   = Z.of_nat (length y)).
  { rewrite <- (length_np_where_from (is_pos y) 0),
      <- (length_np_where_from (is_zero y) 0). lia. }
  rewrite !int_index_np_where in Hrun
    by (unfold is_pos, is_zero; rewrite length_map; congruence).
  fold n in Hrun.
  destruct (populate_small_spec X rng np_random_permutation permutation_spec
              pos neg n Hpos Hneg
              (select x (is_pos y)) (select y (is_pos y))
              (select x (is_zero y)) (select y (is_zero y)) [] g)
    as (small & xp & yp & xn & yn & g1 & Hsmall & Hlen & Hall & Hxp & Hxn
        & Hyp & Hyn).
  - apply Nat2Z.inj.
    rewrite !length_select; unfold is_pos; rewrite ?length_map; congruence.
  - apply Nat2Z.inj.
    rewrite !length_select; unfold is_zero; rewrite ?length_map; congruence.
  - rewrite length_select by (unfold is_pos; now rewrite length_map).
    exact Hpn.
  - rewrite length_select by (unfold is_zero; now rewrite length_map).
    exact Hzn.
  - apply select_is_pos.
  - apply select_is_zero.
  - rewrite Hsmall in Hrun. simpl in Hrun.
    rewrite !length_select in Hyp, Hyn
      by (unfold is_pos, is_zero; now rewrite length_map).
    pose proof (permutation_spec (length (xp ++ xn)) g1) as Hperm.
    destruct (np_random_permutation (length (xp ++ xn)) g1)
      as [shuffle_inds g2]. simpl in Hperm.
    destruct (int_index_permutation (xp ++ xn) shuffle_inds Hperm)
      as (x' & Hx' & Hpx).
    assert (Hperm' : shuffle_inds ≡ₚ seq 0 (length (yp ++ yn)))
      by (rewrite Hperm, !length_app, Hxp, Hxn; reflexivity).
    destruct (int_index_permutation (yp ++ yn) shuffle_inds Hperm')
      as (y' & Hy' & Hpy).
    rewrite Hx', Hy' in Hrun.
    destruct (distribute_big_spec X big n Hbig x' y' small)
      as (large & Hdist & Hnb & Hallb).
    + rewrite (Permutation_length Hpx), (Permutation_length Hpy),
        !length_app. congruence.
    + rewrite (Permutation_length Hpy), length_app. nia.
    + rewrite Hdist in Hrun. injection Hrun as <- _.
      exists small, large. repeat split; assumption.
Qed.

(** X10.  The double computation of the sizes, for a call that returns
    with [M <> 1]: when the dataset holds the positive and the
    zero-labelled rows that the [M / 2] small clients are to get and the
    rows that all clients are to get, [N_is] is [M / 2] times the small
    client size followed by [M / 2] times the big one, and each of the
    first [M / 2] shards has the small client size and holds exactly
    [small_client_positive_class_size] positive examples, all as the
    code computes them. *)
Theorem generate_clients_data_sizes (x : list X) (y : list Z) (M : Z)
    (client_size_factor class_balance_factor : float)
    (dataset_seed : option Z) (g g' : rng) (client_data : list (shard X))
    (N_is : list nat) (props_positive : list float) (M' pos neg big : Z) :
  length x = length y -> M <> 1 ->
  Float64.generate_clients_data X rng np_random_seed np_random_permutation
    x y M client_size_factor class_balance_factor dataset_seed g
  = (Ok (client_data, N_is, props_positive, M'), g') ->
  Float64.sizes (length x) y M client_size_factor class_balance_factor
  = Ok (pos, neg, big) ->
  let half := Z.to_nat (M ÷ 2) in
  0 <= big ->
  Z.of_nat half * pos <= np_sum (is_pos y) ->
  Z.of_nat half * neg <= np_sum (is_zero y) ->
  Z.of_nat half * (pos + neg + big) <= Z.of_nat (length x) ->
  N_is = replicate half (Z.to_nat (pos + neg)) ++ replicate half (Z.to_nat big)
  /\ forall i d,
       (i < half)%nat -> client_data !! i = Some d ->
       np_sum (is_pos (shard_y d)) = pos
       /\ Z.of_nat (length (shard_y d)) = pos + neg.
Proof.
  intros Hxy HM Hrun Hsizes half Hbig Hpn Hzn Hroom.
  destruct (Float64_sizes_nonneg _ _ _ _ _ _ _ _ Hsizes) as [Hpos Hneg].
  unfold Float64.generate_clients_data in Hrun.
  replace (M =? 1) with false in Hrun by lia.
  destruct (Float64.partition_even _ _ _ _ _ _ _ _ _) as [[r|e] g0] eqn:Hpart;
    [|discriminate].
  injection Hrun as -> _.
  unfold Float64.partition_even in Hpart.
  destruct (negb (M mod 2 =? 0)); [discriminate|].
  rewrite Hsizes in Hpart.
  destruct (Float64.deal _ _ _ _ _ _ _ _ _ _) as [[cd|e] g1] eqn:Hdeal;
    [|discriminate].
  injection Hpart as <- <- _ _ _.
  destruct (Float64_deal_ok x y M pos neg big _ g1 cd Hxy Hpos Hneg Hbig Hpn
              Hzn ltac:(rewrite <- Hxy; exact Hroom) Hdeal)
    as (small & large & -> & Hls & Hll & Hsmall & Hlarge).
  fold half in Hls, Hll. split.
  - rewrite map_app. f_equal.
    + rewrite <- Hls. clear - Hsmall.
      induction Hsmall as [|d l (Hd & _) _ IH]; [reflexivity|].
      simpl. f_equal; [lia|exact IH].
    + rewrite <- Hll. now apply shard_sizes_replicate.
  - intros i d Hi Hd. rewrite lookup_app_l in Hd by lia.
    apply list_elem_of_lookup_2 in Hd. rewrite Forall_forall in Hsmall.
    destruct (Hsmall d Hd) as (_ & Hy & Hp). now split.
Qed.
End Float64Partition.

Section Float64Exact.
Variable X : Type.
Variable rng : Type.
Variable np_random_seed : Z -> rng.
Variable np_random_permutation : nat -> rng -> list nat * rng.

(** Where the doubles give the sizes of exact arithmetic and pass the
    checks, the call in doubles returns what the call in exact
    arithmetic returns: the same shards and sizes, and the same random
    state. *)
Lemma Float64_generate_clients_data_exact (x : list X) (y : list Z) (M : Z)
    (client_size_factor class_balance_factor : Q)
    (client_size_factor' class_balance_factor' : float)
    (dataset_seed : option Z) (g g' : rng) (client_data : list (shard X))
    (N_is : list nat) (props_positive : list (option Q)) (M' : Z) :
  M <> 1 ->
  generate_clients_data X rng np_random_seed np_random_permutation x y M
    client_size_factor class_balance_factor dataset_seed g
  = (Ok (client_data, N_is, props_positive, M'), g') ->
  (forall class_balance,
     np_mean (is_zero y) = Some class_balance ->
     Float64.sizes (length x) y M client_size_factor' class_balance_factor'
     = Ok (small_client_positive_class_size (length x) M client_size_factor
             class_balance class_balance_factor,
           small_client_negative_class_size (length x) M client_size_factor
             class_balance class_balance_factor,
           big_client_size (length x) M client_size_factor)) ->
  Float64.generate_clients_data X rng np_random_seed np_random_permutation
    x y M client_size_factor' class_balance_factor' dataset_seed g
  = (Ok (client_data, N_is,
         map (fun d => Float64.np_mean (is_pos (shard_y d))) client_data, M'),
     g').
Proof.
  intros HM Hrun Hsizes.
  unfold generate_clients_data in Hrun.
  unfold Float64.generate_clients_data.
  replace (M =? 1) with false in * by lia.
  set (g0 := match dataset_seed with Some s => np_random_seed s | None => g end)
    in *.
  destruct (partition_even _ _ _ _ _ _ _ _ _) as [[r|e] g1] eqn:Hpart;
    [|discriminate].
  injection Hrun as -> <-.
  unfold partition_even in Hpart. unfold Float64.partition_even.
  destruct (negb (M mod 2 =? 0)); [discriminate|].
  destruct (M =? 0); [discriminate|].
  destruct (np_mean (is_zero y)) as [cb|] eqn:Hmean; [|discriminate].
  rewrite (Hsizes cb eq_refl).
  destruct (_ <? 0); [discriminate|].
  destruct (_ <? 0); [discriminate|].
  destruct (negb (Qle_bool _ _)); [discriminate|].
  destruct (negb (Qle_bool _ _)); [discriminate|].
  unfold Float64.deal.
  destruct (negb (Nat.eqb _ _)); [discriminate|].
  destruct (int_index y (np_where (is_pos y))) as [y_pos|e]; [|discriminate].
  destruct (int_index y (np_where (is_zero y))) as [y_neg|e];
    [|discriminate].
  destruct (int_index x (np_where (is_pos y))) as [x_pos|e]; [|discriminate].
  destruct (int_index x (np_where (is_zero y))) as [x_neg|e];
    [|discriminate].
  destruct (populate_small _ _ _ _ _ _ _ _ _ _ _ _)
    as [[[cd [[[xp yp] xn] yn]]|e] g2]; [|discriminate].
  destruct (np_random_permutation _ g2) as [shuffle_inds g3].
  destruct (int_index (xp ++ xn) shuffle_inds) as [x'|e]; [|discriminate].
  destruct (int_index (yp ++ yn) shuffle_inds) as [y'|e]; [|discriminate].
  injection Hpart as <- <- <- <- <-. reflexivity.
Qed.
End Float64Exact.


(** ** The MNIST split, the learning-rate schedule and the server *)

(** *** The balanced split of MNIST *)

Lemma range_len_spec (start stop step t : nat) :
  (1 <= step)%nat ->
  (t < range_len start stop step)%nat <-> (start + t * step < stop)%nat.
Proof.
  intros Hstep. unfold range_len. split.
  - intros Ht.
    assert (H : (step * S t <= stop - start + step - 1)%nat).
    { etransitivity; [|apply (Nat.Div0.mul_div_le _ step)].
      apply Nat.mul_le_mono_l. lia. }
    nia.
  - intros Ht. apply (Nat.lt_le_trans _ (S t)); [lia|].
    apply Nat.div_le_lower_bound; [lia|]. nia.
Qed.

Lemma range_len_within_one (i j n k : nat) :
  (1 <= k)%nat -> (i < k)%nat -> (j < k)%nat ->
  (range_len i n k <= range_len j n k + 1)%nat.
Proof.
  intros Hk Hi Hj.
  destruct (range_len i n k) as [|[|c]] eqn:Hc; [lia|lia|].
  assert (H : (S c < range_len i n k)%nat) by lia.
  apply range_len_spec in H; [|exact Hk].
  assert (H' : (c < range_len j n k)%nat)
    by (apply range_len_spec; [exact Hk|nia]).
  lia.
Qed.

Lemma omap_fmap_compose {A B C} (f : B -> option C) (g : A -> B) (l : list A) :
  omap f (map g l) = omap (fun a => f (g a)) l.
Proof.
  induction l as [|a l IH]; [reflexivity|]. csimpl. now rewrite IH.
Qed.

Lemma omap_concat {A B} (f : A -> option B) (ls : list (list A)) :
  omap f (concat ls) = concat (map (omap f) ls).
Proof.
  induction ls as [|l ls IH]; [reflexivity|].
  simpl. now rewrite omap_app, IH.
Qed.

Lemma length_omap_lookup {A} (a : list A) (inds : list nat) :
  Forall (fun i => (i < length a)%nat) inds ->
  length (omap (fun i => a !! i) inds) = length inds.
Proof.
  induction 1 as [|i inds Hi _ IH]; [reflexivity|].
  destruct (lookup_lt_is_Some_2 a i Hi) as [v Hv].
  csimpl. rewrite Hv. simpl. now rewrite IH.
Qed.

(** The row numbers [start], [start + step], ... below [n]. *)
Local Abbreviation strided_indices start step n :=
  (map (fun t => (start + t * step)%nat) (seq 0 (range_len start n step))).

Lemma strided_as_indices {A} (start step : nat) (a : list A) :
  strided start step a
  = omap (fun i => a !! i) (strided_indices start step (length a)).
Proof. unfold strided. now rewrite omap_fmap_compose. Qed.

Lemma elem_of_strided_indices (start step n j : nat) :
  (1 <= step)%nat ->
  j ∈ strided_indices start step n
  <-> (j < n)%nat /\ exists t, j = (start + t * step)%nat.
Proof.
  intros Hstep. rewrite list_elem_of_fmap. split.
  - intros (t & -> & Ht). apply elem_of_seq in Ht.
    split; [|now exists t]. apply range_len_spec; [exact Hstep|lia].
  - intros (Hj & t & ->). exists t. split; [reflexivity|].
    apply elem_of_seq. split; [lia|]. simpl.
    now apply range_len_spec.
Qed.

Lemma elem_of_concat {A} (v : A) (ls : list (list A)) :
  v ∈ concat ls <-> exists l, l ∈ ls /\ v ∈ l.
Proof.
  induction ls as [|l ls IH]; simpl.
  - split; [intros H; inversion H|intros (l & H & _); inversion H].
  - rewrite elem_of_app, IH. split.
    + intros [H|(l' & H1 & H2)].
      * exists l. split; [left|exact H].
      * exists l'. split; [now right|exact H2].
    + intros (l' & H1 & H2). apply elem_of_cons in H1 as [->|H1].
      * now left.
      * right. now exists l'.
Qed.

Lemma NoDup_strided_indices (k n len s : nat) :
  (1 <= k)%nat -> (s + len <= k)%nat ->
  NoDup (concat (map (fun i => strided_indices i k n) (seq s len))).
Proof.
  intros Hk. revert s. induction len as [|len IH]; intros s Hs.
  - constructor.
  - cbn [seq map concat]. apply NoDup_app. split; [|split].
    + apply NoDup_fmap_2_strong; [|apply NoDup_seq].
      intros t t' _ _ H. nia.
    + intros j Hj Hj'. apply elem_of_strided_indices in Hj as (_ & t & ->);
        [|exact Hk].
      apply elem_of_concat in Hj' as (l & Hl & Hj').
      apply list_elem_of_fmap in Hl as (i & -> & Hi).
      apply elem_of_seq in Hi.
      apply elem_of_strided_indices in Hj' as (_ & t' & Ht'); [|exact Hk].
      assert (Hmod : ((s + t * k) mod k = (i + t' * k) mod k)%nat)
        by now rewrite Ht'.
      rewrite !Nat.Div0.mod_add in Hmod.
      rewrite !Nat.mod_small in Hmod by lia. lia.
    + apply IH. lia.
Qed.

Lemma strided_indices_cover (k n : nat) :
  (1 <= k)%nat ->
  concat (map (fun i => strided_indices i k n) (seq 0 k)) ≡ₚ seq 0 n.
Proof.
  intros Hk. apply NoDup_Permutation.
  - apply NoDup_strided_indices; lia.
  - apply NoDup_seq.
  - intros j. rewrite elem_of_concat, elem_of_seq. split.
    + intros (l & Hl & Hj). apply list_elem_of_fmap in Hl as (i & -> & _).
      apply elem_of_strided_indices in Hj as (Hj & _); [lia|exact Hk].
    + intros [_ Hj]. exists (strided_indices (j mod k) k n). split.
      * apply list_elem_of_fmap. exists (j mod k)%nat. split; [reflexivity|].
        apply elem_of_seq. pose proof (Nat.mod_upper_bound j k). lia.
      * apply elem_of_strided_indices; [exact Hk|]. split; [lia|].
        exists (j / k)%nat. pose proof (Nat.div_mod_eq j k). lia.
Qed.

Lemma strided_cover {A} (k : nat) (a : list A) :
  (1 <= k)%nat ->
  concat (map (fun i => strided i k a) (seq 0 k)) ≡ₚ a.
Proof.
  intros Hk.
  rewrite (map_ext _ (fun i => omap (fun j => a !! j)
                                 (strided_indices i k (length a))))
    by (intros i; apply strided_as_indices).
  rewrite <- (map_map (fun i => strided_indices i k (length a))
                (omap (fun j => a !! j))).
  rewrite <- omap_concat, (strided_indices_cover k (length a) Hk).
  now rewrite omap_lookup_seq.
Qed.

Lemma strided_in_range (start step n : nat) (perm : list nat) :
  Forall (fun i => (i < n)%nat) perm ->
  Forall (fun i => (i < n)%nat) (strided start step perm).
Proof.
  intros Hperm. rewrite Forall_forall in *. intros i Hi.
  unfold strided in Hi. apply list_elem_of_omap in Hi as (t & _ & Ht).
  apply Hperm. eapply list_elem_of_lookup_2, Ht.
Qed.

Lemma length_strided {A} (start step : nat) (a : list A) :
  (1 <= step)%nat ->
  length (strided start step a) = range_len start (length a) step.
Proof.
  intros Hstep. rewrite strided_as_indices, length_omap_lookup.
  - now rewrite length_map, length_seq.
  - apply Forall_forall. intros j Hj.
    now apply elem_of_strided_indices in Hj as [Hj _].
Qed.

Section MnistBalancedSplitProperties.
Variable X : Type.
Variable rng : Type.
Variable np_random_permutation : nat -> rng -> list nat * rng.
Hypothesis permutation_spec :
  forall n g, (np_random_permutation n g).1 ≡ₚ seq 0 n.

(** The shard cut for client [i_client]. *)
Local Abbreviation dealt x y perm k :=
  (fun i_client : nat =>
     mkShard (omap (fun j => x !! j) (strided i_client k perm))
             (omap (fun j => y !! j) (strided i_client k perm))).

Lemma balanced_loop_spec (x : list X) (y : list Z) (perm : list nat)
    (k : nat) :
  length x = length y ->
  Forall (fun i => (i < length x)%nat) perm ->
  forall len s client_data,
    length client_data = s ->
    balanced_loop X (seq s len) perm x y k client_data
      (map (fun d => length (shard_y d)) client_data ++ replicate len 0%nat)
    = Ok (client_data ++ map (dealt x y perm k) (seq s len),
          map (fun d => length (shard_y d))
              (client_data ++ map (dealt x y perm k) (seq s len))).
Proof.
  intros Hxy Hperm. induction len as [|len IH]; intros s client_data Hs.
  - simpl. now rewrite !app_nil_r.
  - cbn [seq balanced_loop].
    pose proof (strided_in_range s k (length x) perm Hperm) as Hin.
    assert (Hin' : Forall (fun i => (i < length y)%nat) (strided s k perm))
      by now rewrite <- Hxy.
    rewrite (int_index_in_range x _ Hin), (int_index_in_range y _ Hin').
    csimpl.
    set (sizes := map (fun d => length (shard_y d)) client_data).
    assert (Hsizes : length sizes = s) by (unfold sizes; now rewrite length_map).
    assert (Hlt : (s <? length (sizes ++ 0%nat :: replicate len 0%nat))%nat
                  = true).
    { apply Nat.ltb_lt. rewrite length_app. cbn [length]. lia. }
    rewrite Hlt, insert_app_r_alt by lia.
    rewrite Hsizes, Nat.sub_diag. cbn [insert list_insert]. unfold sizes.
    specialize (IH (S s) (client_data ++ [dealt x y perm k s])).
    rewrite length_app, map_app in IH. cbn [map shard_y length] in IH.
    rewrite <- !app_assoc in IH. cbn [app] in IH.
    apply IH. lia.
Qed.

(** X12.  The balanced split of MNIST for [num_clients >= 1] and a
    training set with as many images as labels: it returns
    [num_clients] shards and their sizes [N]; every training example,
    with its own label, lands in exactly one shard; and the sizes of any
    two shards differ by at most one. *)
Theorem mnist_balanced_split_partition (x : list X) (y : list Z)
    (num_clients : Z) (g : rng) :
  length x = length y -> 1 <= num_clients ->
  exists client_data N,
    mnist_balanced_split X rng np_random_permutation x y num_clients g
    = (Ok (client_data, N), (np_random_permutation (length y) g).2)
    /\ length client_data = Z.to_nat num_clients
    /\ N = map (fun d => length (shard_x d)) client_data
    /\ all_pairs client_data ≡ₚ zip x y
    /\ forall i j n_i n_j,
         N !! i = Some n_i -> N !! j = Some n_j -> (n_i <= n_j + 1)%nat.
Proof.
  intros Hxy Hk. unfold mnist_balanced_split.
  replace (num_clients <? 0) with false by lia.
  pose proof (permutation_spec (length y) g) as Hperm.
  destruct (np_random_permutation (length y) g) as [perm g'].
  simpl in Hperm. cbn [snd].
  set (k := Z.to_nat num_clients).
  assert (Hk' : (1 <= k)%nat) by (unfold k; lia).
  assert (Hin : Forall (fun i => (i < length x)%nat) perm).
  { rewrite Hperm. apply Forall_forall. intros i Hi.
    apply elem_of_seq in Hi. lia. }
  pose proof (balanced_loop_spec x y perm k Hxy Hin k 0%nat [] eq_refl)
    as Hloop.
  cbn [map app] in Hloop.
  exists (map (dealt x y perm k) (seq 0 k)),
         (map (fun d => length (shard_y d))
              (map (dealt x y perm k) (seq 0 k))).
  assert (Hlens : forall i,
             length (omap (fun j => x !! j) (strided i k perm))
             = range_len i (length y) k
             /\ length (omap (fun j => y !! j) (strided i k perm))
                = range_len i (length y) k).
  { intros i.
    pose proof (strided_in_range i k (length x) perm Hin) as Hi.
    rewrite !length_omap_lookup by (try rewrite <- Hxy; exact Hi).
    rewrite length_strided by exact Hk'.
    now rewrite (Permutation_length Hperm), length_seq. }
  split; [now rewrite Hloop|]. split; [now rewrite length_map, length_seq|].
  split; [|split].
  - rewrite !map_map. apply map_ext. intros i. cbn [shard_x shard_y].
    destruct (Hlens i) as [-> ->]. reflexivity.
  - unfold all_pairs. rewrite map_map.
    rewrite (map_ext _ (fun i => omap (fun j => zip x y !! j)
                                   (strided i k perm))).
    + rewrite <- (map_map (fun i => strided i k perm)
                    (omap (fun j => zip x y !! j))).
      rewrite <- omap_concat, (strided_cover k perm Hk'), Hperm.
      replace (length y) with (length (zip x y))
        by (rewrite length_zip_with; lia).
      now rewrite omap_lookup_seq.
    + intros i. unfold shard_pairs. cbn [shard_x shard_y].
      apply zip_omap_lookup; [|exact Hxy].
      exact (strided_in_range i k (length x) perm Hin).
  - intros i j n_i n_j Hi Hj.
    rewrite !map_map in Hi, Hj. cbn [shard_y] in Hi, Hj.
    apply list_lookup_fmap_Some in Hi as (i' & -> & Hi).
    apply list_lookup_fmap_Some in Hj as (j' & -> & Hj).
    apply lookup_seq in Hi as [-> Hi]. apply lookup_seq in Hj as [-> Hj].
    simpl. destruct (Hlens i) as [_ ->]. destruct (Hlens j) as [_ ->].
    now apply range_len_within_one.
Qed.
End MnistBalancedSplitProperties.

(** *** The learning-rate schedule *)

(** X13.  The learning-rate schedule of [main]: the scheduler stays in
    use exactly when it was asked for and there are more than five
    global updates; it is then given two milestones, strictly increasing
    and strictly between 0 and [n_global_updates]; it is given none when
    it is off; and the 'Disabling multistep lr scheduler' line is never
    logged, the flag being cleared before it is tested. *)
Theorem lr_scheduler_setup_milestones (use_lr_scheduler : bool)
    (n_global_updates : Z) :
  let '(used, milestones, log) :=
    lr_scheduler_setup use_lr_scheduler n_global_updates in
  (used = true <-> use_lr_scheduler = true /\ 5 < n_global_updates)
  /\ (used = false <-> milestones = None)
  /\ (forall ms, milestones = Some ms ->
        exists first second,
          ms = [first; second]
          /\ 0 < first /\ first < second /\ second < n_global_updates)
  /\ ~ In DisablingScheduler log.
Proof.
  unfold lr_scheduler_setup.
  destruct use_lr_scheduler, (5 <? n_global_updates) eqn:Hn; cbn.
  - apply Z.ltb_lt in Hn. split; [|split; [|split]].
    + split; [now split|reflexivity].
    + split; discriminate.
    + intros ms [= <-].
      exists (n_global_updates / 2), (n_global_updates - 2).
      split; [reflexivity|].
      pose proof (Z.div_mod n_global_updates 2 ltac:(lia)).
      pose proof (Z.mod_pos_bound n_global_updates 2 ltac:(lia)). lia.
    + intros [H|[]]. discriminate.
  - apply Z.ltb_ge in Hn. split; [|split; [|split]].
    + split; [discriminate|]. intros [_ H]. lia.
    + split; reflexivity.
    + intros ms Hms. discriminate.
    + intros [].
  - split; [|split; [|split]].
    + split; [discriminate|]. intros [H _]. discriminate.
    + split; reflexivity.
    + intros ms Hms. discriminate.
    + intros [].
  - split; [|split; [|split]].
    + split; [discriminate|]. intros [H _]. discriminate.
    + split; reflexivity.
    + intros ms Hms. discriminate.
    + intros [].
Qed.

(** *** The server *)

(** X14.  After the argument checks of [main] have passed,
    [ChosenServer] is bound whenever it is called (no
    [UnboundLocalError]); building the server raises exactly for model
    ['pvi'] with a server type other than ['synchronous'] and
    ['sequential']; the committee machines run one iteration instead of
    [n_global_updates]; and ['global_vi'] sets [args.clients] to 1. *)
Theorem main_server_chosen (args : Args) (server : string)
    (n_global_updates clients : Z) :
  is_raise (main_arg_checks args) = false ->
  (forall var,
     main_server args server n_global_updates clients
     <> Raise (UnboundLocalError var))
  /\ (is_raise (main_server args server n_global_updates clients) = true
      <-> model args = "pvi"
          /\ server <> "synchronous" /\ server <> "sequential")
  /\ (forall cls max_iterations clients',
        main_server args server n_global_updates clients
        = Ok (cls, max_iterations, clients') ->
        max_iterations
        = (if str_in (model args) ["bcm_same"; "bcm_split"] then 1
           else n_global_updates)
        /\ clients'
           = (if String.eqb (model args) "global_vi" then 1 else clients)).
Proof.
  intros Hchecks. unfold main_server.
  assert (Hmodel : In (model args) ["pvi"; "bcm_split"; "bcm_same"; "global_vi"]).
  { apply str_in_In. unfold main_arg_checks in Hchecks.
    destruct (str_in (dp_mode args) _); [|discriminate]. cbn [negb] in Hchecks.
    destruct (str_in (model args) _); [reflexivity|discriminate]. }
  destruct (main_arg_checks args) as [info|e]; [|discriminate]. csimpl.
  unfold choose_server.
  destruct Hmodel as [<-|[<-|[<-|[<-|[]]]]]; cbn.
  - destruct (String.eqb_spec server "synchronous") as [->|Hs]; cbn.
    { split; [discriminate|]. split.
      - split; [discriminate|]. intros (_ & Hne & _). now elim Hne.
      - now intros cls mi c [= <- <- <-]. }
    destruct (String.eqb_spec server "sequential") as [->|Hq]; cbn.
    { split; [discriminate|]. split.
      - split; [discriminate|]. intros (_ & _ & Hne). now elim Hne.
      - now intros cls mi c [= <- <- <-]. }
    split; [discriminate|]. split; [now split|]. discriminate.
  - split; [discriminate|]. split.
    + split; [discriminate|]. intros (Hm & _). discriminate.
    + now intros cls mi c [= <- <- <-].
  - split; [discriminate|]. split.
    + split; [discriminate|]. intros (Hm & _). discriminate.
    + now intros cls mi c [= <- <- <-].
  - split; [discriminate|]. split.
    + split; [discriminate|]. intros (Hm & _). discriminate.
    + now intros cls mi c [= <- <- <-].
Qed.

(** ** Runs of the further properties *)

Lemma set_up_clients_returns_witness :
  exists cls,
    [mkClient LFA_Client 0%nat tt tt tt; mkClient LFA_Client 1%nat tt tt tt]
    = map (fun d : nat => mkClient cls d tt tt tt) [0%nat; 1%nat].
Proof.
  apply (set_up_clients_returns unit nat nat unit unit unit (fun n => n)
           (fun _ => tt) tt tt tt [0%nat; 1%nat] "lfa" (Some 32) None).
  reflexivity.
Defined.

(** The bracket of the script's main block with the stand-in
    accountant. *)
Lemma bin_search_sigma_in_bracket_witness :
  (forall sigma log,
      bin_search_sigma Q Qplus Qminus QFloat.fdiv2 Qabs QFloat.fleb
        QFloat.fltb QFloat.accountant 2%Q 20 (1 # 100000) (1 # 10) 1000000
        35%Q (7 # 10) 300%Q (1 # 1000) 3 = Ok (Some sigma, log) ->
      ((7 # 10) <= sigma <= 300)%Q)
  /\ (forall cur eps,
        bin_search_sigma Q Qplus Qminus QFloat.fdiv2 Qabs QFloat.fleb
          QFloat.fltb QFloat.accountant 2%Q 20 (1 # 100000) (1 # 10) 1000000
          35%Q (7 # 10) 300%Q (1 # 1000) 3
        = Ok (None, [DidNotConverge cur eps]) ->
        ((7 # 10) <= cur <= 300)%Q).
Proof.
  apply (bin_search_sigma_in_bracket QFloat.accountant 2%Q 20 (1 # 100000)
           (1 # 10) 1000000 35%Q (1 # 1000) (7 # 10) 300%Q 3).
  unfold Qle. simpl. lia.
Defined.

(** The stand-in accountant does not increase in [sigma] on positive
    brackets. *)
Lemma QFloat_accountant_antitone (target_delta q : Q) (ncomp nx : Z) (L : Q)
    (lo hi a b : Q) :
  (0 < lo)%Q -> (0 <= inject_Z ncomp * q)%Q ->
  (lo <= a)%Q -> (a <= b)%Q -> (b <= hi)%Q ->
  (QFloat.accountant target_delta b q ncomp nx L
   <= QFloat.accountant target_delta a q ncomp nx L)%Q.
Proof.
  intros Hlo Hc Ha Hab _. unfold QFloat.accountant.
  set (c := (inject_Z ncomp * q)%Q) in *.
  apply Qle_shift_div_l; [lra|].
  assert (Hr : (a / b <= 1)%Q) by (apply Qle_shift_div_r; lra).
  assert (E : (c / b * a == a / b * c)%Q) by (field; lra).
  rewrite E. apply (Qmult_le_compat_r _ _ c) in Hr; [lra|exact Hc].
Qed.

(** Three passes on the bracket of the script's main block, the target
    being met at sigma = 1. *)
Lemma bin_search_sigma_error_bound_witness :
  exists cur eps,
    bin_search_sigma Q Qplus Qminus QFloat.fdiv2 Qabs QFloat.fleb
      QFloat.fltb QFloat.accountant 2%Q 20 (1 # 100000) (1 # 10) 1000000
      35%Q (7 # 10) 300%Q (1 # 1000) 3
    = Ok (None, [DidNotConverge cur eps])
    /\ (Qabs (cur - 1) <= (300 - (7 # 10)) / inject_Z (2 ^ 3))%Q.
Proof.
  do 2 eexists. split; [vm_compute; reflexivity|].
  eapply (bin_search_sigma_error_bound QFloat.accountant 2%Q 20 (1 # 100000)
            (1 # 10) 1000000 35%Q (1 # 1000) (7 # 10) 300%Q).
  - intros a b. apply QFloat_accountant_antitone.
    + reflexivity.
    + unfold Qle. simpl. lia.
  - unfold Qle. simpl. lia.
  - unfold QFloat.accountant, Qeq. simpl. reflexivity.
  - split; unfold Qle; simpl; lia.
  - vm_compute. reflexivity.
Defined.

Lemma get_posneg_monotone_witness :
  exists p,
    get_posneg unit (fun _ _ => tt) (fun _ _ => tt) (fun _ _ => tt)
      [1; 0; 1; 0; 1] [9 # 10; 2 # 10; 4 # 10; 6 # 10; 1 # 2]%Q 3 = Ok p
    /\ exists tp_i fp_i tn_i fn_i tp_j fp_j tn_j fn_j,
         TP unit p !! 0%nat = Some tp_i /\ TP unit p !! 2%nat = Some tp_j
         /\ FP unit p !! 0%nat = Some fp_i /\ FP unit p !! 2%nat = Some fp_j
         /\ TN unit p !! 0%nat = Some tn_i /\ TN unit p !! 2%nat = Some tn_j
         /\ FN unit p !! 0%nat = Some fn_i /\ FN unit p !! 2%nat = Some fn_j
         /\ tp_j <= tp_i /\ fp_j <= fp_i /\ tn_i <= tn_j /\ fn_i <= fn_j.
Proof.
  eexists. split; [vm_compute; reflexivity|].
  eapply (get_posneg_monotone unit (fun _ _ => tt) (fun _ _ => tt)
            (fun _ _ => tt) [1; 0; 1; 0; 1]
            [9 # 10; 2 # 10; 4 # 10; 6 # 10; 1 # 2]%Q 3).
  - reflexivity.
  - lia.
  - vm_compute. reflexivity.
  - lia.
  - simpl. lia.
Defined.

Lemma get_posneg_length_mismatch_witness :
  get_posneg unit (fun _ _ => tt) (fun _ _ => tt) (fun _ _ => tt)
    [1; 0; 1] [1 # 2]%Q 3
  = Raise IndexError.
Proof.
  apply (get_posneg_length_mismatch unit (fun _ _ => tt) (fun _ _ => tt)
           (fun _ _ => tt) [1; 0; 1] [1 # 2]%Q 3).
  - reflexivity.
  - lia.
  - simpl. lia.
Defined.

(** Five examples at the default of 101 thresholds, the middle one
    [50 * (1 / 100) = 0.5] in doubles: three predictions out of five are
    right. *)
Lemma acc_and_ll_accuracy_matches_counts_witness :
  exists acc pn,
    acc_and_ll unit unit unit unit
      (fun _ _ => Ok [9 # 10; 2 # 10; 4 # 10; 6 # 10; 1 # 2]%Q)
      (fun _ _ => Ok tt) (fun _ _ => tt) (fun _ _ => tt) (fun _ _ => tt)
      tt tt [1; 0; 1; 0; 1] (2 * Z.of_nat 50 + 1)
    = Ok (acc, tt, pn)
    /\ exists p tp tn,
         pn = Some p /\ TP unit p !! 50%nat = Some tp
         /\ TN unit p !! 50%nat = Some tn
         /\ acc = Some (inject_Z (tp + tn)
                        / inject_Z (Z.of_nat (length [1; 0; 1; 0; 1])))%Q.
Proof.
  do 2 eexists. split; [vm_compute; reflexivity|].
  eapply (acc_and_ll_accuracy_matches_counts unit unit unit unit
            (fun _ _ => Ok [9 # 10; 2 # 10; 4 # 10; 6 # 10; 1 # 2]%Q)
            (fun _ _ => Ok tt) (fun _ _ => tt) (fun _ _ => tt)
            (fun _ _ => tt) tt tt [1; 0; 1; 0; 1] 50%nat).
  - intros v Hin. simpl in Hin. lia.
  - simpl. tauto.
  - simpl. tauto.
  - reflexivity.
  - reflexivity.
  - right. vm_compute. reflexivity.
  - vm_compute. reflexivity.
Defined.

Lemma generate_clients_data_pairs_witness :
  exists client_data N_is props_positive g',
    Example.generate Example.x Example.y 4 0%Q 0%Q None Example.draws
    = (Ok (client_data, N_is, props_positive, 4), g')
    /\ all_pairs client_data ⊆+ zip Example.x Example.y.
Proof.
  do 4 eexists. split; [vm_compute; reflexivity|].
  eapply (generate_clients_data_pairs nat TapeRandom.rng
            (TapeRandom.np_random_seed (fun _ => Example.draws))
            TapeRandom.np_random_permutation TapeRandom_permutation_spec
            Example.x Example.y 4 0%Q 0%Q None Example.draws).
  - reflexivity.
  - vm_compute. reflexivity.
Defined.

(** Fourteen positives and two zeros with a seed given: the call raises
    and leaves the state of the seed behind, not the one it started
    in. *)
Lemma generate_clients_data_raise_state_witness :
  (Example.generate Example.x
     [1; 1; 1; 1; 1; 1; 1; 1; 1; 1; 1; 1; 1; 1; 0; 0] 4 0%Q (1 # 2)%Q
     (Some 2303) [[3; 1; 2; 0]]%nat).2
  = TapeRandom.np_random_seed (fun _ => Example.draws) 2303.
Proof.
  eapply (generate_clients_data_raise_state nat TapeRandom.rng
            (TapeRandom.np_random_seed (fun _ => Example.draws))
            TapeRandom.np_random_permutation TapeRandom_permutation_spec
            Example.x [1; 1; 1; 1; 1; 1; 1; 1; 1; 1; 1; 1; 1; 1; 0; 0] 4
            0%Q (1 # 2)%Q (Some 2303) [[3; 1; 2; 0]]%nat).
  - reflexivity.
  - vm_compute. reflexivity.
Defined.

(** Sixteen rows dealt out to three clients. *)
Lemma mnist_balanced_split_partition_witness :
  exists client_data N,
    mnist_balanced_split nat TapeRandom.rng TapeRandom.np_random_permutation
      Example.x Example.y 3
      [[5; 12; 0; 9; 3; 14; 7; 1; 10; 15; 2; 8; 13; 4; 11; 6]]%nat
    = (Ok (client_data, N),
       (TapeRandom.np_random_permutation (length Example.y)
          [[5; 12; 0; 9; 3; 14; 7; 1; 10; 15; 2; 8; 13; 4; 11; 6]]%nat).2)
    /\ length client_data = Z.to_nat 3
    /\ N = map (fun d => length (shard_x d)) client_data
    /\ all_pairs client_data ≡ₚ zip Example.x Example.y
    /\ forall i j n_i n_j,
         N !! i = Some n_i -> N !! j = Some n_j -> (n_i <= n_j + 1)%nat.
Proof.
  apply (mnist_balanced_split_partition nat TapeRandom.rng
           TapeRandom.np_random_permutation TapeRandom_permutation_spec
           Example.x Example.y 3
           [[5; 12; 0; 9; 3; 14; 7; 1; 10; 15; 2; 8; 13; 4; 11; 6]]%nat).
  - reflexivity.
  - lia.
Defined.

(** The shards of that run: six, five and five rows. *)
Example mnist_balanced_split_run :
  mnist_balanced_split nat TapeRandom.rng TapeRandom.np_random_permutation
    Example.x Example.y 3
    [[5; 12; 0; 9; 3; 14; 7; 1; 10; 15; 2; 8; 13; 4; 11; 6]]%nat
  = (Ok ([mkShard [5; 9; 7; 15; 13; 6]%nat [0; 0; 0; 0; 0; 1];
          mkShard [12; 3; 1; 2; 4]%nat [1; 0; 0; 1; 1];
          mkShard [0; 14; 10; 8; 11]%nat [1; 1; 1; 1; 0]],
         [6; 5; 5]%nat), []).
Proof. vm_compute. reflexivity. Qed.

Lemma main_server_chosen_witness :
  (forall var,
     main_server (mkArgs "dpsgd" "pvi" (Some 32) None) "sequential" 10 4
     <> Raise (UnboundLocalError var))
  /\ (is_raise (main_server (mkArgs "dpsgd" "pvi" (Some 32) None)
                  "sequential" 10 4) = true
      <-> model (mkArgs "dpsgd" "pvi" (Some 32) None) = "pvi"
          /\ "sequential" <> "synchronous" /\ "sequential" <> "sequential")
  /\ (forall cls max_iterations clients',
        main_server (mkArgs "dpsgd" "pvi" (Some 32) None) "sequential" 10 4
        = Ok (cls, max_iterations, clients') ->
        max_iterations
        = (if str_in (model (mkArgs "dpsgd" "pvi" (Some 32) None))
                ["bcm_same"; "bcm_split"] then 1 else 10)
        /\ clients'
           = (if String.eqb (model (mkArgs "dpsgd" "pvi" (Some 32) None))
                   "global_vi" then 1 else 4)).
Proof.
  apply (main_server_chosen (mkArgs "dpsgd" "pvi" (Some 32) None)
           "sequential" 10 4).
  reflexivity.
Defined.

(** Further runs of the schedule and of the server choice. *)
Example lr_scheduler_setup_runs :
  lr_scheduler_setup true 10 = (true, Some [5; 8], [UsingMilestones [5; 8]])
  /\ lr_scheduler_setup true 5 = (false, None, [])
  /\ lr_scheduler_setup false 10 = (false, None, []).
Proof. repeat split. Qed.

Example main_server_runs :
  main_server (mkArgs "nondp_epochs" "bcm_split" None None) "synchronous" 10 4
  = Ok (BayesianCommitteeMachineSplit, 1, 4)
  /\ main_server (mkArgs "nondp_epochs" "global_vi" None None) "" 10 4
     = Ok (GlobalVIServer, 10, 1)
  /\ main_server (mkArgs "nondp_epochs" "pvi" None None) "async" 10 4
     = Raise (ValueError "Unknown server type: async").
Proof. repeat split. Qed.

(** Nine rows, six of them zero-labelled, two clients,
    [class_balance_factor = -0.5]: the double product
    [4 * 0.49999999999999994] floors to one zero-labelled row, so the
    small client holds three positives. *)
Lemma generate_clients_data_sizes_witness :
  exists client_data props_positive,
    Float64.generate_clients_data nat TapeRandom.rng
      (TapeRandom.np_random_seed (fun _ => []))
      TapeRandom.np_random_permutation (seq 0 9) [0; 0; 0; 0; 0; 0; 1; 1; 1]
      2 0%float (-0.5)%float None []
    = (Ok (client_data, [4; 4]%nat, props_positive, 2), [])
    /\ Float64.sizes 9 [0; 0; 0; 0; 0; 0; 1; 1; 1] 2 0%float (-0.5)%float
       = Ok (3, 1, 4)
    /\ [4; 4]%nat
       = replicate (Z.to_nat (2 ÷ 2)) (Z.to_nat (3 + 1))
         ++ replicate (Z.to_nat (2 ÷ 2)) (Z.to_nat 4)
    /\ forall i d,
         (i < Z.to_nat (2 ÷ 2))%nat -> client_data !! i = Some d ->
         np_sum (is_pos (shard_y d)) = 3
         /\ Z.of_nat (length (shard_y d)) = 3 + 1.
Proof.
  do 2 eexists. split; [vm_compute; reflexivity|].
  split; [vm_compute; reflexivity|].
  eapply (generate_clients_data_sizes nat TapeRandom.rng
            (TapeRandom.np_random_seed (fun _ => []))
            TapeRandom.np_random_permutation TapeRandom_permutation_spec
            (seq 0 9) [0; 0; 0; 0; 0; 0; 1; 1; 1] 2 0%float (-0.5)%float
            None [] [] _ [4; 4]%nat _ 2 3 1 4).
  - reflexivity.
  - discriminate.
  - vm_compute. reflexivity.
  - vm_compute. reflexivity.
  - lia.
  - vm_compute. discriminate.
  - vm_compute. discriminate.
  - vm_compute. discriminate.
Defined.

(** C7.  Thirty-four rows, ten of them zero-labelled, two clients,
    [client_size_factor = 0] and [class_balance_factor = 0.5]: the one
    small client is to hold [17 * (10/34 + 24/34 * 1/2) = 11]
    zero-labelled rows and the dataset has ten, so the settings cannot
    be met and in exact arithmetic the call raises.  In doubles the
    product is 10.999999999999998 and floors to 10: neither check
    fires, and the call returns two shards, the first with ten
    zero-labelled rows. *)
Theorem generate_clients_data_shortage_not_reported :
  small_client_negative_class_size 34 2 0 (10 # 34) (1 # 2) * (2 / 2) = 11
  /\ np_sum (is_zero (replicate 10 0 ++ replicate 24 1)) = 10
  /\ (exists e,
        generate_clients_data nat TapeRandom.rng
          (TapeRandom.np_random_seed (fun _ => []))
          TapeRandom.np_random_permutation (seq 0 34)
          (replicate 10 0 ++ replicate 24 1) 2 0%Q (1 # 2)%Q None []
        = (Raise e, []))
  /\ Float64.small_client_negative_class_size 17
       (Float64.class_balance (replicate 10 0 ++ replicate 24 1)) 0.5%float
     = Ok 10
  /\ exists client_data props_positive d,
       Float64.generate_clients_data nat TapeRandom.rng
         (TapeRandom.np_random_seed (fun _ => []))
         TapeRandom.np_random_permutation (seq 0 34)
         (replicate 10 0 ++ replicate 24 1) 2 0%float 0.5%float None []
       = (Ok (client_data, [17; 17]%nat, props_positive, 2), [])
       /\ client_data !! 0%nat = Some d
       /\ np_sum (is_zero (shard_y d)) = 10.
Proof.
  split; [reflexivity|]. split; [reflexivity|].
  split.
  { apply (generate_clients_data_not_enough_instances nat TapeRandom.rng
             (TapeRandom.np_random_seed (fun _ => []))
             TapeRandom.np_random_permutation (seq 0 34)
             (replicate 10 0 ++ replicate 24 1) 2 0%Q (1 # 2)%Q None []).
    - reflexivity.
    - reflexivity.
    - lia.
    - left. vm_compute. reflexivity. }
  split; [vm_compute; reflexivity|].
  do 3 eexists. split; [vm_compute; reflexivity|].
  split; reflexivity.
Qed.

(** The same rounding the other way.  Five rows, one of them positive,
    two clients, both factors 0: the small client is to hold one
    positive row and the dataset has one, but [(1 - 0.8) * 5] is
    0.9999999999999998 in doubles and the call is refused; in exact
    arithmetic it returns. *)
Example generate_clients_data_rounding_refuses :
  Float64.generate_clients_data nat TapeRandom.rng
    (TapeRandom.np_random_seed (fun _ => []))
    TapeRandom.np_random_permutation (seq 0 5) [0; 0; 0; 0; 1] 2 0%float
    0%float None []
  = (Raise (ValueError
       "Not enough positive class instances to fill the small clients."), [])
  /\ exists r,
       generate_clients_data nat TapeRandom.rng
         (TapeRandom.np_random_seed (fun _ => []))
         TapeRandom.np_random_permutation (seq 0 5) [0; 0; 0; 0; 1] 2 0%Q
         0%Q None []
       = (Ok r, []).
Proof. split; [vm_compute; reflexivity|]. eexists. vm_compute. reflexivity. Qed.

(** On the sixteen rows of the examples the doubles agree with exact
    arithmetic: four clients with both factors 0 get the same shards in
    both. *)
Example generate_clients_data_doubles_agree :
  exists client_data N_is props_positive props_positive' g',
    Example.generate Example.x Example.y 4 0%Q 0%Q None Example.draws
    = (Ok (client_data, N_is, props_positive, 4), g')
    /\ Float64.generate_clients_data nat TapeRandom.rng
         (TapeRandom.np_random_seed (fun _ => Example.draws))
         TapeRandom.np_random_permutation Example.x Example.y 4 0%float
         0%float None Example.draws
       = (Ok (client_data, N_is, props_positive', 4), g').
Proof.
  do 5 eexists. split; [vm_compute; reflexivity|].
  eapply (Float64_generate_clients_data_exact nat TapeRandom.rng
            (TapeRandom.np_random_seed (fun _ => Example.draws))
            TapeRandom.np_random_permutation Example.x Example.y 4 0%Q 0%Q
            0%float 0%float None Example.draws).
  - discriminate.
  - vm_compute. reflexivity.
  - intros class_balance [= <-]. vm_compute. reflexivity.
Qed.
